(** * Uptime monitor: check cycle, incident tracking and notification templates

    A shallow embedding of [src/utils.ts], [src/notify.ts], the two send
    functions of [src/whatsapp.ts] and the scheduler of [src/monitor.ts].

    Conventions.
    - JavaScript numbers that the code only ever uses as whole numbers
      (milliseconds, seconds, HTTP status codes) are [Z].  The one
      computation that leaves the whole numbers, the stagger of
      [startMonitor], is done on binary64 as the Standard Library
      specifies it ([SpecFloat]).
    - Strings are [string] (bytes).  The only pattern the code matches on
      them, [/\{(\w+)\}/g], looks at ASCII characters alone, so reading a
      template byte by byte agrees with reading it by UTF-16 code unit.
    - Prisma tables are finite maps keyed by the primary key (websites,
      settings) or lists of rows in insertion order (checks, incidents).
    - Everything the process does not decide itself (the reply of the probed
      host, whether a persistence call or a socket write throws, how a
      timestamp prints in the id-ID locale) is read from an [Env]. *)

From Stdlib Require Import ZArith String Ascii List Lia DecimalString.
From Stdlib Require Import Floats.SpecFloat.
From stdpp Require Import base option list gmap strings sorting.
From Equations Require Import Equations.
From Equations.Prop Require Import Logic.

Local Open Scope Z_scope.

(** ** [src/utils.ts] *)

Module Utils.

(** Template-literal interpolation [`${n}`] of a whole number. *)
Definition numberToString (n : Z) : string :=
  NilZero.string_of_int (Z.to_int n).

(** [formatDuration]: [Math.floor(a / b)] is [a / b] on [Z] for a positive
    [b], and [%] is the truncating remainder [Z.rem]. *)
Definition formatDuration (seconds : Z) : string :=
  if seconds <? 60 then numberToString seconds +:+ "s"
  else if seconds <? 3600 then
    let m := seconds / 60 in
    let s := Z.rem seconds 60 in
    if 0 <? s
    then numberToString m +:+ "m " +:+ numberToString s +:+ "s"
    else numberToString m +:+ "m"
  else
    let h := seconds / 3600 in
    let m := Z.rem seconds 3600 / 60 in
    if 0 <? m
    then numberToString h +:+ "h " +:+ numberToString m +:+ "m"
    else numberToString h +:+ "h".

End Utils.

(** ** JavaScript numbers that are not whole

    IEEE 754 binary64 with rounding to nearest, ties to even. *)

Module Double.

Definition prec : Z := 53.
Definition emax : Z := 1024.

(** The double nearest to a whole number (exact below 2^53). *)
Definition ofZ (z : Z) : spec_float := binary_normalize prec emax z 0 false.

(** [x / y] and [x * y] *)
Definition div (x y : spec_float) : spec_float := SFdiv prec emax x y.
Definition mul (x y : spec_float) : spec_float := SFmul prec emax x y.

(** [Math.floor(x)] of a finite [x], as a whole number.  (The quotients
    and products the program takes are finite; for an infinity or NaN,
    which [Math.floor] returns as it is, the value here is 0.) *)
Definition floor (x : spec_float) : Z :=
  match x with
  | S754_finite s m e =>
      let n := if s then Z.neg m else Z.pos m in
      if 0 <=? e then n * 2 ^ e else n / 2 ^ (- e)
  | _ => 0
  end.

End Double.

(** ** A fragment of the JavaScript object model

    [renderTemplate] reads [vars[key]] on an object literal.  Property
    access on an ordinary object first looks at the object's own properties
    and then at [Object.prototype]. *)

Module Js.

Inductive value :=
| VString (s : string)
| VFunction (name : string)   (* a built-in function object *)
| VObject.                    (* an ordinary object *)

(** [String(v)], the conversion [String.prototype.replace] applies to what
    its callback returns; built-in functions print the way V8 prints
    them. *)
Definition toString (v : value) : string :=
  match v with
  | VString s => s
  | VFunction name => "function " +:+ name +:+ "() { [native code] }"
  | VObject => "[object Object]"
  end.

(** The properties every object literal inherits from [Object.prototype]. *)
Definition objectPrototype (key : string) : option value :=
  if decide (key = "constructor") then Some (VFunction "Object")
  else if decide (key = "__proto__") then Some VObject
  else if decide (key ∈ ["toString"; "toLocaleString"; "valueOf";
                         "hasOwnProperty"; "isPrototypeOf";
                         "propertyIsEnumerable"; "__defineGetter__";
                         "__defineSetter__"; "__lookupGetter__";
                         "__lookupSetter__"])
  then Some (VFunction key)
  else None.

(** [obj[key]] for an object literal whose own properties are [own];
    [None] is [undefined]. *)
Definition getProperty (own : gmap string string) (key : string)
  : option value :=
  match own !! key with
  | Some s => Some (VString s)
  | None => objectPrototype key
  end.

(** Truthiness of a [string | null]. *)
Definition truthy (s : option string) : bool :=
  match s with
  | Some (String _ _) => true
  | _ => false
  end.

End Js.

(** ** The regular expression [/\{(\w+)\}/g] *)

Module Regex.

(** [\w] without the unicode flag: [[A-Za-z0-9_]]. *)
Definition isWordChar (c : ascii) : bool :=
  let n := nat_of_ascii c in
  ((65 <=? n) && (n <=? 90) || (97 <=? n) && (n <=? 122)
   || (48 <=? n) && (n <=? 57) || (n =? 95))%nat.

(** The longest prefix of word characters, and what follows it. *)
Fixpoint spanWord (s : string) : string * string :=
  match s with
  | String c t =>
      if isWordChar c
      then let '(w, r) := spanWord t in (String c w, r)
      else (EmptyString, s)
  | EmptyString => (EmptyString, EmptyString)
  end.

(** [\{(\w+)\}] anchored at the start of [s]: the captured key and the
    text after the match.  [\w+] is greedy and ["}"] is not a word
    character, so the only run that can be followed by ["}"] is the
    longest one. *)
Definition matchPlaceholder (s : string) : option (string * string) :=
  match s with
  | String "{" t =>
      match spanWord t with
      | (String k ks, String "}" rest) => Some (String k ks, rest)
      | _ => None
      end
  | _ => None
  end.

Lemma spanWord_length s :
  (String.length (snd (spanWord s)) <= String.length s)%nat.
Proof.
  induction s as [|c t IH]; simpl; [lia|].
  destruct (isWordChar c); simpl; [|lia].
  destruct (spanWord t) as [w r]; simpl in *; lia.
Qed.

Lemma matchPlaceholder_length s key rest :
  matchPlaceholder s = Some (key, rest) ->
  (String.length rest < String.length s)%nat.
Proof.
  destruct s as [|c t]; [discriminate|].
  unfold matchPlaceholder.
  destruct (Ascii.eqb_spec c "{") as [->|Hc].
  - pose proof (spanWord_length t) as Hlen.
    destruct (spanWord t) as [[|k ks] [|c' r]]; try discriminate.
    simpl in Hlen.
    destruct (Ascii.eqb_spec c' "}") as [->|Hc'].
    + intros [= <- <-]. simpl. lia.
    + destruct c' as [[] [] [] [] [] [] [] []]; try discriminate; congruence.
  - destruct c as [[] [] [] [] [] [] [] []]; try discriminate; congruence.
Qed.

(** [s.replace(/\{(\w+)\}/g, (_, key) => f(key))]: scan from the left; at a
    match emit the replacement and go on after the match, otherwise emit
    one character and go on at the next one. *)
Equations? replaceAll (f : string -> string) (s : string) : string
  by wf (String.length s) lt :=
  replaceAll f EmptyString := EmptyString;
  replaceAll f (String c t) with inspect (matchPlaceholder (String c t)) := {
    | exist _ (Some (key, rest)) Hm := f key +:+ replaceAll f rest;
    | exist _ None _ := String c (replaceAll f t) }.
Proof.
  exact (matchPlaceholder_length (String c t) key rest Hm).
Qed.

End Regex.

(** ** [src/notify.ts]: templates *)

Module Template.

Definition DEFAULT_DOWN_TEMPLATE : string :=
  "🔴 *{name}* is DOWN
URL: {url}
Error: {error}
Time: {time}".

Definition DEFAULT_UP_TEMPLATE : string :=
  "🟢 *{name}* is back UP
URL: {url}
Downtime: {downtime}
Time: {time}".

(** The callback [(_, key) => vars[key] ?? ''], followed by the string
    conversion of its result. *)
Definition substitute (vars : gmap string string) (key : string) : string :=
  match Js.getProperty vars key with
  | Some v => Js.toString v
  | None => EmptyString
  end.

Definition renderTemplate (template : string) (vars : gmap string string)
  : string :=
  Regex.replaceAll (substitute vars) template.

End Template.

(** ** Rows of the Prisma tables *)

(** Modelled from the spec: [prisma/schema.prisma] is not among the
    sources.  A Site has a URL, a name, a check interval in seconds, an
    active flag, a last known status, a last latency, a last-checked
    timestamp, optional down and up templates and a recipient kind and
    identifier; the field names are the ones the code uses.  The row is
    kept without its [id]: the table is keyed by it, so [website.id] is
    the key the row was found under. *)
Module Website.
Record t := mk {
  name : string;
  url : string;
  checkInterval : Z;
  isActive : bool;
  lastStatus : string;
  lastCheckedAt : option Z;
  lastResponseMs : option Z;
  downTemplate : option string;
  upTemplate : option string;
  notifyType : string;
  notifyTarget : string }.
End Website.

(** The type ["up" | "down"] of the local [status] of [performCheck]. *)
Inductive Status := up | down.

#[export] Instance Status_eq_dec : EqDecision Status.
Proof. solve_decision. Defined.

Definition statusString (s : Status) : string :=
  match s with up => "up" | down => "down" end.

(** Modelled from the spec: [prisma/schema.prisma] is not among the
    sources.  A Check has a site reference, a status, an optional HTTP
    status code, a response time in ms, an optional error message and a
    timestamp. *)
Module Check.
Record t := mk {
  websiteId : string;
  status : Status;
  statusCode : option Z;
  responseTime : Z;
  errorMessage : option string;
  checkedAt : Z }.
End Check.

(** Modelled from the spec: [prisma/schema.prisma] is not among the
    sources.  An Incident has a site reference, a start timestamp, an
    optional end timestamp (null while it is open), an optional duration
    in seconds and the two notification flags. *)
Module Incident.
Record t := mk {
  id : nat;
  websiteId : string;
  startedAt : Z;
  resolvedAt : option Z;
  duration : option Z;
  downNotified : bool;
  upNotified : bool }.

(** [where: { websiteId, resolvedAt: null }] *)
Definition isOpenFor (site : string) (i : t) : bool :=
  bool_decide (websiteId i = site) && bool_decide (resolvedAt i = None).
End Incident.

(** ** The state of the process and of its collaborators *)

(** What an armed timeout will run: [() => scheduleCheck(websiteId)] of
    the scheduler, or [() => controller.abort()] of a probe. *)
Inductive Callback :=
| RunScheduleCheck (websiteId : string)
| RunAbort.

#[export] Instance Callback_eq_dec : EqDecision Callback.
Proof. solve_decision. Defined.

(** [setTimeout(callback, delay)] *)
Record Timer := { timerCallback : Callback; timerDelay : Z }.

Record World := mkWorld {
  websites : gmap string Website.t;
  checks : list Check.t;
  incidents : list Incident.t;
  settings : gmap string string;
  nextIncidentId : nat;
  dbCalls : nat;               (* persistence calls made so far *)
  now : Z;                     (* the clock, in ms *)
  timers : gmap string nat;    (* the module-level [timers] map of monitor.ts *)
  eventLoop : gmap nat Timer;  (* timeouts armed and not yet fired *)
  nextHandle : nat;
  connected : bool;            (* [sock && state === "connected"] *)
  sent : list (string * string);  (* [sock.sendMessage(jid, { text })] done *)
  console : list string }.

Definition setWebsites (f : gmap string Website.t -> gmap string Website.t)
  (w : World) : World :=
  mkWorld (f (websites w)) (checks w) (incidents w) (settings w)
    (nextIncidentId w) (dbCalls w) (now w) (timers w) (eventLoop w)
    (nextHandle w) (connected w) (sent w) (console w).

Definition setChecks (f : list Check.t -> list Check.t) (w : World) : World :=
  mkWorld (websites w) (f (checks w)) (incidents w) (settings w)
    (nextIncidentId w) (dbCalls w) (now w) (timers w) (eventLoop w)
    (nextHandle w) (connected w) (sent w) (console w).

Definition setIncidents (f : list Incident.t -> list Incident.t) (w : World)
  : World :=
  mkWorld (websites w) (checks w) (f (incidents w)) (settings w)
    (nextIncidentId w) (dbCalls w) (now w) (timers w) (eventLoop w)
    (nextHandle w) (connected w) (sent w) (console w).

Definition setNextIncidentId (n : nat) (w : World) : World :=
  mkWorld (websites w) (checks w) (incidents w) (settings w)
    n (dbCalls w) (now w) (timers w) (eventLoop w)
    (nextHandle w) (connected w) (sent w) (console w).

Definition setDbCalls (n : nat) (w : World) : World :=
  mkWorld (websites w) (checks w) (incidents w) (settings w)
    (nextIncidentId w) n (now w) (timers w) (eventLoop w)
    (nextHandle w) (connected w) (sent w) (console w).

Definition setNow (t : Z) (w : World) : World :=
  mkWorld (websites w) (checks w) (incidents w) (settings w)
    (nextIncidentId w) (dbCalls w) t (timers w) (eventLoop w)
    (nextHandle w) (connected w) (sent w) (console w).

Definition setTimers (f : gmap string nat -> gmap string nat) (w : World)
  : World :=
  mkWorld (websites w) (checks w) (incidents w) (settings w)
    (nextIncidentId w) (dbCalls w) (now w) (f (timers w)) (eventLoop w)
    (nextHandle w) (connected w) (sent w) (console w).

Definition setEventLoop (f : gmap nat Timer -> gmap nat Timer) (w : World)
  : World :=
  mkWorld (websites w) (checks w) (incidents w) (settings w)
    (nextIncidentId w) (dbCalls w) (now w) (timers w) (f (eventLoop w))
    (nextHandle w) (connected w) (sent w) (console w).

Definition setNextHandle (n : nat) (w : World) : World :=
  mkWorld (websites w) (checks w) (incidents w) (settings w)
    (nextIncidentId w) (dbCalls w) (now w) (timers w) (eventLoop w)
    n (connected w) (sent w) (console w).

Definition setSent (f : list (string * string) -> list (string * string))
  (w : World) : World :=
  mkWorld (websites w) (checks w) (incidents w) (settings w)
    (nextIncidentId w) (dbCalls w) (now w) (timers w) (eventLoop w)
    (nextHandle w) (connected w) (f (sent w)) (console w).

Definition setConsole (f : list string -> list string) (w : World) : World :=
  mkWorld (websites w) (checks w) (incidents w) (settings w)
    (nextIncidentId w) (dbCalls w) (now w) (timers w) (eventLoop w)
    (nextHandle w) (connected w) (sent w) (f (console w)).

(** What the outside world does during one run. *)
Inductive HostReply :=
| Response (status : Z)                   (* response headers arrived *)
| NetworkError (name message : string).   (* the transport gave up *)

Record Env := {
  hostReply : string -> HostReply;      (* what a GET of the url ends in *)
  hostLatency : string -> N;            (* and after how many ms *)
  dbFault : nat -> bool;                (* the n-th persistence call throws *)
  sendFault : string -> string -> bool; (* [sock.sendMessage] throws *)
  toLocaleString : Z -> string }.       (* id-ID rendering, Asia/Jakarta *)

(** ** Promise-returning code: state and exceptions

    A thrown exception does not undo the effects that came before it. *)

Record JsError := { errName : string; errMessage : string }.

Inductive Result (A : Type) :=
| Ok (a : A)
| Throw (e : JsError).
Arguments Ok {A} a.
Arguments Throw {A} e.

Definition M (A : Type) : Type := World -> Result A * World.

Definition ret {A} (a : A) : M A := fun w => (Ok a, w).

Definition bind {A B} (m : M A) (k : A -> M B) : M B :=
  fun w =>
    match m w with
    | (Ok a, w') => k a w'
    | (Throw e, w') => (Throw e, w')
    end.

Definition throw {A} (e : JsError) : M A := fun w => (Throw e, w).

(** [try { body } catch (err) { handler }] *)
Definition tryCatch {A} (body : M A) (handler : JsError -> M A) : M A :=
  fun w =>
    match body w with
    | (Ok a, w') => (Ok a, w')
    | (Throw e, w') => handler e w'
    end.

Definition gets {A} (f : World -> A) : M A := fun w => (Ok (f w), w).
Definition modify (f : World -> World) : M unit := fun w => (Ok tt, f w).

Notation "'let*' x ':=' m 'in' k" := (bind m (fun x => k))
  (at level 10, x name, m at level 100, k at level 200).
Notation "'do*' m 'in' k" := (bind m (fun _ => k))
  (at level 10, m at level 100, k at level 200).

Definition consoleLog (line : string) : M unit :=
  modify (setConsole (fun c => c ++ [line])).

(** [Date.now()] and [new Date()] *)
Definition dateNow : M Z := gets now.

(** ** The Prisma client

    Every call first asks the environment whether it fails; a failing call
    throws before it touches the table. *)

Module Prisma.

Definition requestError : JsError :=
  {| errName := "PrismaClientUnknownRequestError";
     errMessage := "request failed" |}.

Definition recordNotFound : JsError :=
  {| errName := "PrismaClientKnownRequestError";
     errMessage := "Record to update not found." |}.

Definition call (env : Env) : M unit :=
  fun w =>
    let w' := setDbCalls (S (dbCalls w)) w in
    if dbFault env (dbCalls w) then (Throw requestError, w') else (Ok tt, w').

(** [prisma.website.findUnique({ where: { id } })] *)
Definition website_findUnique (env : Env) (id : string)
  : M (option Website.t) :=
  do* call env in gets (fun w => websites w !! id).

(** Modelled from the spec: the column defaults of [prisma/schema.prisma],
    which is not among the sources.  A Check carries the timestamp of its
    write. *)
Definition newCheck (websiteId : string) (status : Status)
  (statusCode : option Z) (responseTime : Z) (errorMessage : option string)
  (now : Z) : Check.t :=
  Check.mk websiteId status statusCode responseTime errorMessage now.

(** Modelled from the spec: the column defaults of [prisma/schema.prisma],
    which is not among the sources.  A new Incident starts now, has no end
    and no duration, and its up-notification flag is unset. *)
Definition newIncident (id : nat) (websiteId : string) (downNotified : bool)
  (now : Z) : Incident.t :=
  Incident.mk id websiteId now None None downNotified false.

(** [prisma.check.create({ data })] *)
Definition check_create (env : Env) (websiteId : string) (status : Status)
  (statusCode : option Z) (responseTime : Z) (errorMessage : option string)
  : M unit :=
  do* call env in
  let* t := dateNow in
  modify (setChecks (fun l =>
    l ++ [newCheck websiteId status statusCode responseTime errorMessage t])).

(** The row [website_update] writes. *)
Definition touched (r : Website.t) (lastStatus : string)
  (lastCheckedAt lastResponseMs : Z) : Website.t :=
  Website.mk (Website.name r) (Website.url r) (Website.checkInterval r)
    (Website.isActive r) lastStatus (Some lastCheckedAt)
    (Some lastResponseMs) (Website.downTemplate r) (Website.upTemplate r)
    (Website.notifyType r) (Website.notifyTarget r).

(** [prisma.website.update({ where: { id }, data: { lastStatus,
    lastCheckedAt, lastResponseMs } })] *)
Definition website_update (env : Env) (id : string) (lastStatus : string)
  (lastCheckedAt lastResponseMs : Z) : M unit :=
  do* call env in
  let* row := gets (fun w => websites w !! id) in
  match row with
  | None => throw recordNotFound
  | Some r =>
      modify (setWebsites
                <[id := touched r lastStatus lastCheckedAt lastResponseMs]>)
  end.

(** [prisma.incident.create({ data: { websiteId, downNotified } })]; the
    row gets the next unused id. *)
Definition incident_create (env : Env) (websiteId : string)
  (downNotified : bool) : M Incident.t :=
  do* call env in
  let* t := dateNow in
  let* n := gets nextIncidentId in
  let row := newIncident n websiteId downNotified t in
  do* modify (fun w => setNextIncidentId (S n)
                         (setIncidents (fun l => l ++ [row]) w)) in
  ret row.

(** [orderBy: { startedAt: "desc" }], first row.  Among rows with the
    same [startedAt] the store is free to choose; the model takes the one
    inserted first. *)
Fixpoint mostRecent (l : list Incident.t) : option Incident.t :=
  match l with
  | [] => None
  | i :: rest =>
      match mostRecent rest with
      | Some j =>
          if Incident.startedAt i <? Incident.startedAt j
          then Some j else Some i
      | None => Some i
      end
  end.

(** [prisma.incident.findFirst({ where: { websiteId, resolvedAt: null },
    orderBy: { startedAt: "desc" } })] *)
Definition incident_findFirst (env : Env) (websiteId : string)
  : M (option Incident.t) :=
  do* call env in
  gets (fun w =>
    mostRecent (List.filter (Incident.isOpenFor websiteId) (incidents w))).

Definition resolveRow (id : nat) (resolvedAt duration : Z) (i : Incident.t)
  : Incident.t :=
  if bool_decide (Incident.id i = id)
  then Incident.mk (Incident.id i) (Incident.websiteId i)
         (Incident.startedAt i) (Some resolvedAt) (Some duration)
         (Incident.downNotified i) true
  else i.

(** [prisma.incident.update({ where: { id }, data: { resolvedAt, duration,
    upNotified: true } })] *)
Definition incident_update (env : Env) (id : nat) (resolvedAt duration : Z)
  : M unit :=
  do* call env in
  let* rows := gets incidents in
  if existsb (fun i => bool_decide (Incident.id i = id)) rows
  then modify (setIncidents (map (resolveRow id resolvedAt duration)))
  else throw recordNotFound.

(** [prisma.setting.findUnique({ where: { key } })], the row's [value]. *)
Definition setting_findUnique (env : Env) (key : string)
  : M (option string) :=
  do* call env in gets (fun w => settings w !! key).

(** [prisma.check.deleteMany({ where: { checkedAt: { lt: cutoff } } })]:
    the number of rows deleted. *)
Definition check_deleteMany (env : Env) (cutoff : Z) : M nat :=
  do* call env in
  let* rows := gets checks in
  do* modify (setChecks
                (List.filter (fun c => negb (Check.checkedAt c <? cutoff)))) in
  ret (length (List.filter (fun c => Check.checkedAt c <? cutoff) rows)).

(** [prisma.website.findMany({ where: { isActive: true } })]: the rows with
    their ids.  No order is asked for, so the store chooses one; the model
    takes the order in which the finite map lists its entries. *)
Definition website_findMany_active (env : Env)
  : M (list (string * Website.t)) :=
  do* call env in
  gets (fun w =>
    List.filter (fun p => Website.isActive (snd p))
      (map_to_list (websites w))).

End Prisma.

(** ** [src/whatsapp.ts]: the two send functions *)

Module WhatsApp.

Definition sockError : JsError :=
  {| errName := "Error"; errMessage := "Connection Closed" |}.

(** [sock.sendMessage(jid, { text })] *)
Definition sendMessage (env : Env) (jid text : string) : M unit :=
  fun w =>
    if sendFault env jid text then (Throw sockError, w)
    else (Ok tt, setSent (fun l => l ++ [(jid, text)]) w).

Definition isDigit (c : ascii) : bool :=
  let n := nat_of_ascii c in ((48 <=? n) && (n <=? 57))%nat.

(** [phone.replace(/\D/g, '')] *)
Fixpoint digitsOnly (s : string) : string :=
  match s with
  | String c t => if isDigit c then String c (digitsOnly t) else digitsOnly t
  | EmptyString => EmptyString
  end.

Definition notConnected : string := "[WA] Cannot send — not connected".

Definition sendToNumber (env : Env) (phone message : string) : M unit :=
  let* ok := gets connected in
  if negb ok then consoleLog notConnected
  else sendMessage env (digitsOnly phone +:+ "@s.whatsapp.net") message.

Definition sendToGroup (env : Env) (groupId message : string) : M unit :=
  let* ok := gets connected in
  if negb ok then consoleLog notConnected
  else sendMessage env groupId message.

End WhatsApp.

(** ** [src/notify.ts]: resolving, rendering and sending *)

Module Notify.
Import Template.

(** [setting?.value ?? null] *)
Definition getSetting (env : Env) (key : string) : M (option string) :=
  Prisma.setting_findUnique env key.

Definition resolveTemplate (env : Env) (websiteTemplate : option string)
  (settingKey hardcodedDefault : string) : M string :=
  if Js.truthy websiteTemplate then ret (default EmptyString websiteTemplate)
  else
    let* settingDefault := getSetting env settingKey in
    if Js.truthy settingDefault then ret (default EmptyString settingDefault)
    else ret hardcodedDefault.

Definition sentLine (website : Website.t) : string :=
  "[Notify] Sent to " +:+ Website.notifyType website +:+ ":"
    +:+ Website.notifyTarget website.

Definition failedLine (website : Website.t) (err : JsError) : string :=
  "[Notify] Failed for " +:+ Website.name website +:+ ": "
    +:+ errMessage err.

Definition sendNotification (env : Env) (website : Website.t)
  (message : string) : M unit :=
  tryCatch
    (do* (if bool_decide (Website.notifyType website = "group")
             && Js.truthy (Some (Website.notifyTarget website))
          then WhatsApp.sendToGroup env (Website.notifyTarget website) message
          else if Js.truthy (Some (Website.notifyTarget website))
          then WhatsApp.sendToNumber env (Website.notifyTarget website) message
          else ret tt) in
     consoleLog (sentLine website))
    (fun err => consoleLog (failedLine website err)).

Definition downVars (website : Website.t) (error : string)
  (statusCode : option Z) (time : string) : gmap string string :=
  <["name" := Website.name website]>
  (<["url" := Website.url website]>
  (<["error" := error]>
  (<["statusCode" :=
       match statusCode with
       | Some c => Utils.numberToString c
       | None => EmptyString
       end]>
  (<["time" := time]> ∅)))).

Definition notifyDown (env : Env) (website : Website.t) (error : string)
  (statusCode : option Z) : M unit :=
  let* t := dateNow in
  let now := toLocaleString env t in
  let* template :=
    resolveTemplate env (Website.downTemplate website)
      "defaultDownTemplate" DEFAULT_DOWN_TEMPLATE in
  let msg := renderTemplate template (downVars website error statusCode now) in
  sendNotification env website msg.

Definition upVars (website : Website.t) (downtimeSeconds : Z)
  (time : string) : gmap string string :=
  <["name" := Website.name website]>
  (<["url" := Website.url website]>
  (<["downtime" := Utils.formatDuration downtimeSeconds]>
  (<["time" := time]> ∅))).

Definition notifyUp (env : Env) (website : Website.t) (downtimeSeconds : Z)
  : M unit :=
  let* t := dateNow in
  let now := toLocaleString env t in
  let* template :=
    resolveTemplate env (Website.upTemplate website)
      "defaultUpTemplate" DEFAULT_UP_TEMPLATE in
  let msg := renderTemplate template (upVars website downtimeSeconds now) in
  sendNotification env website msg.

End Notify.

(** ** [src/monitor.ts]: the check cycle *)

Module Monitor.

Record ProbeResult := {
  status : Status;
  statusCode : option Z;
  responseTime : Z;
  errorMessage : option string }.

Definition abortError : JsError :=
  {| errName := "AbortError"; errMessage := "This operation was aborted" |}.

(** The request is still in flight when the 15000 ms timer fires. *)
Definition timedOut (env : Env) (url : string) : bool :=
  15000 <=? Z.of_N (hostLatency env url).

(** How [fetch(url, { signal: controller.signal, ... })] ends, and after
    how many ms: the status of the response, or a rejection.  The
    15000 ms timer aborts a request that is still in flight. *)
Definition settle (env : Env) (url : string) : Result Z * Z :=
  let latency := Z.of_N (hostLatency env url) in
  if 15000 <=? latency then (Throw abortError, 15000)
  else
    match hostReply env url with
    | Response st => (Ok st, latency)
    | NetworkError n m => (Throw {| errName := n; errMessage := m |}, latency)
    end.

(** [setTimeout(callback, delay)]: the callback is kept as data, the event
    loop runs it with [fireTimer]. *)
Definition setTimeout (callback : Callback) (delay : Z) : M nat :=
  let* h := gets nextHandle in
  do* modify (fun w => setNextHandle (S h)
        (setEventLoop <[h := {| timerCallback := callback;
                                timerDelay := delay |}]> w)) in
  ret h.

(** [clearTimeout(timer)] *)
Definition clearTimeout (handle : nat) : M unit :=
  modify (setEventLoop (delete handle)).

(** Time passes while the request is in flight.  If the timer [timeout]
    of the probe fires first, it leaves the event loop and its callback
    aborts the request. *)
Definition fetch (env : Env) (url : string) (timeout : nat) : M Z :=
  fun w =>
    let '(r, elapsed) := settle env url in
    let w1 := if timedOut env url
              then setEventLoop (delete timeout) w else w in
    (r, setNow (now w + elapsed) w1).

(** Lines 68-98 of [performCheck]: the probe and its classification. *)
Definition probe (env : Env) (website : Website.t) : M ProbeResult :=
  let* startTime := dateNow in
  tryCatch
    (let* timeout := setTimeout RunAbort 15000 in
     let* res := fetch env (Website.url website) timeout in
     do* clearTimeout timeout in
     let* t := dateNow in
     let status := if res <? 400 then up else down in
     ret {| status := status;
            statusCode := Some res;
            responseTime := t - startTime;
            errorMessage :=
              match status with
              | down => Some ("HTTP " +:+ Utils.numberToString res)
              | up => None
              end |})
    (fun err =>
     let* t := dateNow in
     ret {| status := down;
            statusCode := None;
            responseTime := t - startTime;
            errorMessage :=
              Some (if bool_decide (errName err = "AbortError")
                    then "Timeout (15s)" else errMessage err) |}).

(** [errorMessage || "Unknown error"] *)
Definition orUnknown (errorMessage : option string) : string :=
  if Js.truthy errorMessage then default EmptyString errorMessage
  else "Unknown error".

Definition wentDownLine (website : Website.t) (errorMessage : option string)
  : string :=
  "[Monitor] " +:+ Website.name website +:+ " went DOWN: "
    +:+ default "null" errorMessage.

Definition backUpLine (website : Website.t) : string :=
  "[Monitor] " +:+ Website.name website +:+ " is back UP".

(** Lines 117-146 of [performCheck]: state change detection. *)
Definition stateChange (env : Env) (websiteId : string)
  (website : Website.t) (r : ProbeResult) : M unit :=
  let previousStatus := Website.lastStatus website in
  if bool_decide (previousStatus = "up") && bool_decide (status r = down)
  then
    do* consoleLog (wentDownLine website (errorMessage r)) in
    let* incident := Prisma.incident_create env websiteId true in
    let* fresh := Prisma.website_findUnique env websiteId in
    match fresh with
    | Some fresh =>
        Notify.notifyDown env fresh (orUnknown (errorMessage r))
          (statusCode r)
    | None => ret tt
    end
  else if bool_decide (previousStatus = "down")
          && bool_decide (status r = up)
  then
    do* consoleLog (backUpLine website) in
    let* openIncident := Prisma.incident_findFirst env websiteId in
    match openIncident with
    | Some openIncident =>
        let* t := dateNow in
        let duration := (t - Incident.startedAt openIncident) / 1000 in
        let* resolvedAt := dateNow in
        do* Prisma.incident_update env (Incident.id openIncident)
              resolvedAt duration in
        let* fresh := Prisma.website_findUnique env websiteId in
        match fresh with
        | Some fresh => Notify.notifyUp env fresh duration
        | None => ret tt
        end
    | None => ret tt
    end
  else ret tt.

Definition performCheck (env : Env) (websiteId : string) : M unit :=
  let* website := Prisma.website_findUnique env websiteId in
  match website with
  | None => ret tt
  | Some website =>
      let* r := probe env website in
      do* Prisma.check_create env websiteId (status r) (statusCode r)
            (responseTime r) (errorMessage r) in
      let* checkedAt := dateNow in
      do* Prisma.website_update env websiteId (statusString (status r))
            checkedAt (responseTime r) in
      stateChange env websiteId website r
  end.

Definition scheduleCheck (env : Env) (websiteId : string) : M unit :=
  let* website := Prisma.website_findUnique env websiteId in
  match website with
  | Some website =>
      if Website.isActive website then
        do* performCheck env websiteId in
        let* timer := setTimeout (RunScheduleCheck websiteId)
                        (Website.checkInterval website * 1000) in
        modify (setTimers <[websiteId := timer]>)
      else modify (setTimers (delete websiteId))
  | None => modify (setTimers (delete websiteId))
  end.

(** What a turn of the event loop leaves: the process goes on, or it
    ends on an error nobody caught. *)
Inductive Outcome :=
| Continues (w : World)
| Exits (reason : JsError) (w : World).

Definition worldOf (o : Outcome) : World :=
  match o with Continues w | Exits _ w => w end.

(** The event loop runs the callback of an armed timeout, which leaves
    the loop.  [() => scheduleCheck(websiteId)] drops the promise of
    [scheduleCheck]: when it rejects nobody handles it, the code installs
    no [unhandledRejection] handler, and the runtime of the Dockerfile
    (Node 22, started without flags) then raises it as an uncaught
    exception, which ends the process.  [() => controller.abort()] finds
    its request settled and does nothing. *)
Definition fireTimer (env : Env) (handle : nat) (w : World) : Outcome :=
  match eventLoop w !! handle with
  | Some t =>
      let w1 := setEventLoop (delete handle) w in
      match timerCallback t with
      | RunScheduleCheck websiteId =>
          match scheduleCheck env websiteId w1 with
          | (Ok _, w2) => Continues w2
          | (Throw e, w2) => Exits e w2
          end
      | RunAbort => Continues w1
      end
  | None => Continues w
  end.

(** [90 * 24 * 60 * 60 * 1000] *)
Definition retentionMs : Z := 90 * 24 * 60 * 60 * 1000.

Definition cleanedUpLine (count : nat) : string :=
  "[Monitor] Cleaned up " +:+ Utils.numberToString (Z.of_nat count)
    +:+ " old checks".

Definition cleanupOldChecks (env : Env) : M unit :=
  let* t := dateNow in
  let cutoff := t - retentionMs in
  let* count := Prisma.check_deleteMany env cutoff in
  if (0 <? count)%nat then consoleLog (cleanedUpLine count) else ret tt.

End Monitor.

(** ** [src/monitor.ts]: starting and stopping

    Besides the world, the scheduler has the module-level [cleanupTimer]
    and the intervals the event loop keeps for it. *)

Module Scheduler.
Import Monitor.

Record t := mk {
  world : World;
  cleanupTimer : option nat;   (* the handle [setInterval] returned, or null *)
  intervals : gmap nat Z }.    (* armed intervals and their period in ms *)

Definition withWorld (w : World) (s : t) : t :=
  mk w (cleanupTimer s) (intervals s).

(** [for (const timer of timers.values()) clearTimeout(timer)] *)
Definition clearTimeouts (handles : list nat) (loop : gmap nat Timer)
  : gmap nat Timer :=
  fold_left (fun acc h => delete h acc) handles loop.

Definition stoppedLine : string := "[Monitor] Stopped".

Definition stopMonitor (s : t) : t :=
  let w := world s in
  let handles := map snd (map_to_list (timers w)) in
  let w1 := setEventLoop (clearTimeouts handles) w in
  let w2 := setTimers (fun _ => ∅) w1 in
  let w3 := setConsole (fun c => c ++ [stoppedLine]) w2 in
  match cleanupTimer s with
  | Some h => mk w3 None (delete h (intervals s))
  | None => mk w3 None (intervals s)
  end.

(** [Math.min(...websites.map((w) => w.checkInterval))] of a list that is
    not empty. *)
Definition minInterval (websites : list (string * Website.t)) : Z :=
  match websites with
  | [] => 0
  | p :: rest =>
      fold_left (fun m q => Z.min m (Website.checkInterval (snd q))) rest
        (Website.checkInterval (snd p))
  end.

Definition noActiveLine : string := "[Monitor] No active websites to monitor".

Definition startedLine (count : nat) (minInterval : Z) : string :=
  "[Monitor] Started monitoring " +:+ Utils.numberToString (Z.of_nat count)
    +:+ " websites (staggered over " +:+ Utils.numberToString minInterval
    +:+ "s)".

(** [24 * 60 * 60 * 1000] *)
Definition cleanupPeriodMs : Z := 24 * 60 * 60 * 1000.

(** [(minInterval * 1000) / websites.length], a double. *)
Definition delayBetween (websites : list (string * Website.t)) : spec_float :=
  Double.div (Double.ofZ (minInterval websites * 1000))
    (Double.ofZ (Z.of_nat (length websites))).

(** [Math.floor(index * delayBetween)] *)
Definition initialDelay (delayBetween : spec_float) (index : nat) : Z :=
  Double.floor (Double.mul (Double.ofZ (Z.of_nat index)) delayBetween).

(** [websites.forEach((website, index) => { ... })], from [index] on. *)
Fixpoint armInitial (delayBetween : spec_float) (index : nat)
  (websites : list (string * Website.t)) : M unit :=
  match websites with
  | [] => ret tt
  | (id, website) :: rest =>
      let initialDelay := initialDelay delayBetween index in
      let* timer := setTimeout (RunScheduleCheck id) initialDelay in
      do* modify (setTimers <["init-" +:+ id := timer]>) in
      armInitial delayBetween (S index) rest
  end.

Definition startMonitor (env : Env) (s : t) : Result unit * t :=
  let s1 := stopMonitor s in
  match Prisma.website_findMany_active env (world s1) with
  | (Throw e, w) => (Throw e, withWorld w s1)
  | (Ok websites, w) =>
      if (length websites =? 0)%nat
      then (Ok tt, withWorld (setConsole (fun c => c ++ [noActiveLine]) w) s1)
      else
        let minInterval := minInterval websites in
        let delayBetween := delayBetween websites in
        match armInitial delayBetween 0 websites w with
        | (Throw e, w') => (Throw e, withWorld w' s1)
        | (Ok _, w') =>
            let w2 :=
              setConsole
                (fun c => c ++ [startedLine (length websites) minInterval])
                w' in
            let h := nextHandle w2 in
            (Ok tt,
             mk (setNextHandle (S h) w2) (Some h)
                (<[h := cleanupPeriodMs]> (intervals s1)))
        end
  end.

(** The process with its scheduler: running, or ended on an error nobody
    caught. *)
Inductive Process :=
| Running (s : t)
| Exited (reason : JsError) (s : t).

Definition stateOf (p : Process) : t :=
  match p with Running s | Exited _ s => s end.

(** The event loop runs the callback of an armed timeout. *)
Definition fireTimer (env : Env) (handle : nat) (s : t) : Process :=
  match Monitor.fireTimer env handle (world s) with
  | Continues w => Running (withWorld w s)
  | Exits e w => Exited e (withWorld w s)
  end.

End Scheduler.

(** * Vocabulary of the statements *)

Section Vocabulary.
Import Regex Template Notify Monitor.

(** [m] leaves the part [proj] of the world as it found it. *)
Definition keeps {B A : Type} (proj : World -> B) (m : M A) : Prop :=
  forall w, proj (snd (m w)) = proj w.

(** An identifier in the sense of the pattern: one or more word
    characters. *)
Fixpoint allWord (s : string) : bool :=
  match s with
  | String c t => isWordChar c && allWord t
  | EmptyString => true
  end.

Definition isIdentifier (key : string) : bool :=
  match key with
  | String _ _ => allWord key
  | EmptyString => false
  end.

Fixpoint noBrace (s : string) : bool :=
  match s with
  | String c t => negb (Ascii.eqb c "{") && noBrace t
  | EmptyString => true
  end.

(** The address the message goes to. *)
Definition recipient (website : Website.t) : string :=
  if bool_decide (Website.notifyType website = "group")
  then Website.notifyTarget website
  else WhatsApp.digitsOnly (Website.notifyTarget website)
         +:+ "@s.whatsapp.net".

(** What the probe of lines 68-98 reports, as a function of how the
    request ended. *)
Definition probeResult (env : Env) (website : Website.t) : ProbeResult :=
  match settle env (Website.url website) with
  | (Ok res, elapsed) =>
      {| status := if res <? 400 then up else down;
         statusCode := Some res;
         responseTime := elapsed;
         errorMessage :=
           if res <? 400 then None
           else Some ("HTTP " +:+ Utils.numberToString res) |}
  | (Throw err, elapsed) =>
      {| status := down;
         statusCode := None;
         responseTime := elapsed;
         errorMessage :=
           Some (if bool_decide (errName err = "AbortError")
                 then "Timeout (15s)" else errMessage err) |}
  end.

Definition elapsed (env : Env) (website : Website.t) : Z :=
  snd (settle env (Website.url website)).

(** The probe leaves its 15 s timer armed: the request was rejected
    before the timer fired, so that nothing cleared it. *)
Definition abortLeft (env : Env) (website : Website.t) : bool :=
  negb (timedOut env (Website.url website))
  && match hostReply env (Website.url website) with
     | NetworkError _ _ => true
     | Response _ => false
     end.

(** The armed timeouts after the probe of [website], whose timer has the
    handle [nextHandle w]: armed and left armed, or armed and then cleared
    or fired.  (Where every armed handle is below [nextHandle w], as in
    the states the program reaches, the deletion is of that timer
    alone.) *)
Definition probedLoop (env : Env) (website : Website.t) (w : World)
  : gmap nat Timer :=
  if abortLeft env website
  then <[nextHandle w := {| timerCallback := RunAbort;
                            timerDelay := 15000 |}]> (eventLoop w)
  else delete (nextHandle w) (eventLoop w).

(** The world after the probe. *)
Definition probed (env : Env) (website : Website.t) (w : World) : World :=
  setNow (now w + elapsed env website)
    (setNextHandle (S (nextHandle w))
       (setEventLoop (fun _ => probedLoop env website w) w)).

(** The world once the Check row is written and the site's status fields
    are updated: three persistence calls and the probe's time later. *)
Definition recorded (env : Env) (id : string) (site : Website.t) (w : World)
  : World :=
  let r := probeResult env site in
  let t := now w + elapsed env site in
  mkWorld
    (<[id := Prisma.touched site (statusString (status r)) t (responseTime r)]>
       (websites w))
    (checks w ++ [Prisma.newCheck id (status r) (statusCode r)
                    (responseTime r) (errorMessage r) t])
    (incidents w) (settings w) (nextIncidentId w) (3 + dbCalls w) t
    (timers w) (probedLoop env site w) (S (nextHandle w)) (connected w)
    (sent w) (console w).

(** The row [fresh] that is read back after the status update. *)
Definition refreshed (env : Env) (site : Website.t) (w : World)
  : Website.t :=
  let r := probeResult env site in
  Prisma.touched site (statusString (status r)) (now w + elapsed env site)
    (responseTime r).

(** The world with a fresh open incident for [id]. *)
Definition opened (id : string) (w : World) : World :=
  setNextIncidentId (S (nextIncidentId w))
    (setIncidents
       (fun l => l ++ [Prisma.newIncident (nextIncidentId w) id true (now w)])
       w).

(** The number of incidents of [site] with a null [resolvedAt]. *)
Definition openCount (site : string) (l : list Incident.t) : nat :=
  length (List.filter (Incident.isOpenFor site) l).

(** The state of a site's incidents agrees with its last status: at most
    one incident is open, and none unless the site was last seen down. *)
Definition consistent (id : string) (w : World) : Prop :=
  (openCount id (incidents w) <= 1)%nat
  /\ (forall site, websites w !! id = Some site ->
                   Website.lastStatus site <> "down" ->
                   openCount id (incidents w) = 0%nat).

(** A check that is no transition: the site was last seen in the status
    the probe reports, or its last status is neither up nor down. *)
Definition noTransition (previousStatus : string) (st : Status) : Prop :=
  previousStatus = statusString st
  \/ (previousStatus <> "up" /\ previousStatus <> "down").

(** Successive checks of one site, one environment per check, whatever
    the outcome of each. *)
Fixpoint runChecks (envs : list Env) (id : string) (w : World) : World :=
  match envs with
  | [] => w
  | env :: rest => runChecks rest id (snd (performCheck env id w))
  end.

(** A timeout of the scheduler is armed for [site] in [w]. *)
Definition armed (site : string) (w : World) : Prop :=
  exists h t, eventLoop w !! h = Some t
              /\ timerCallback t = RunScheduleCheck site.

End Vocabulary.

(** * Concrete sites, worlds and environments *)

Module Sample.

Definition site : Website.t :=
  Website.mk "Homepage" "https://hanif.app" 60 true "up" None None
    None None "personal" "+62 812-3".

Definition siteDown : Website.t :=
  Website.mk "Homepage" "https://hanif.app" 60 true "down" None None
    None None "personal" "+62 812-3".

Definition siteNoTarget : Website.t :=
  Website.mk "Homepage" "https://hanif.app" 60 true "down" None None
    None None "personal" EmptyString.

(** One site, nothing recorded yet, the socket connected. *)
Definition world (s : Website.t) (incidents : list Incident.t) (now : Z)
  : World :=
  mkWorld {["w1" := s]} [] incidents ∅ (length incidents) 0 now ∅ ∅ 0 true
    [] [].

(** The host answers [reply] after 120 ms; the persistence calls whose
    index [fault] holds of throw; every send throws if [sendFails]. *)
Definition env (reply : HostReply) (fault : nat -> bool) (sendFails : bool)
  : Env :=
  {| hostReply := fun _ => reply;
     hostLatency := fun _ => 120%N;
     dbFault := fault;
     sendFault := fun _ _ => sendFails;
     toLocaleString := fun _ => "2/11/2026, 07.00.00" |}.

Definition noFault : nat -> bool := fun _ => false.

(** An incident of [w1] that started at [t] and is still open. *)
Definition openIncident (n : nat) (t : Z) : Incident.t :=
  Prisma.newIncident n "w1" true t.

(** Two active sites, each with its next check armed. *)
Definition scheduled : World :=
  mkWorld (<["w1" := site]> {["w2" := site]}) [] [] ∅ 0 0 1000
    (<["w1" := 0%nat]> {["w2" := 1%nat]})
    (<[0%nat := {| timerCallback := RunScheduleCheck "w1";
                   timerDelay := 60000 |}]>
       {[1%nat := {| timerCallback := RunScheduleCheck "w2";
                     timerDelay := 60000 |}]})
    2 true [] [].



End Sample.

(** * Vocabulary of the further properties *)

Section Vocabulary2.
Import Monitor.

(** Checks of several sites, one after the other, each in its own
    environment. *)
Fixpoint runSites (steps : list (Env * string)) (w : World) : World :=
  match steps with
  | [] => w
  | (env, id) :: rest => runSites rest (snd (performCheck env id w))
  end.

(** Every check of the run returns normally. *)
Fixpoint completes (steps : list (Env * string)) (w : World) : bool :=
  match steps with
  | [] => true
  | (env, id) :: rest =>
      match performCheck env id w with
      | (Ok _, w') => completes rest w'
      | (Throw _, _) => false
      end
  end.

(** The Check table is in the order of its timestamps, none of them in
    the future. *)
Definition checksInOrder (w : World) : Prop :=
  StronglySorted (fun a b => Check.checkedAt a <= Check.checkedAt b)
    (checks w)
  /\ Forall (fun c => Check.checkedAt c <= now w) (checks w).

(** Incident ids are distinct and below the next id to be given out. *)
Definition idsFresh (w : World) : Prop :=
  Forall (fun i => (Incident.id i < nextIncidentId w)%nat) (incidents w)
  /\ NoDup (map Incident.id (incidents w)).

(** The fields of a site that the admin interface owns. *)
Definition sameConfig (a b : Website.t) : Prop :=
  Website.name a = Website.name b
  /\ Website.url a = Website.url b
  /\ Website.checkInterval a = Website.checkInterval b
  /\ Website.isActive a = Website.isActive b
  /\ Website.downTemplate a = Website.downTemplate b
  /\ Website.upTemplate a = Website.upTemplate b
  /\ Website.notifyType a = Website.notifyType b
  /\ Website.notifyTarget a = Website.notifyTarget b.

(** Only decimal digits. *)
Fixpoint allDigits (s : string) : bool :=
  match s with
  | String c t => WhatsApp.isDigit c && allDigits t
  | EmptyString => true
  end.

(** No closing brace. *)
Fixpoint noClosingBrace (s : string) : bool :=
  match s with
  | String c t => negb (Ascii.eqb c "}") && noClosingBrace t
  | EmptyString => true
  end.

(** A site id that cannot be mistaken for a key [init-<id>] of the timer
    map. *)
Definition noInitPrefix (id : string) : bool :=
  negb (String.prefix "init-" id).

(** The armed timeouts and the timer map agree: every armed timeout has a
    handle below the next one to be given out, is a timeout of the
    scheduler and is registered in the map, under its site's id or under
    [init-<id>]; no site has two timeouts armed; and no armed site id
    starts with [init-]. *)
Definition wellTimers (w : World) : Prop :=
  (forall h t, eventLoop w !! h = Some t ->
     (h < nextHandle w)%nat
     /\ exists id, timerCallback t = RunScheduleCheck id
          /\ noInitPrefix id = true
          /\ (timers w !! id = Some h
              \/ timers w !! ("init-" +:+ id) = Some h))
  /\ (forall h h' t t',
        eventLoop w !! h = Some t -> eventLoop w !! h' = Some t' ->
        timerCallback t = timerCallback t' -> h = h').

(** Moreover the cleanup interval, if any, is the only interval armed. *)
Definition wellScheduled (s : Scheduler.t) : Prop :=
  wellTimers (Scheduler.world s)
  /\ Scheduler.intervals s
     = match Scheduler.cleanupTimer s with
       | Some h => {[h := Scheduler.cleanupPeriodMs]}
       | None => ∅
       end.

End Vocabulary2.

(** * Vocabulary of the scheduler's runs *)

Section Vocabulary3.

(** The rows [startMonitor] reads. *)
Definition activeSites (w : World) : list (string * Website.t) :=
  List.filter (fun p => Website.isActive (snd p)) (map_to_list (websites w)).

(** No site id of the table starts with [init-]. *)
Definition plainIds (w : World) : Prop :=
  forall id site, websites w !! id = Some site -> noInitPrefix id = true.

(** The timeouts of the scheduler and the timer map agree, whatever
    timers of probes are armed besides: every armed timeout has a handle
    below the next one to be given out; every armed timeout of the
    scheduler is registered in the map, under its site's id or under
    [init-<id>], and its site id does not start with [init-]; and no site
    has two of them armed. *)
Definition checksRegistered (w : World) : Prop :=
  (forall h t, eventLoop w !! h = Some t -> (h < nextHandle w)%nat)
  /\ (forall h t id,
        eventLoop w !! h = Some t -> timerCallback t = RunScheduleCheck id ->
        noInitPrefix id = true
        /\ (timers w !! id = Some h
            \/ timers w !! ("init-" +:+ id) = Some h))
  /\ (forall h h' t t' id,
        eventLoop w !! h = Some t -> eventLoop w !! h' = Some t' ->
        timerCallback t = RunScheduleCheck id ->
        timerCallback t' = RunScheduleCheck id -> h = h').

(** Moreover the cleanup interval, if any, is the only interval armed. *)
Definition tidy (s : Scheduler.t) : Prop :=
  checksRegistered (Scheduler.world s)
  /\ Scheduler.intervals s
     = match Scheduler.cleanupTimer s with
       | Some h => {[h := Scheduler.cleanupPeriodMs]}
       | None => ∅
       end.

(** What happens to the scheduler: a call of [startMonitor], a call of
    [stopMonitor], or the event loop running the callback of a timeout.
    Each is run to its end before the next begins. *)
Inductive Event :=
  | Start (env : Env)
  | Stop
  | Tick (env : Env) (handle : nat).

(** An exception of [startMonitor] goes to its caller; the scheduler is
    left as the call left it. *)
Definition runEvent (e : Event) (s : Scheduler.t) : Scheduler.Process :=
  match e with
  | Start env => Scheduler.Running (snd (Scheduler.startMonitor env s))
  | Stop => Scheduler.Running (Scheduler.stopMonitor s)
  | Tick env handle => Scheduler.fireTimer env handle s
  end.

(** The events in turn, for as long as the process runs. *)
Fixpoint runEvents (events : list Event) (s : Scheduler.t)
  : Scheduler.Process :=
  match events with
  | [] => Scheduler.Running s
  | e :: rest =>
      match runEvent e s with
      | Scheduler.Running s' => runEvents rest s'
      | Scheduler.Exited reason s' => Scheduler.Exited reason s'
      end
  end.

End Vocabulary3.

(** * Properties *)

(** ** Running monadic code *)

Lemma bind_Ok {A B} (m : M A) (k : A -> M B) w a w' :
  m w = (Ok a, w') -> bind m k w = k a w'.
Proof. intros H. unfold bind. rewrite H. reflexivity. Qed.

Lemma bind_Throw {A B} (m : M A) (k : A -> M B) w e w' :
  m w = (Throw e, w') -> bind m k w = (Throw e, w').
Proof. intros H. unfold bind. rewrite H. reflexivity. Qed.

(** ** Frames: parts of the world a piece of code leaves alone *)

Section Frame.
Context {B : Type} (proj : World -> B).

Lemma keeps_ret {A} (a : A) : keeps proj (ret a).
Proof. intros w. reflexivity. Qed.

Lemma keeps_throw {A} e : keeps proj (@throw A e).
Proof. intros w. reflexivity. Qed.

Lemma keeps_gets {A} (f : World -> A) : keeps proj (gets f).
Proof. intros w. reflexivity. Qed.

Lemma keeps_modify f : (forall w, proj (f w) = proj w) -> keeps proj (modify f).
Proof. intros H w. apply H. Qed.

Lemma keeps_bind {A C} (m : M A) (k : A -> M C) :
  keeps proj m -> (forall a, keeps proj (k a)) -> keeps proj (bind m k).
Proof.
  intros Hm Hk w. unfold bind.
  specialize (Hm w). destruct (m w) as [[a|e] w1]; simpl in *.
  - rewrite Hk. exact Hm.
  - exact Hm.
Qed.

Lemma keeps_tryCatch {A} (body : M A) handler :
  keeps proj body -> (forall e, keeps proj (handler e)) ->
  keeps proj (tryCatch body handler).
Proof.
  intros Hb Hh w. unfold tryCatch.
  specialize (Hb w). destruct (body w) as [[a|e] w1]; simpl in *.
  - exact Hb.
  - rewrite Hh. exact Hb.
Qed.

Lemma keeps_call env :
  (forall n w, proj (setDbCalls n w) = proj w) ->
  keeps proj (Prisma.call env).
Proof.
  intros H w. unfold Prisma.call.
  destruct (dbFault env (dbCalls w)); simpl; apply H.
Qed.

End Frame.

Ltac keeps_step :=
  first
    [ apply keeps_ret | apply keeps_throw | apply keeps_gets
    | apply keeps_bind | apply keeps_tryCatch
    | match goal with
      | |- keeps _ (if ?b then _ else _) => destruct b
      | |- keeps _ (match ?x with _ => _ end) => destruct x
      end ].

Ltac keeps_by t := intros; repeat (first [solve [t] | keeps_step]; intros).
Ltac keeps_auto := keeps_by ltac:(idtac; fail).

(** The notifier touches the call counter, the sent messages and the
    console, and nothing else. *)
Section NotifyFrame.
Context {B : Type} (proj : World -> B).
Hypothesis proj_calls : forall n w, proj (setDbCalls n w) = proj w.
Hypothesis proj_sent : forall f w, proj (setSent f w) = proj w.
Hypothesis proj_console : forall f w, proj (setConsole f w) = proj w.

Lemma keeps_consoleLog line : keeps proj (consoleLog line).
Proof. apply keeps_modify. intros w. apply proj_console. Qed.

Lemma keeps_sendMessage env jid text :
  keeps proj (WhatsApp.sendMessage env jid text).
Proof.
  intros w. unfold WhatsApp.sendMessage.
  destruct (sendFault env jid text); simpl; [reflexivity | apply proj_sent].
Qed.

Lemma keeps_sendToNumber env phone message :
  keeps proj (WhatsApp.sendToNumber env phone message).
Proof.
  unfold WhatsApp.sendToNumber.
  keeps_by ltac:(auto using keeps_consoleLog, keeps_sendMessage).
Qed.

Lemma keeps_sendToGroup env groupId message :
  keeps proj (WhatsApp.sendToGroup env groupId message).
Proof.
  unfold WhatsApp.sendToGroup.
  keeps_by ltac:(auto using keeps_consoleLog, keeps_sendMessage).
Qed.

Lemma keeps_sendNotification env website message :
  keeps proj (Notify.sendNotification env website message).
Proof.
  unfold Notify.sendNotification.
  keeps_by ltac:(auto using keeps_consoleLog, keeps_sendToNumber, keeps_sendToGroup).
Qed.

Lemma keeps_setting_findUnique env key :
  keeps proj (Prisma.setting_findUnique env key).
Proof.
  unfold Prisma.setting_findUnique.
  keeps_by ltac:(apply keeps_call, proj_calls).
Qed.

Lemma keeps_resolveTemplate env tpl key hard :
  keeps proj (Notify.resolveTemplate env tpl key hard).
Proof.
  unfold Notify.resolveTemplate, Notify.getSetting.
  keeps_by ltac:(auto using keeps_setting_findUnique).
Qed.

Lemma keeps_notifyDown env website error code :
  keeps proj (Notify.notifyDown env website error code).
Proof.
  unfold Notify.notifyDown, dateNow.
  keeps_by ltac:(auto using keeps_resolveTemplate, keeps_sendNotification).
Qed.

Lemma keeps_notifyUp env website seconds :
  keeps proj (Notify.notifyUp env website seconds).
Proof.
  unfold Notify.notifyUp, dateNow.
  keeps_by ltac:(auto using keeps_resolveTemplate, keeps_sendNotification).
Qed.

End NotifyFrame.

(** ** The template renderer *)

Section Render.
Import Regex Template.

Lemma replaceAll_match f s key rest :
  matchPlaceholder s = Some (key, rest) ->
  replaceAll f s = f key +:+ replaceAll f rest.
Proof.
  intros H. destruct s as [|c t]; [discriminate|].
  simp replaceAll.
  generalize (inspect (matchPlaceholder (String c t))).
  intros [[[k r]|] Heq]; simp replaceAll; congruence.
Qed.

Lemma replaceAll_literal f c t :
  matchPlaceholder (String c t) = None ->
  replaceAll f (String c t) = String c (replaceAll f t).
Proof.
  intros H. simp replaceAll.
  generalize (inspect (matchPlaceholder (String c t))).
  intros [[[k r]|] Heq]; simp replaceAll; congruence.
Qed.

Lemma spanWord_closed key rest :
  allWord key = true ->
  spanWord (key +:+ String "}" rest) = (key, String "}" rest).
Proof.
  induction key as [|c t IH]; simpl; [reflexivity|].
  intros [Hc Ht]%andb_prop. rewrite Hc, (IH Ht). reflexivity.
Qed.

Lemma spanWord_split s :
  s = fst (spanWord s) +:+ snd (spanWord s)
  /\ allWord (fst (spanWord s)) = true.
Proof.
  induction s as [|c t [IH1 IH2]]; simpl; [split; reflexivity|].
  destruct (isWordChar c) eqn:Hc; simpl; [|split; reflexivity].
  destruct (spanWord t) as [w r]; simpl in *.
  split; [rewrite IH1 at 1; reflexivity | rewrite Hc; exact IH2].
Qed.

Lemma matchPlaceholder_intro key rest :
  isIdentifier key = true ->
  matchPlaceholder (String "{" (key +:+ String "}" rest)) = Some (key, rest).
Proof.
  intros Hk. unfold matchPlaceholder.
  destruct key as [|k ks]; [discriminate|].
  rewrite (spanWord_closed (String k ks) rest Hk). reflexivity.
Qed.

Lemma matchPlaceholder_elim s key rest :
  matchPlaceholder s = Some (key, rest) ->
  s = String "{" (key +:+ String "}" rest) /\ isIdentifier key = true.
Proof.
  destruct s as [|c t]; [discriminate|].
  unfold matchPlaceholder.
  destruct (Ascii.eqb_spec c "{") as [->|Hc].
  - destruct (spanWord_split t) as [Hsplit Hword].
    destruct (spanWord t) as [[|k ks] [|c' r]]; try discriminate.
    simpl in Hsplit, Hword.
    destruct (Ascii.eqb_spec c' "}") as [->|Hc'].
    + intros [= <- <-]. split; [congruence | exact Hword].
    + destruct c' as [[] [] [] [] [] [] [] []]; try discriminate; congruence.
  - destruct c as [[] [] [] [] [] [] [] []]; try discriminate; congruence.
Qed.

Lemma matchPlaceholder_other c t :
  c <> "{"%char -> matchPlaceholder (String c t) = None.
Proof.
  intros Hc.
  destruct c as [[] [] [] [] [] [] [] []]; try reflexivity; congruence.
Qed.

(** A well-formed placeholder is replaced by what [vars[key] ?? '']
    gives, and rendering goes on behind it. *)
Lemma renderTemplate_placeholder key rest vars :
  isIdentifier key = true ->
  renderTemplate (String "{" (key +:+ String "}" rest)) vars
  = substitute vars key +:+ renderTemplate rest vars.
Proof.
  intros Hk. unfold renderTemplate.
  apply replaceAll_match, matchPlaceholder_intro, Hk.
Qed.

(** A character that does not start a well-formed placeholder is copied,
    an opening brace included. *)
Lemma renderTemplate_literal c t vars :
  matchPlaceholder (String c t) = None ->
  renderTemplate (String c t) vars = String c (renderTemplate t vars).
Proof. apply replaceAll_literal. Qed.

Lemma renderTemplate_text lit rest vars :
  noBrace lit = true ->
  renderTemplate (lit +:+ rest) vars = lit +:+ renderTemplate rest vars.
Proof.
  induction lit as [|c t IH]; simpl; [reflexivity|].
  intros [Hc Ht]%andb_prop.
  change (renderTemplate (String c (t +:+ rest)) vars
          = String c (t +:+ renderTemplate rest vars)).
  rewrite renderTemplate_literal.
  - rewrite (IH Ht). reflexivity.
  - apply matchPlaceholder_other. intros ->. discriminate.
Qed.

Lemma renderTemplate_empty vars : renderTemplate EmptyString vars = EmptyString.
Proof. reflexivity. Qed.

(** An own property of the variable map is substituted as it is. *)
Lemma substitute_own vars key v :
  vars !! key = Some v -> substitute vars key = v.
Proof. intros H. unfold substitute, Js.getProperty. rewrite H. reflexivity. Qed.

(** An identifier that is neither in the map nor a property name of
    [Object.prototype] renders as the empty string. *)
Lemma substitute_absent vars key :
  vars !! key = None -> Js.objectPrototype key = None ->
  substitute vars key = EmptyString.
Proof.
  intros H Hp. unfold substitute, Js.getProperty. rewrite H, Hp. reflexivity.
Qed.

(** An identifier that is not in the map but names a property of
    [Object.prototype] renders as that property's string conversion. *)
Lemma substitute_inherited vars key v :
  vars !! key = None -> Js.objectPrototype key = Some v ->
  substitute vars key = Js.toString v.
Proof.
  intros H Hp. unfold substitute, Js.getProperty. rewrite H, Hp. reflexivity.
Qed.

End Render.

(** ** The notifier *)

Section Notifier.
Import Notify.

Lemma truthy_Some_nonempty (s : string) :
  Js.truthy (Some s) = true <-> s <> EmptyString.
Proof. destruct s; simpl; split; congruence. Qed.

Lemma truthy_false (o : option string) :
  Js.truthy o = false <-> o = None \/ o = Some EmptyString.
Proof.
  destruct o as [[|c t]|]; simpl; split; try tauto; try congruence.
  intros [H|H]; discriminate.
Qed.

Lemma sendToNumber_cases env phone message w :
  WhatsApp.sendToNumber env phone message w
  = if connected w
    then WhatsApp.sendMessage env
           (WhatsApp.digitsOnly phone +:+ "@s.whatsapp.net") message w
    else (Ok tt, setConsole (fun c => c ++ [WhatsApp.notConnected]) w).
Proof.
  unfold WhatsApp.sendToNumber, bind, gets. destruct (connected w); reflexivity.
Qed.

Lemma sendToGroup_cases env groupId message w :
  WhatsApp.sendToGroup env groupId message w
  = if connected w
    then WhatsApp.sendMessage env groupId message w
    else (Ok tt, setConsole (fun c => c ++ [WhatsApp.notConnected]) w).
Proof.
  unfold WhatsApp.sendToGroup, bind, gets. destruct (connected w); reflexivity.
Qed.

(** Every run of [sendNotification], case by case. *)
Lemma sendNotification_cases env website message w :
  sendNotification env website message w =
  (Ok tt,
   if Js.truthy (Some (Website.notifyTarget website)) then
     if connected w then
       if sendFault env (recipient website) message
       then setConsole (fun c => c ++ [failedLine website WhatsApp.sockError]) w
       else setConsole (fun c => c ++ [sentLine website])
              (setSent (fun l => l ++ [(recipient website, message)]) w)
     else setConsole (fun c => c ++ [sentLine website])
            (setConsole (fun c => c ++ [WhatsApp.notConnected]) w)
   else setConsole (fun c => c ++ [sentLine website]) w).
Proof.
  unfold sendNotification, tryCatch, bind, recipient.
  destruct (bool_decide (Website.notifyType website = "group"));
    destruct (Js.truthy (Some (Website.notifyTarget website))); simpl;
    rewrite ?sendToGroup_cases, ?sendToNumber_cases;
    try reflexivity;
    destruct (connected w); try reflexivity;
    unfold WhatsApp.sendMessage;
    match goal with |- context [sendFault ?e ?j ?m] =>
      destruct (sendFault e j m) end; reflexivity.
Qed.

Lemma sendNotification_Ok env website message w :
  fst (sendNotification env website message w) = Ok tt.
Proof. rewrite sendNotification_cases. reflexivity. Qed.

(** [resolveTemplate], case by case. *)
Lemma resolveTemplate_cases env tpl key hard w :
  resolveTemplate env tpl key hard w =
  if Js.truthy tpl then (Ok (default EmptyString tpl), w)
  else if dbFault env (dbCalls w)
  then (Throw Prisma.requestError, setDbCalls (S (dbCalls w)) w)
  else (Ok (if Js.truthy (settings w !! key)
            then default EmptyString (settings w !! key)
            else hard),
        setDbCalls (S (dbCalls w)) w).
Proof.
  unfold resolveTemplate. destruct (Js.truthy tpl); [reflexivity|].
  unfold bind, getSetting, Prisma.setting_findUnique, bind, Prisma.call.
  destruct (dbFault env (dbCalls w)); [reflexivity|]. simpl.
  destruct (Js.truthy (settings w !! key)); reflexivity.
Qed.

Lemma notifyDown_Throw env website error code w e w' :
  notifyDown env website error code w = (Throw e, w') ->
  Js.truthy (Website.downTemplate website) = false
  /\ dbFault env (dbCalls w) = true
  /\ w' = setDbCalls (S (dbCalls w)) w.
Proof.
  unfold notifyDown, dateNow. unfold bind at 1. simpl.
  unfold bind. rewrite resolveTemplate_cases.
  destruct (Js.truthy (Website.downTemplate website)).
  - rewrite sendNotification_cases. discriminate.
  - destruct (dbFault env (dbCalls w)).
    + intros [= <- <-]. auto.
    + rewrite sendNotification_cases. discriminate.
Qed.

Lemma notifyUp_Throw env website seconds w e w' :
  notifyUp env website seconds w = (Throw e, w') ->
  Js.truthy (Website.upTemplate website) = false
  /\ dbFault env (dbCalls w) = true
  /\ w' = setDbCalls (S (dbCalls w)) w.
Proof.
  unfold notifyUp, dateNow. unfold bind at 1. simpl.
  unfold bind. rewrite resolveTemplate_cases.
  destruct (Js.truthy (Website.upTemplate website)).
  - rewrite sendNotification_cases. discriminate.
  - destruct (dbFault env (dbCalls w)).
    + intros [= <- <-]. auto.
    + rewrite sendNotification_cases. discriminate.
Qed.

End Notifier.

(** ** The check cycle, run symbolically *)

Section Cycle.
Import Monitor.

Lemma probe_run env website w :
  probe env website w
  = (Ok (probeResult env website), probed env website w).
Proof.
  unfold probe, probeResult, probed, probedLoop, abortLeft, elapsed,
    tryCatch, bind, dateNow, gets, fetch, setTimeout, clearTimeout, modify,
    settle, timedOut, ret.
  simpl.
  destruct (15000 <=? Z.of_N (hostLatency env (Website.url website))); simpl.
  - unfold setNow, setEventLoop, setNextHandle. simpl.
    rewrite !delete_insert_eq.
    replace (now w + 15000 - now w) with 15000 by lia. reflexivity.
  - destruct (hostReply env (Website.url website)) as [st|n m]; simpl;
      unfold setNow, setEventLoop, setNextHandle; simpl.
    + rewrite delete_insert_eq.
      replace (now w + Z.of_N (hostLatency env (Website.url website)) - now w)
        with (Z.of_N (hostLatency env (Website.url website))) by lia.
      destruct (st <? 400); reflexivity.
    + replace (now w + Z.of_N (hostLatency env (Website.url website)) - now w)
        with (Z.of_N (hostLatency env (Website.url website))) by lia.
      reflexivity.
Qed.

Lemma elapsed_nonneg env website : 0 <= elapsed env website.
Proof.
  unfold elapsed, settle.
  destruct (15000 <=? _); simpl; [lia|].
  destruct (hostReply env _); simpl; lia.
Qed.

Lemma website_findUnique_run env id w :
  Prisma.website_findUnique env id w
  = if dbFault env (dbCalls w)
    then (Throw Prisma.requestError, setDbCalls (S (dbCalls w)) w)
    else (Ok (websites w !! id), setDbCalls (S (dbCalls w)) w).
Proof.
  unfold Prisma.website_findUnique, bind, Prisma.call, gets.
  destruct (dbFault env (dbCalls w)); reflexivity.
Qed.

Lemma check_create_run env id st code ms msg w :
  Prisma.check_create env id st code ms msg w
  = if dbFault env (dbCalls w)
    then (Throw Prisma.requestError, setDbCalls (S (dbCalls w)) w)
    else (Ok tt,
          setChecks (fun l => l ++ [Prisma.newCheck id st code ms msg (now w)])
            (setDbCalls (S (dbCalls w)) w)).
Proof.
  unfold Prisma.check_create, bind, Prisma.call, dateNow, gets, modify.
  destruct (dbFault env (dbCalls w)); reflexivity.
Qed.

Lemma website_update_run env id st t ms w r :
  websites w !! id = Some r ->
  Prisma.website_update env id st t ms w
  = if dbFault env (dbCalls w)
    then (Throw Prisma.requestError, setDbCalls (S (dbCalls w)) w)
    else (Ok tt,
          setWebsites <[id := Prisma.touched r st t ms]>
            (setDbCalls (S (dbCalls w)) w)).
Proof.
  intros Hr.
  unfold Prisma.website_update, bind, Prisma.call, gets, modify.
  destruct (dbFault env (dbCalls w)); [reflexivity|]. simpl.
  rewrite Hr. reflexivity.
Qed.

Lemma performCheck_cases env id w :
  performCheck env id w =
  if dbFault env (dbCalls w)
  then (Throw Prisma.requestError, setDbCalls (1 + dbCalls w) w)
  else
    match websites w !! id with
    | None => (Ok tt, setDbCalls (1 + dbCalls w) w)
    | Some site =>
        let t := now w + elapsed env site in
        let r := probeResult env site in
        if dbFault env (1 + dbCalls w)
        then (Throw Prisma.requestError,
              setDbCalls (2 + dbCalls w) (probed env site w))
        else if dbFault env (2 + dbCalls w)
        then (Throw Prisma.requestError,
              setChecks (fun l => l ++
                [Prisma.newCheck id (status r) (statusCode r)
                   (responseTime r) (errorMessage r) t])
                (setDbCalls (3 + dbCalls w) (probed env site w)))
        else stateChange env id site r (recorded env id site w)
    end.
Proof.
  unfold performCheck. unfold bind at 1. rewrite website_findUnique_run.
  destruct (dbFault env (dbCalls w)) eqn:F0; [reflexivity|].
  destruct (websites w !! id) as [site|] eqn:Hsite; [|reflexivity].
  unfold bind at 1. rewrite probe_run.
  unfold bind at 1. rewrite check_create_run. simpl.
  destruct (dbFault env (S (dbCalls w))) eqn:F1; [reflexivity|].
  unfold bind at 1. unfold dateNow, gets. simpl.
  unfold bind at 1.
  erewrite website_update_run by (simpl; exact Hsite). simpl.
  destruct (dbFault env (S (S (dbCalls w)))) eqn:F2; reflexivity.
Qed.

Lemma stateChange_quiet env id site r w :
  ~ (Website.lastStatus site = "up" /\ status r = down) ->
  ~ (Website.lastStatus site = "down" /\ status r = up) ->
  stateChange env id site r w = (Ok tt, w).
Proof.
  intros H1 H2. unfold stateChange.
  repeat case_bool_decide; simpl; try reflexivity; tauto.
Qed.

Lemma stateChange_went_down env id site r w :
  Website.lastStatus site = "up" -> status r = down ->
  stateChange env id site r w =
  let w1 := setConsole (fun c => c ++ [wentDownLine site (errorMessage r)]) w in
  if dbFault env (dbCalls w)
  then (Throw Prisma.requestError, setDbCalls (1 + dbCalls w) w1)
  else
    let w2 := setDbCalls (2 + dbCalls w) (opened id w1) in
    if dbFault env (1 + dbCalls w) then (Throw Prisma.requestError, w2)
    else
      match websites w !! id with
      | Some fresh =>
          Notify.notifyDown env fresh (orUnknown (errorMessage r))
            (statusCode r) w2
      | None => (Ok tt, w2)
      end.
Proof.
  intros Hprev Hst. unfold stateChange.
  rewrite Hprev, Hst. simpl.
  unfold bind at 1. unfold consoleLog at 1, modify.
  unfold bind at 1.
  unfold Prisma.incident_create, bind, Prisma.call, dateNow, gets, modify.
  simpl.
  destruct (dbFault env (dbCalls w)) eqn:F0; [reflexivity|]. simpl.
  rewrite website_findUnique_run. simpl.
  destruct (dbFault env (S (dbCalls w))) eqn:F1; [reflexivity|].
  simpl. destruct (websites w !! id); reflexivity.
Qed.

Lemma mostRecent_In l i : Prisma.mostRecent l = Some i -> In i l.
Proof.
  revert i. induction l as [|a l IH]; simpl; [discriminate|].
  intros i. destruct (Prisma.mostRecent l) as [j|].
  - destruct (Incident.startedAt a <? Incident.startedAt j);
      intros [= <-]; auto.
  - intros [= <-]. auto.
Qed.

Lemma mostRecent_None l : Prisma.mostRecent l = None <-> l = [].
Proof.
  destruct l as [|a l]; simpl; [tauto|].
  split; [|discriminate].
  destruct (Prisma.mostRecent l) as [j|]; [|discriminate].
  destruct (_ <? _); discriminate.
Qed.


Lemma findFirst_open id l i :
  Prisma.mostRecent (List.filter (Incident.isOpenFor id) l) = Some i ->
  In i l /\ Incident.isOpenFor id i = true.
Proof. intros H%mostRecent_In. apply filter_In in H. exact H. Qed.

Lemma existsb_id l (i : Incident.t) :
  In i l ->
  existsb (fun j => bool_decide (Incident.id j = Incident.id i)) l = true.
Proof.
  intros Hi. apply existsb_exists. exists i. split; [exact Hi|].
  apply bool_decide_eq_true. reflexivity.
Qed.

Lemma stateChange_back_up env id site r w :
  Website.lastStatus site = "down" -> status r = up ->
  stateChange env id site r w =
  let w1 := setConsole (fun c => c ++ [backUpLine site]) w in
  if dbFault env (dbCalls w)
  then (Throw Prisma.requestError, setDbCalls (1 + dbCalls w) w1)
  else
    match Prisma.mostRecent
            (List.filter (Incident.isOpenFor id) (incidents w)) with
    | None => (Ok tt, setDbCalls (1 + dbCalls w) w1)
    | Some openIncident =>
        let duration := (now w - Incident.startedAt openIncident) / 1000 in
        if dbFault env (1 + dbCalls w)
        then (Throw Prisma.requestError, setDbCalls (2 + dbCalls w) w1)
        else
          let w2 :=
            setIncidents
              (map (Prisma.resolveRow (Incident.id openIncident) (now w)
                      duration))
              w1 in
          if dbFault env (2 + dbCalls w)
          then (Throw Prisma.requestError, setDbCalls (3 + dbCalls w) w2)
          else
            match websites w !! id with
            | Some fresh =>
                Notify.notifyUp env fresh duration
                  (setDbCalls (3 + dbCalls w) w2)
            | None => (Ok tt, setDbCalls (3 + dbCalls w) w2)
            end
    end.
Proof.
  intros Hprev Hst. unfold stateChange.
  rewrite Hprev, Hst. simpl.
  unfold bind at 1. unfold consoleLog at 1, modify.
  unfold bind at 1.
  unfold Prisma.incident_findFirst, bind at 1, Prisma.call, gets. simpl.
  destruct (dbFault env (dbCalls w)) eqn:F0; [reflexivity|]. simpl.
  destruct (Prisma.mostRecent _) as [inc|] eqn:Hinc; [|reflexivity].
  apply findFirst_open in Hinc as [Hin Hopen].
  unfold bind at 1. unfold dateNow at 1, gets. simpl.
  unfold bind at 1. unfold dateNow at 1, gets. simpl.
  unfold bind at 1.
  unfold Prisma.incident_update, bind at 1, Prisma.call. simpl.
  destruct (dbFault env (S (dbCalls w))) eqn:F1; [reflexivity|]. simpl.
  unfold bind at 1, gets. simpl.
  rewrite (existsb_id _ _ Hin). unfold modify. simpl.
  unfold bind at 1. rewrite website_findUnique_run. simpl.
  destruct (dbFault env (S (S (dbCalls w)))) eqn:F2; [reflexivity|].
  simpl. destruct (websites w !! id); reflexivity.
Qed.

End Cycle.

(** ** Open incidents *)

Section OpenIncidents.
Import Monitor.

Lemma openCount_app site l l' :
  openCount site (l ++ l') = (openCount site l + openCount site l')%nat.
Proof. unfold openCount. rewrite List.filter_app, length_app. reflexivity. Qed.

Lemma openCount_new site n id flag t :
  openCount site [Prisma.newIncident n id flag t]
  = if bool_decide (id = site) then 1%nat else 0%nat.
Proof.
  unfold openCount, Incident.isOpenFor. simpl.
  case_bool_decide; reflexivity.
Qed.

Lemma resolveRow_cases site id t d i :
  (Incident.id i = id
   /\ Incident.isOpenFor site (Prisma.resolveRow id t d i) = false)
  \/ (Incident.id i <> id /\ Prisma.resolveRow id t d i = i).
Proof.
  unfold Prisma.resolveRow. case_bool_decide as Hid; [left|right; tauto].
  split; [exact Hid|]. unfold Incident.isOpenFor. simpl.
  apply andb_false_r.
Qed.

Lemma openCount_cons site i l :
  openCount site (i :: l)
  = ((if Incident.isOpenFor site i then 1 else 0) + openCount site l)%nat.
Proof. unfold openCount. simpl. destruct (Incident.isOpenFor site i); reflexivity. Qed.

(** Resolving never opens an incident. *)
Lemma openCount_resolve_le site id t d l :
  (openCount site (map (Prisma.resolveRow id t d) l) <= openCount site l)%nat.
Proof.
  induction l as [|a l IH]; simpl; [lia|].
  rewrite !openCount_cons.
  destruct (resolveRow_cases site id t d a) as [[_ ->]|[_ ->]];
    destruct (Incident.isOpenFor site a); lia.
Qed.

(** Resolving an open incident of the site closes at least that one. *)
Lemma openCount_resolve_lt site t d l inc :
  In inc l -> Incident.isOpenFor site inc = true ->
  (openCount site (map (Prisma.resolveRow (Incident.id inc) t d) l)
   < openCount site l)%nat.
Proof.
  intros Hin Hopen. induction l as [|a l IH]; [destruct Hin|].
  simpl. rewrite !openCount_cons.
  destruct Hin as [->|Hin].
  - pose proof (openCount_resolve_le site (Incident.id inc) t d l).
    destruct (resolveRow_cases site (Incident.id inc) t d inc)
      as [[_ ->]|[Hne _]]; [|congruence].
    rewrite Hopen. lia.
  - specialize (IH Hin).
    destruct (resolveRow_cases site (Incident.id inc) t d a)
      as [[_ ->]|[_ ->]];
      destruct (Incident.isOpenFor site a); lia.
Qed.

End OpenIncidents.

(** ** Frames of the check cycle *)

(** State change detection touches the call counter, the incident table,
    the sent messages and the console, and nothing else. *)
Section StateChangeFrame.
Context {B : Type} (proj : World -> B).
Hypothesis proj_calls : forall n w, proj (setDbCalls n w) = proj w.
Hypothesis proj_sent : forall f w, proj (setSent f w) = proj w.
Hypothesis proj_console : forall f w, proj (setConsole f w) = proj w.
Hypothesis proj_incidents : forall f w, proj (setIncidents f w) = proj w.
Hypothesis proj_nextId : forall n w, proj (setNextIncidentId n w) = proj w.

Lemma keeps_website_findUnique env id :
  keeps proj (Prisma.website_findUnique env id).
Proof.
  unfold Prisma.website_findUnique.
  keeps_by ltac:(apply keeps_call, proj_calls).
Qed.

Lemma keeps_incident_create env id flag :
  keeps proj (Prisma.incident_create env id flag).
Proof.
  unfold Prisma.incident_create, dateNow.
  keeps_by ltac:(first
    [ apply keeps_call, proj_calls
    | apply keeps_modify; intros w; rewrite proj_nextId; apply proj_incidents ]).
Qed.

Lemma keeps_incident_findFirst env id :
  keeps proj (Prisma.incident_findFirst env id).
Proof.
  unfold Prisma.incident_findFirst.
  keeps_by ltac:(apply keeps_call, proj_calls).
Qed.

Lemma keeps_incident_update env id t d :
  keeps proj (Prisma.incident_update env id t d).
Proof.
  unfold Prisma.incident_update.
  keeps_by ltac:(first
    [ apply keeps_call, proj_calls
    | apply keeps_modify; intros w; apply proj_incidents ]).
Qed.

Lemma keeps_stateChange env id site r :
  keeps proj (Monitor.stateChange env id site r).
Proof.
  unfold Monitor.stateChange, dateNow.
  keeps_by ltac:(first
    [ apply keeps_consoleLog, proj_console
    | apply keeps_incident_create
    | apply keeps_incident_findFirst
    | apply keeps_incident_update
    | apply keeps_website_findUnique
    | apply keeps_notifyDown; assumption
    | apply keeps_notifyUp; assumption ]).
Qed.

End StateChangeFrame.

(** A whole check moreover touches the clock, the Check table and the
    site's row. *)
Section PerformCheckFrame.
Context {B : Type} (proj : World -> B).
Hypothesis proj_calls : forall n w, proj (setDbCalls n w) = proj w.
Hypothesis proj_sent : forall f w, proj (setSent f w) = proj w.
Hypothesis proj_console : forall f w, proj (setConsole f w) = proj w.
Hypothesis proj_incidents : forall f w, proj (setIncidents f w) = proj w.
Hypothesis proj_nextId : forall n w, proj (setNextIncidentId n w) = proj w.
Hypothesis proj_now : forall t w, proj (setNow t w) = proj w.
Hypothesis proj_checks : forall f w, proj (setChecks f w) = proj w.
Hypothesis proj_websites : forall f w, proj (setWebsites f w) = proj w.
Hypothesis proj_loop : forall f w, proj (setEventLoop f w) = proj w.
Hypothesis proj_handle : forall n w, proj (setNextHandle n w) = proj w.

Lemma keeps_setTimeout callback delay :
  keeps proj (Monitor.setTimeout callback delay).
Proof.
  intros w. unfold Monitor.setTimeout, bind, gets, modify. simpl.
  rewrite proj_handle. apply proj_loop.
Qed.

Lemma keeps_clearTimeout handle : keeps proj (Monitor.clearTimeout handle).
Proof. apply keeps_modify. intros w. apply proj_loop. Qed.

Lemma keeps_fetch env url timeout :
  keeps proj (Monitor.fetch env url timeout).
Proof.
  intros w. unfold Monitor.fetch.
  destruct (Monitor.settle env url) as [r dt]. simpl. rewrite proj_now.
  destruct (Monitor.timedOut env url); [apply proj_loop|reflexivity].
Qed.

Lemma keeps_probe env website : keeps proj (Monitor.probe env website).
Proof.
  unfold Monitor.probe, dateNow.
  keeps_by ltac:(first [ apply keeps_fetch | apply keeps_setTimeout
                       | apply keeps_clearTimeout ]).
Qed.

Lemma keeps_check_create env id st code ms msg :
  keeps proj (Prisma.check_create env id st code ms msg).
Proof.
  unfold Prisma.check_create, dateNow.
  keeps_by ltac:(first
    [ apply keeps_call, proj_calls
    | apply keeps_modify; intros w; apply proj_checks ]).
Qed.

Lemma keeps_website_update env id st t ms :
  keeps proj (Prisma.website_update env id st t ms).
Proof.
  unfold Prisma.website_update.
  keeps_by ltac:(first
    [ apply keeps_call, proj_calls
    | apply keeps_modify; intros w; apply proj_websites ]).
Qed.

Lemma keeps_performCheck env id : keeps proj (Monitor.performCheck env id).
Proof.
  unfold Monitor.performCheck, dateNow.
  keeps_by ltac:(first
    [ apply keeps_website_findUnique; assumption
    | apply keeps_probe
    | apply keeps_check_create
    | apply keeps_website_update
    | apply keeps_stateChange; assumption ]).
Qed.

End PerformCheckFrame.

(** * Main results *)

Section Claims.
Import Regex Template Notify Monitor.

(** C9. For a whole number of seconds [n >= 0], [formatDuration n] is
    ["<n>s"] below 60; ["<m>m <s>s"] below 3600, with the seconds left out
    when they are zero; and ["<h>h <m>m"] from 3600 on, with the minutes
    left out when they are zero.  [formatDuration 125] is ["2m 5s"]. *)
Theorem formatDuration_spec (n : Z) :
  0 <= n ->
  (n < 60 ->
   Utils.formatDuration n = Utils.numberToString n +:+ "s")
  /\ (60 <= n < 3600 ->
      Utils.formatDuration n =
      if decide (n mod 60 = 0)
      then Utils.numberToString (n / 60) +:+ "m"
      else Utils.numberToString (n / 60) +:+ "m "
             +:+ Utils.numberToString (n mod 60) +:+ "s")
  /\ (3600 <= n ->
      Utils.formatDuration n =
      if decide (n mod 3600 / 60 = 0)
      then Utils.numberToString (n / 3600) +:+ "h"
      else Utils.numberToString (n / 3600) +:+ "h "
             +:+ Utils.numberToString (n mod 3600 / 60) +:+ "m")
  /\ Utils.formatDuration 125 = "2m 5s".
Proof.
  intros Hn. unfold Utils.formatDuration.
  rewrite !Z.rem_mod_nonneg by lia.
  repeat split.
  - intros H. destruct (Z.ltb_spec n 60); [reflexivity | lia].
  - intros H.
    destruct (Z.ltb_spec n 60); [lia|].
    destruct (Z.ltb_spec n 3600); [|lia].
    pose proof (Z.mod_pos_bound n 60 ltac:(lia)).
    destruct (Z.ltb_spec 0 (n mod 60)); case_decide; try reflexivity; lia.
  - intros H.
    destruct (Z.ltb_spec n 60); [lia|].
    destruct (Z.ltb_spec n 3600); [lia|].
    pose proof (Z.mod_pos_bound n 3600 ltac:(lia)).
    assert (0 <= n mod 3600 / 60) by (apply Z.div_pos; lia).
    destruct (Z.ltb_spec 0 (n mod 3600 / 60)); case_decide;
      try reflexivity; lia.
Qed.

Lemma formatDuration_spec_witness :
  0 <= 3725 /\ Utils.formatDuration 3725 = "1h 2m".
Proof.
  split; [lia|].
  destruct (formatDuration_spec 3725 ltac:(lia)) as (_ & _ & H & _).
  rewrite H by lia. reflexivity.
Defined.

(** C4, at an input where the code departs from it: a placeholder whose
    identifier is not in the variable map but names a property that every
    object inherits is not replaced by the empty string. *)
Theorem renderTemplate_inherited_key :
  renderTemplate "{name}: {constructor}"
    (downVars Sample.site "HTTP 500" (Some 500) "now")
  = "Homepage: function Object() { [native code] }"
  /\ downVars Sample.site "HTTP 500" (Some 500) "now" !! "constructor" = None.
Proof. split; reflexivity. Qed.

(** What does hold of the renderer, for every template and variable map:
    a well-formed placeholder is replaced by the map's value for its
    identifier, or by the empty string when the identifier is neither in
    the map nor an inherited property name; everything else is copied
    character by character, malformed and unclosed placeholders
    included. *)
Lemma renderTemplate_contract vars :
  (forall key rest v,
     isIdentifier key = true -> vars !! key = Some v ->
     renderTemplate (String "{" (key +:+ String "}" rest)) vars
     = v +:+ renderTemplate rest vars)
  /\ (forall key rest,
        isIdentifier key = true -> vars !! key = None ->
        Js.objectPrototype key = None ->
        renderTemplate (String "{" (key +:+ String "}" rest)) vars
        = renderTemplate rest vars)
  /\ (forall c t,
        matchPlaceholder (String c t) = None ->
        renderTemplate (String c t) vars = String c (renderTemplate t vars))
  /\ renderTemplate EmptyString vars = EmptyString.
Proof.
  split; [|split; [|split]].
  - intros key rest v Hk Hv.
    rewrite renderTemplate_placeholder by exact Hk.
    rewrite (substitute_own _ _ _ Hv). reflexivity.
  - intros key rest Hk Hv Hp.
    rewrite renderTemplate_placeholder by exact Hk.
    rewrite (substitute_absent _ _ Hv Hp). reflexivity.
  - intros c t. apply renderTemplate_literal.
  - reflexivity.
Qed.

(** C5 as stated fails where the global setting is present but empty: the
    settings page stores the empty string for a template left blank, and
    resolution then falls through to the built-in text instead of
    returning the setting. *)
Lemma resolveTemplate_empty_setting :
  let w := mkWorld ∅ [] [] {["defaultDownTemplate" := EmptyString]} 0 0 0
             ∅ ∅ 0 true [] [] in
  settings w !! "defaultDownTemplate" = Some EmptyString
  /\ fst (resolveTemplate (Sample.env (Response 200) Sample.noFault false)
            None "defaultDownTemplate" DEFAULT_DOWN_TEMPLATE w)
     = Ok DEFAULT_DOWN_TEMPLATE
  /\ DEFAULT_DOWN_TEMPLATE <> EmptyString.
Proof. repeat split. discriminate. Qed.

(** C5, amended.  Template resolution returns exactly one of three texts:
    the site's own template when it is non-empty; otherwise the global
    setting for the event kind when it is present and non-empty; otherwise
    the built-in text, verbatim.  (The setting is read from storage only in
    the last two cases; the read must not fail.) *)
Theorem resolveTemplate_precedence env websiteTemplate settingKey
  hardcodedDefault w :
  let r := resolveTemplate env websiteTemplate settingKey hardcodedDefault w in
  (forall t, websiteTemplate = Some t -> t <> EmptyString -> fst r = Ok t)
  /\ (Js.truthy websiteTemplate = false ->
      dbFault env (dbCalls w) = false ->
      (forall v, settings w !! settingKey = Some v -> v <> EmptyString ->
                 fst r = Ok v)
      /\ (settings w !! settingKey = None
          \/ settings w !! settingKey = Some EmptyString ->
          fst r = Ok hardcodedDefault)).
Proof.
  intros r. subst r. rewrite resolveTemplate_cases. split.
  - intros t -> Ht. apply truthy_Some_nonempty in Ht. rewrite Ht. reflexivity.
  - intros -> ->. split.
    + intros v -> Hv. apply truthy_Some_nonempty in Hv. rewrite Hv.
      reflexivity.
    + intros H. apply truthy_false in H. rewrite H. reflexivity.
Qed.

Lemma resolveTemplate_precedence_witness :
  fst (resolveTemplate (Sample.env (Response 200) Sample.noFault false)
         None "defaultDownTemplate" DEFAULT_DOWN_TEMPLATE
         (Sample.world Sample.site [] 0))
  = Ok DEFAULT_DOWN_TEMPLATE.
Proof.
  apply (resolveTemplate_precedence
           (Sample.env (Response 200) Sample.noFault false)
           None "defaultDownTemplate" DEFAULT_DOWN_TEMPLATE
           (Sample.world Sample.site [] 0)).
  - reflexivity.
  - reflexivity.
  - left. reflexivity.
Defined.

Lemma notifyDown_run env website error code w :
  notifyDown env website error code w =
  match resolveTemplate env (Website.downTemplate website)
          "defaultDownTemplate" DEFAULT_DOWN_TEMPLATE w with
  | (Ok template, w1) =>
      sendNotification env website
        (renderTemplate template
           (downVars website error code (toLocaleString env (now w)))) w1
  | (Throw e, w1) => (Throw e, w1)
  end.
Proof. reflexivity. Qed.

Lemma notifyUp_run env website seconds w :
  notifyUp env website seconds w =
  match resolveTemplate env (Website.upTemplate website)
          "defaultUpTemplate" DEFAULT_UP_TEMPLATE w with
  | (Ok template, w1) =>
      sendNotification env website
        (renderTemplate template
           (upVars website seconds (toLocaleString env (now w)))) w1
  | (Throw e, w1) => (Throw e, w1)
  end.
Proof. reflexivity. Qed.

Lemma sendNotification_no_target env website message w :
  Website.notifyTarget website = EmptyString ->
  sendNotification env website message w
  = (Ok tt, setConsole (fun c => c ++ [sentLine website]) w).
Proof.
  intros H. rewrite sendNotification_cases, H. reflexivity.
Qed.

Lemma notifyDown_no_target env website error code w :
  Website.notifyTarget website = EmptyString ->
  sent (snd (notifyDown env website error code w)) = sent w.
Proof.
  intros H. rewrite notifyDown_run, resolveTemplate_cases.
  destruct (Js.truthy _); [|destruct (dbFault _ _)];
    rewrite ?sendNotification_no_target by exact H; reflexivity.
Qed.

Lemma notifyUp_no_target env website seconds w :
  Website.notifyTarget website = EmptyString ->
  sent (snd (notifyUp env website seconds w)) = sent w.
Proof.
  intros H. rewrite notifyUp_run, resolveTemplate_cases.
  destruct (Js.truthy _); [|destruct (dbFault _ _)];
    rewrite ?sendNotification_no_target by exact H; reflexivity.
Qed.

(** C8. [notifyDown] and [notifyUp] never pass a failure of the send
    collaborator on to their caller: if one of them throws, it is the read
    of the global setting that failed, before anything was sent; a send
    that fails is caught and logged; and for a site without a recipient
    target nothing is sent and nothing fails. *)
Theorem notify_contains_send_failure env website w :
  (forall error code e w',
     notifyDown env website error code w = (Throw e, w') ->
     dbFault env (dbCalls w) = true /\ sent w' = sent w)
  /\ (forall seconds e w',
        notifyUp env website seconds w = (Throw e, w') ->
        dbFault env (dbCalls w) = true /\ sent w' = sent w)
  /\ (forall message,
        Website.notifyTarget website <> EmptyString ->
        connected w = true ->
        sendFault env (recipient website) message = true ->
        sendNotification env website message w
        = (Ok tt,
           setConsole
             (fun c => c ++ [failedLine website WhatsApp.sockError]) w))
  /\ (Website.notifyTarget website = EmptyString ->
      (forall message,
         sendNotification env website message w
         = (Ok tt, setConsole (fun c => c ++ [sentLine website]) w))
      /\ (forall error code,
            sent (snd (notifyDown env website error code w)) = sent w)
      /\ (forall seconds,
            sent (snd (notifyUp env website seconds w)) = sent w)).
Proof.
  repeat split.
  - apply notifyDown_Throw in H. tauto.
  - apply notifyDown_Throw in H as (_ & _ & ->). reflexivity.
  - apply notifyUp_Throw in H. tauto.
  - apply notifyUp_Throw in H as (_ & _ & ->). reflexivity.
  - intros message Ht Hc Hf. rewrite sendNotification_cases.
    apply truthy_Some_nonempty in Ht. rewrite Ht, Hc, Hf. reflexivity.
  - intros message. apply sendNotification_no_target, H.
  - intros error code. apply notifyDown_no_target, H.
  - intros seconds. apply notifyUp_no_target, H.
Qed.

Lemma notify_contains_send_failure_witness :
  sendNotification (Sample.env (Response 500) Sample.noFault true)
    Sample.site "text" (Sample.world Sample.site [] 0)
  = (Ok tt,
     setConsole
       (fun c => c ++ [failedLine Sample.site WhatsApp.sockError])
       (Sample.world Sample.site [] 0)).
Proof.
  apply (notify_contains_send_failure
           (Sample.env (Response 500) Sample.noFault true)
           Sample.site (Sample.world Sample.site [] 0)).
  - discriminate.
  - reflexivity.
  - reflexivity.
Defined.

(** The Check row a completed probe leaves behind. *)
Lemma performCheck_check env id site w :
  websites w !! id = Some site ->
  dbFault env (dbCalls w) = false ->
  dbFault env (1 + dbCalls w) = false ->
  let r := probeResult env site in
  checks (snd (performCheck env id w))
  = checks w ++ [Prisma.newCheck id (status r) (statusCode r)
                   (responseTime r) (errorMessage r)
                   (now w + elapsed env site)].
Proof.
  intros Hsite F0 F1 r. rewrite performCheck_cases, F0, Hsite.
  cbv zeta. rewrite F1.
  destruct (dbFault env (2 + dbCalls w)); [reflexivity|].
  rewrite keeps_stateChange by reflexivity. reflexivity.
Qed.

(** C2. The Check row [performCheck] records classifies the probe: a
    response with status below 400 is up; a response with status 400 or
    more is down, with the code and the message ["HTTP <code>"]; a request
    the 15 s timer aborted is down, without a code, with the message
    ["Timeout (15s)"]; any other network failure is down, without a code,
    with the transport's own error message. *)
Theorem performCheck_classification env id site w :
  websites w !! id = Some site ->
  dbFault env (dbCalls w) = false ->
  dbFault env (1 + dbCalls w) = false ->
  exists c,
    checks (snd (performCheck env id w)) = checks w ++ [c]
    /\ Check.websiteId c = id
    /\ let latency := Z.of_N (hostLatency env (Website.url site)) in
       let reply := hostReply env (Website.url site) in
       (forall st, latency < 15000 -> reply = Response st -> st < 400 ->
          Check.status c = up /\ Check.statusCode c = Some st
          /\ Check.errorMessage c = None)
       /\ (forall st, latency < 15000 -> reply = Response st -> 400 <= st ->
             Check.status c = down /\ Check.statusCode c = Some st
             /\ Check.errorMessage c
                = Some ("HTTP " +:+ Utils.numberToString st))
       /\ (15000 <= latency ->
           Check.status c = down /\ Check.statusCode c = None
           /\ Check.errorMessage c = Some "Timeout (15s)")
       /\ (forall name message, latency < 15000 ->
             reply = NetworkError name message -> name <> "AbortError" ->
             Check.status c = down /\ Check.statusCode c = None
             /\ Check.errorMessage c = Some message).
Proof.
  intros Hsite F0 F1. eexists. split; [|split].
  - apply (performCheck_check env id site w Hsite F0 F1).
  - reflexivity.
  - cbv zeta. unfold probeResult, settle. simpl.
    split; [|split; [|split]].
    + intros st Hlat Hrep Hst.
      destruct (Z.leb_spec 15000
                  (Z.of_N (hostLatency env (Website.url site)))); [lia|].
      rewrite Hrep. simpl.
      destruct (Z.ltb_spec st 400); [auto | lia].
    + intros st Hlat Hrep Hst.
      destruct (Z.leb_spec 15000
                  (Z.of_N (hostLatency env (Website.url site)))); [lia|].
      rewrite Hrep. simpl.
      destruct (Z.ltb_spec st 400); [lia | auto].
    + intros Hlat.
      destruct (Z.leb_spec 15000
                  (Z.of_N (hostLatency env (Website.url site)))); [|lia].
      simpl. auto.
    + intros name message Hlat Hrep Hname.
      destruct (Z.leb_spec 15000
                  (Z.of_N (hostLatency env (Website.url site)))); [lia|].
      rewrite Hrep. simpl.
      rewrite bool_decide_eq_false_2 by exact Hname. auto.
Qed.

Lemma performCheck_classification_witness :
  exists c,
    checks (snd (performCheck
                   (Sample.env (Response 500) Sample.noFault false) "w1"
                   (Sample.world Sample.site [] 1000))) = [c]
    /\ Check.status c = down /\ Check.statusCode c = Some 500
    /\ Check.errorMessage c = Some "HTTP 500".
Proof.
  destruct (performCheck_classification
              (Sample.env (Response 500) Sample.noFault false) "w1"
              Sample.site (Sample.world Sample.site [] 1000))
    as (c & Hc & _ & _ & H & _).
  - reflexivity.
  - reflexivity.
  - reflexivity.
  - exists c. split; [exact Hc|].
    apply (H 500); [reflexivity | reflexivity | lia].
Defined.

Lemma recorded_lookup env id site w :
  websites (recorded env id site w) !! id = Some (refreshed env site w).
Proof. unfold recorded. simpl. apply lookup_insert_eq. Qed.

(** What one check does to the incident table: nothing, or one new open
    incident on up -> down, or the resolution of the most recent open
    incident on down -> up. *)
Lemma performCheck_incidents env id w :
  let w' := snd (performCheck env id w) in
  incidents w' = incidents w
  \/ (exists site,
        websites w !! id = Some site
        /\ Website.lastStatus site = "up"
        /\ status (probeResult env site) = down
        /\ now w' = now w + elapsed env site
        /\ incidents w'
           = incidents w ++ [Prisma.newIncident (nextIncidentId w) id true
                               (now w + elapsed env site)])
  \/ (exists site inc,
        websites w !! id = Some site
        /\ Website.lastStatus site = "down"
        /\ status (probeResult env site) = up
        /\ Prisma.mostRecent
             (List.filter (Incident.isOpenFor id) (incidents w)) = Some inc
        /\ now w' = now w + elapsed env site
        /\ let t := now w + elapsed env site in
           incidents w'
           = map (Prisma.resolveRow (Incident.id inc) t
                    ((t - Incident.startedAt inc) / 1000))
               (incidents w)).
Proof.
  cbv zeta. rewrite performCheck_cases.
  destruct (dbFault env (dbCalls w)); [left; reflexivity|].
  destruct (websites w !! id) as [site|]; [|left; reflexivity].
  cbv zeta.
  destruct (dbFault env (1 + dbCalls w)); [left; reflexivity|].
  destruct (dbFault env (2 + dbCalls w)); [left; reflexivity|].
  set (w3 := recorded env id site w).
  assert (Hfresh : websites w3 !! id = Some (refreshed env site w))
    by apply recorded_lookup.
  assert (Hquiet : forall r,
            ~ (Website.lastStatus site = "up" /\ status r = down) ->
            ~ (Website.lastStatus site = "down" /\ status r = up) ->
            incidents (snd (stateChange env id site r w3)) = incidents w).
  { intros r H1 H2. rewrite stateChange_quiet by assumption. reflexivity. }
  destruct (decide (Website.lastStatus site = "up")) as [Hup|Hnup];
    [|destruct (decide (Website.lastStatus site = "down")) as [Hdn|Hndn]];
    destruct (status (probeResult env site)) eqn:Hst;
    try (left; apply Hquiet; rewrite Hst; intros [? ?]; congruence).
  - rewrite stateChange_went_down by assumption. cbv zeta.
    rewrite Hfresh.
    destruct (dbFault env (dbCalls w3)); [left; reflexivity|].
    right; left. exists site. split; [reflexivity|].
    split; [assumption|]. split; [assumption|].
    destruct (dbFault env (1 + dbCalls w3)); [split; reflexivity|].
    rewrite (keeps_notifyDown now), (keeps_notifyDown incidents)
      by reflexivity.
    split; reflexivity.
  - rewrite stateChange_back_up by assumption. cbv zeta.
    rewrite Hfresh.
    destruct (dbFault env (dbCalls w3)); [left; reflexivity|].
    change (incidents w3) with (incidents w).
    destruct (Prisma.mostRecent _) as [inc|]; [|left; reflexivity].
    destruct (dbFault env (1 + dbCalls w3)); [left; reflexivity|].
    right; right. exists site, inc. split; [reflexivity|].
    split; [assumption|]. split; [assumption|]. split; [reflexivity|].
    destruct (dbFault env (2 + dbCalls w3)); [split; reflexivity|].
    rewrite (keeps_notifyUp now), (keeps_notifyUp incidents) by reflexivity.
    split; reflexivity.
Qed.

(** C1 as stated fails from a state in which the site's last status is up
    while it has one open incident (as happens when a down -> up check
    updated the status and then failed before resolving the incident):
    the next up -> down check opens a second one. *)
Lemma performCheck_second_open_incident :
  let w := Sample.world Sample.site [Sample.openIncident 0 500] 1000 in
  let w' := snd (performCheck
                   (Sample.env (Response 500) Sample.noFault false)
                   "w1" w) in
  openCount "w1" (incidents w) = 1%nat
  /\ openCount "w1" (incidents w') = 2%nat.
Proof. split; reflexivity. Qed.

(** C1, amended.  Starting from a state in which the site has at most one
    open incident, and none while its last status is up, [performCheck]
    leaves at most one open incident for that site and opens none for any
    other site; it creates an incident only on an up -> down transition
    and changes an existing incident only on a down -> up transition. *)
Theorem performCheck_open_incidents env id w :
  (openCount id (incidents w) <= 1)%nat ->
  (forall site, websites w !! id = Some site ->
                Website.lastStatus site = "up" ->
                openCount id (incidents w) = 0%nat) ->
  let w' := snd (performCheck env id w) in
  (openCount id (incidents w') <= 1)%nat
  /\ (forall other, other <> id ->
        (openCount other (incidents w') <= openCount other (incidents w))%nat)
  /\ ((length (incidents w) < length (incidents w'))%nat ->
      exists site, websites w !! id = Some site
                   /\ Website.lastStatus site = "up"
                   /\ status (probeResult env site) = down)
  /\ ((exists i, In i (incidents w) /\ ~ In i (incidents w')) ->
      exists site, websites w !! id = Some site
                   /\ Website.lastStatus site = "down"
                   /\ status (probeResult env site) = up).
Proof.
  intros Hone Hup w'.
  destruct (performCheck_incidents env id w)
    as [Heq | [(site & Hsite & Hprev & Hst & _ & Heq)
              | (site & inc & Hsite & Hprev & Hst & Hinc & _ & Heq)]];
    fold w' in Heq; cbv zeta in Heq; rewrite Heq.
  - repeat split; try lia.
    intros (i & Hi & Hni). contradiction.
  - repeat split.
    + rewrite openCount_app, openCount_new, (Hup site Hsite Hprev).
      case_bool_decide; simpl; lia.
    + intros other Hother. rewrite openCount_app, openCount_new.
      rewrite bool_decide_eq_false_2 by congruence. lia.
    + intros _. exists site. auto.
    + intros (i & Hi & Hni). exfalso. apply Hni, in_or_app. left. exact Hi.
  - repeat split.
    + etransitivity; [apply openCount_resolve_le | exact Hone].
    + intros other _. apply openCount_resolve_le.
    + rewrite length_map. lia.
    + intros _. exists site. auto.
Qed.

Lemma performCheck_open_incidents_witness :
  (openCount "w1"
     (incidents
        (snd (performCheck (Sample.env (Response 200) Sample.noFault false)
                "w1"
                (Sample.world Sample.siteDown [Sample.openIncident 0 500]
                   126000)))) <= 1)%nat.
Proof.
  refine (proj1 (performCheck_open_incidents
           (Sample.env (Response 200) Sample.noFault false) "w1"
           (Sample.world Sample.siteDown [Sample.openIncident 0 500] 126000)
           _ _)).
  - vm_compute. lia.
  - intros site H. vm_compute in H. injection H as <-. discriminate.
Defined.

Lemma noTransition_quiet prev st :
  noTransition prev st ->
  ~ (prev = "up" /\ st = down) /\ ~ (prev = "down" /\ st = up).
Proof.
  intros [-> | [Hu Hd]]; split; intros [H1 H2]; subst;
    try discriminate; congruence.
Qed.

Lemma performCheck_quiet env id site w :
  websites w !! id = Some site ->
  noTransition (Website.lastStatus site) (status (probeResult env site)) ->
  let w' := snd (performCheck env id w) in
  incidents w' = incidents w /\ sent w' = sent w /\ console w' = console w
  /\ (websites w' !! id = Some site
      \/ websites w' !! id = Some (refreshed env site w)).
Proof.
  intros Hsite [H1 H2]%noTransition_quiet. cbv zeta.
  rewrite performCheck_cases, Hsite. cbv zeta.
  destruct (dbFault env (dbCalls w)); [simpl; auto|].
  destruct (dbFault env (1 + dbCalls w)); [simpl; auto|].
  destruct (dbFault env (2 + dbCalls w)); [simpl; auto|].
  rewrite stateChange_quiet by assumption.
  repeat split. right. apply recorded_lookup.
Qed.

(** C6. A check whose transition is up -> up or down -> down, or whose
    previous status is neither, creates no incident, changes no incident,
    sends nothing and logs nothing; and any number of such checks in a
    row leaves the incident table as it was. *)
Theorem runChecks_no_transition envs id site st w :
  websites w !! id = Some site ->
  noTransition (Website.lastStatus site) st ->
  Forall (fun env => status (probeResult env site) = st) envs ->
  let w' := runChecks envs id w in
  incidents w' = incidents w /\ sent w' = sent w /\ console w' = console w.
Proof.
  intros Hsite Hno Hall. revert site w Hsite Hno Hall.
  induction envs as [|env rest IH]; intros site w Hsite Hno Hall.
  - simpl. auto.
  - inversion Hall as [|? ? Hst Hrest]; subst. simpl.
    destruct (performCheck_quiet env id site w Hsite Hno)
      as (Hi & Hs & Hc & [Hw | Hw]).
    + destruct (IH site _ Hw Hno Hrest) as (Hi' & Hs' & Hc').
      cbv zeta in *. repeat split; congruence.
    + destruct (IH (refreshed env site w) _ Hw) as (Hi' & Hs' & Hc').
      * left. reflexivity.
      * exact Hrest.
      * cbv zeta in *. repeat split; congruence.
Qed.

Lemma runChecks_no_transition_witness :
  let envs := [Sample.env (Response 503) Sample.noFault false;
               Sample.env (NetworkError "TypeError" "fetch failed")
                 Sample.noFault false;
               Sample.env (Response 404) Sample.noFault false] in
  let w := Sample.world Sample.siteDown [Sample.openIncident 0 500] 1000 in
  incidents (runChecks envs "w1" w) = incidents w.
Proof.
  refine (proj1 (runChecks_no_transition _ "w1" Sample.siteDown down _
                   _ _ _)).
  - reflexivity.
  - left. reflexivity.
  - repeat constructor.
Defined.

Lemma openCount_zero site l :
  openCount site l = 0%nat ->
  Prisma.mostRecent (List.filter (Incident.isOpenFor site) l) = None.
Proof.
  unfold openCount. intros H. apply mostRecent_None.
  destruct (List.filter _ l); [reflexivity | discriminate].
Qed.


(** C10. On a down -> up transition with no open incident for the site,
    [performCheck] records the Check, sets the site's last status to up,
    logs the recovery, leaves the incident table alone, sends nothing and
    returns normally (the four persistence calls it makes must not
    fail). *)
Theorem performCheck_up_without_incident env id site w :
  websites w !! id = Some site ->
  Website.lastStatus site = "down" ->
  status (probeResult env site) = up ->
  openCount id (incidents w) = 0%nat ->
  (forall n, (n < 4)%nat -> dbFault env (n + dbCalls w) = false) ->
  let r := performCheck env id w in
  let p := probeResult env site in
  fst r = Ok tt
  /\ checks (snd r)
     = checks w ++ [Prisma.newCheck id up (statusCode p) (responseTime p)
                      (errorMessage p) (now w + elapsed env site)]
  /\ (exists site', websites (snd r) !! id = Some site'
                    /\ Website.lastStatus site' = "up"
                    /\ Website.lastCheckedAt site'
                       = Some (now w + elapsed env site)
                    /\ Website.lastResponseMs site' = Some (responseTime p))
  /\ incidents (snd r) = incidents w
  /\ sent (snd r) = sent w
  /\ console (snd r) = console w ++ [backUpLine site].
Proof.
  intros Hsite Hprev Hst Hnone Hok.
  assert (Hrun : performCheck env id w
                 = (Ok tt,
                    setDbCalls (4 + dbCalls w)
                      (setConsole (fun c => c ++ [backUpLine site])
                         (recorded env id site w)))).
  { assert (F0 : dbFault env (dbCalls w) = false)
      by (apply (Hok 0%nat); lia).
    rewrite performCheck_cases, Hsite. cbv zeta.
    rewrite F0, (Hok 1%nat), (Hok 2%nat) by lia.
    rewrite stateChange_back_up by assumption. cbv zeta.
    change (dbCalls (recorded env id site w)) with (3 + dbCalls w)%nat.
    rewrite (Hok 3%nat) by lia.
    change (incidents (recorded env id site w)) with (incidents w).
    rewrite (openCount_zero _ _ Hnone). reflexivity. }
  cbv zeta. rewrite Hrun. simpl. rewrite <- Hst.
  repeat split.
  exists (refreshed env site w). split; [apply lookup_insert_eq|].
  unfold refreshed. simpl. rewrite Hst. repeat split.
Qed.

Lemma performCheck_up_without_incident_witness :
  let r := performCheck (Sample.env (Response 200) Sample.noFault false)
             "w1" (Sample.world Sample.siteDown [] 1000) in
  fst r = Ok tt /\ incidents (snd r) = [] /\ sent (snd r) = [].
Proof.
  destruct (performCheck_up_without_incident
              (Sample.env (Response 200) Sample.noFault false) "w1"
              Sample.siteDown (Sample.world Sample.siteDown [] 1000))
    as (H1 & _ & _ & H2 & H3 & _).
  - reflexivity.
  - reflexivity.
  - reflexivity.
  - reflexivity.
  - intros n _. reflexivity.
  - cbv zeta. auto.
Defined.

(** ** The built-in templates, rendered *)

Lemma append_empty_r (s : string) : s +:+ EmptyString = s.
Proof.
  induction s as [|c t IH]; [reflexivity|].
  change (String c (t +:+ EmptyString) = String c t). rewrite IH. reflexivity.
Qed.

Lemma render_default_up website seconds time :
  renderTemplate DEFAULT_UP_TEMPLATE (upVars website seconds time)
  = "🟢 *" +:+ Website.name website +:+ "* is back UP
URL: " +:+ Website.url website +:+ "
Downtime: " +:+ Utils.formatDuration seconds +:+ "
Time: " +:+ time.
Proof.
  change DEFAULT_UP_TEMPLATE with
    ("🟢 *" +:+ String "{" ("name" +:+ String "}" ("* is back UP
URL: " +:+ String "{" ("url" +:+ String "}" ("
Downtime: " +:+ String "{" ("downtime" +:+ String "}" ("
Time: " +:+ String "{" ("time" +:+ String "}" EmptyString)))))))).
  repeat (rewrite renderTemplate_text by reflexivity;
          rewrite renderTemplate_placeholder by reflexivity;
          erewrite substitute_own by reflexivity).
  rewrite renderTemplate_empty, append_empty_r. reflexivity.
Qed.



(** ** The scheduler *)

Lemma scheduleCheck_cases env id w :
  scheduleCheck env id w =
  if dbFault env (dbCalls w)
  then (Throw Prisma.requestError, setDbCalls (1 + dbCalls w) w)
  else
    let w1 := setDbCalls (1 + dbCalls w) w in
    match websites w !! id with
    | Some site =>
        if Website.isActive site then
          match performCheck env id w1 with
          | (Ok _, w2) =>
              (Ok tt,
               setTimers <[id := nextHandle w2]>
                 (setNextHandle (S (nextHandle w2))
                    (setEventLoop
                       <[nextHandle w2 :=
                           {| timerCallback := RunScheduleCheck id;
                              timerDelay := Website.checkInterval site * 1000 |}]>
                       w2)))
          | (Throw e, w2) => (Throw e, w2)
          end
        else (Ok tt, setTimers (delete id) w1)
    | None => (Ok tt, setTimers (delete id) w1)
    end.
Proof.
  unfold scheduleCheck. unfold bind at 1. rewrite website_findUnique_run.
  destruct (dbFault env (dbCalls w)); [reflexivity|].
  destruct (websites w !! id) as [site|]; [|reflexivity].
  destruct (Website.isActive site); [|reflexivity].
  unfold bind at 1. simpl.
  destruct (performCheck env id _) as [[[]|e] w2]; reflexivity.
Qed.

(** What a check does to the timeouts: nothing to the timer map; in the
    event loop, at most the timer of its probe is armed besides. *)
Lemma performCheck_timers env id w :
  timers (snd (performCheck env id w)) = timers w.
Proof. apply keeps_performCheck; reflexivity. Qed.

Lemma performCheck_loop env id w :
  let w' := snd (performCheck env id w) in
  (eventLoop w' = eventLoop w /\ nextHandle w' = nextHandle w)
  \/ (exists site, websites w !! id = Some site
        /\ eventLoop w' = probedLoop env site w
        /\ nextHandle w' = S (nextHandle w)).
Proof.
  cbv zeta. rewrite performCheck_cases.
  destruct (dbFault env (dbCalls w)); [left; split; reflexivity|].
  destruct (websites w !! id) as [site|]; [|left; split; reflexivity].
  right. exists site. split; [reflexivity|]. cbv zeta.
  destruct (dbFault env (1 + dbCalls w)); [split; reflexivity|].
  destruct (dbFault env (2 + dbCalls w)); [split; reflexivity|].
  rewrite (keeps_stateChange eventLoop), (keeps_stateChange nextHandle)
    by reflexivity.
  split; reflexivity.
Qed.

Lemma probedLoop_check env site w h t id :
  probedLoop env site w !! h = Some t ->
  timerCallback t = RunScheduleCheck id ->
  eventLoop w !! h = Some t.
Proof.
  unfold probedLoop. destruct (abortLeft env site).
  - intros H Hc. apply lookup_insert_Some in H as [[_ <-]|[_ H]];
      [discriminate Hc|exact H].
  - intros H _. apply lookup_delete_Some in H as [_ H]. exact H.
Qed.

(** A check arms no timeout of the scheduler. *)
Lemma performCheck_arms_no_check env id w h t id' :
  eventLoop (snd (performCheck env id w)) !! h = Some t ->
  timerCallback t = RunScheduleCheck id' ->
  eventLoop w !! h = Some t.
Proof.
  destruct (performCheck_loop env id w) as [[-> _]|(site & _ & -> & _)].
  - intros H _. exact H.
  - apply probedLoop_check.
Qed.

(** The console of a check that throws: at most the line of the
    transition has been logged, nothing about the failure. *)
Lemma performCheck_Throw_console env id site w e :
  websites w !! id = Some site ->
  fst (performCheck env id w) = Throw e ->
  let c := console (snd (performCheck env id w)) in
  c = console w
  \/ c = console w
         ++ [wentDownLine site (errorMessage (probeResult env site))]
  \/ c = console w ++ [backUpLine site].
Proof.
  intros Hsite. cbv zeta. rewrite performCheck_cases, Hsite. cbv zeta.
  destruct (dbFault env (dbCalls w)); [left; reflexivity|].
  destruct (dbFault env (1 + dbCalls w)); [left; reflexivity|].
  destruct (dbFault env (2 + dbCalls w)); [left; reflexivity|].
  set (w3 := recorded env id site w).
  change (console w) with (console w3).
  set (r := probeResult env site).
  destruct (decide (Website.lastStatus site = "up" /\ status r = down))
    as [[Hup Hdn]|Hnot1].
  - rewrite stateChange_went_down by assumption. cbv zeta.
    destruct (dbFault env (dbCalls w3)); [right; left; reflexivity|].
    destruct (dbFault env (1 + dbCalls w3)); [right; left; reflexivity|].
    destruct (websites w3 !! id) as [fresh|]; [|discriminate].
    destruct (notifyDown env fresh _ _ _) as [[[]|e'] w4] eqn:Hn;
      [discriminate|].
    intros _. apply notifyDown_Throw in Hn as (_ & _ & ->).
    right; left; reflexivity.
  - destruct (decide (Website.lastStatus site = "down" /\ status r = up))
      as [[Hdn Hup]|Hnot2].
    + rewrite stateChange_back_up by assumption. cbv zeta.
      destruct (dbFault env (dbCalls w3)); [right; right; reflexivity|].
      destruct (Prisma.mostRecent _) as [inc|]; [|discriminate].
      destruct (dbFault env (1 + dbCalls w3)); [right; right; reflexivity|].
      destruct (dbFault env (2 + dbCalls w3)); [right; right; reflexivity|].
      destruct (websites w3 !! id) as [fresh|]; [|discriminate].
      destruct (notifyUp env fresh _ _) as [[[]|e'] w4] eqn:Hn;
        [discriminate|].
      intros _. apply notifyUp_Throw in Hn as (_ & _ & ->).
      right; right; reflexivity.
    + rewrite stateChange_quiet by assumption. discriminate.
Qed.

(** C3 as stated fails.  Two sites have a timeout armed; the one of [w1]
    fires and writing the Check row throws.  Nothing is logged and no
    timeout is armed for [w1]; the rejected promise of [scheduleCheck] is
    handled by nobody, so the process ends, and with it the monitoring of
    [w2]. *)
Lemma scheduleCheck_failure_not_rearmed :
  let env := Sample.env (Response 200) (fun n => Nat.eqb n 2) false in
  armed "w1" Sample.scheduled
  /\ armed "w2" Sample.scheduled
  /\ exists w',
       fireTimer env 0%nat Sample.scheduled = Exits Prisma.requestError w'
       /\ console w' = []
       /\ ~ armed "w1" w'.
Proof.
  cbv zeta. split; [|split].
  - exists 0%nat, {| timerCallback := RunScheduleCheck "w1";
                     timerDelay := 60000 |}.
    split; reflexivity.
  - exists 1%nat, {| timerCallback := RunScheduleCheck "w2";
                     timerDelay := 60000 |}.
    split; reflexivity.
  - exists (worldOf (fireTimer
                       (Sample.env (Response 200) (fun n => Nat.eqb n 2) false)
                       0%nat Sample.scheduled)).
    split; [vm_compute; reflexivity|]. split; [reflexivity|].
    assert (He : eventLoop
                   (worldOf (fireTimer
                               (Sample.env (Response 200)
                                  (fun n => Nat.eqb n 2) false)
                               0%nat Sample.scheduled))
                 = {[1%nat := {| timerCallback := RunScheduleCheck "w2";
                                 timerDelay := 60000 |}]})
      by (vm_compute; reflexivity).
    intros (h & t & Ht & Hs). rewrite He in Ht.
    apply lookup_singleton_Some in Ht as [_ <-]. discriminate Hs.
Qed.

(** C3, amended.  If a persistence call fails during a site's tick, the
    site's cycle is aborted and the failure escapes from [scheduleCheck]:
    the scheduler logs nothing about it (the console holds at most the
    line of the transition, logged before the call that failed) and arms
    no timeout, neither for the failed site nor for another, so the
    site's timer chain ends there.  The callback of the timeout drops the
    rejected promise, and the process ends. *)
Theorem scheduleCheck_failure_propagates env handle delay id site w e w2 :
  eventLoop w !! handle
  = Some {| timerCallback := RunScheduleCheck id; timerDelay := delay |} ->
  websites w !! id = Some site ->
  Website.isActive site = true ->
  dbFault env (dbCalls w) = false ->
  performCheck env id
    (setDbCalls (1 + dbCalls w) (setEventLoop (delete handle) w))
  = (Throw e, w2) ->
  scheduleCheck env id (setEventLoop (delete handle) w) = (Throw e, w2)
  /\ fireTimer env handle w = Exits e w2
  /\ (console w2 = console w
      \/ console w2
         = console w
             ++ [wentDownLine site (errorMessage (probeResult env site))]
      \/ console w2 = console w ++ [backUpLine site])
  /\ timers w2 = timers w
  /\ (forall h t id',
        eventLoop w2 !! h = Some t ->
        timerCallback t = RunScheduleCheck id' ->
        h <> handle /\ eventLoop w !! h = Some t).
Proof.
  intros Hh Hsite Hactive F0 Hthrow.
  set (w0 := setEventLoop (delete handle) w) in *.
  set (w1 := setDbCalls (1 + dbCalls w) w0) in *.
  assert (Hrun : scheduleCheck env id w0 = (Throw e, w2)).
  { rewrite scheduleCheck_cases. change (dbCalls w0) with (dbCalls w).
    change (websites w0) with (websites w).
    rewrite F0, Hsite, Hactive. cbv zeta. fold w1. rewrite Hthrow.
    reflexivity. }
  split; [exact Hrun|]. split.
  { unfold fireTimer. rewrite Hh. cbn [timerCallback]. fold w0.
    rewrite Hrun. reflexivity. }
  split.
  { pose proof (performCheck_Throw_console env id site w1 e) as Hc.
    rewrite Hthrow in Hc. apply Hc; [exact Hsite|reflexivity]. }
  split.
  { pose proof (performCheck_timers env id w1) as Ht.
    rewrite Hthrow in Ht. exact Ht. }
  intros h t id' Ht Hc.
  pose proof (performCheck_arms_no_check env id w1 h t id') as Hno.
  rewrite Hthrow in Hno. specialize (Hno Ht Hc).
  change (eventLoop w1) with (delete handle (eventLoop w)) in Hno.
  apply lookup_delete_Some in Hno as [Hne Hno]. split; [congruence|exact Hno].
Qed.

Lemma scheduleCheck_failure_propagates_witness :
  fireTimer (Sample.env (Response 200) (fun n => Nat.eqb n 2) false)
    0%nat Sample.scheduled
  = Exits Prisma.requestError
      (snd (performCheck
              (Sample.env (Response 200) (fun n => Nat.eqb n 2) false) "w1"
              (setDbCalls 1 (setEventLoop (delete 0%nat) Sample.scheduled)))).
Proof.
  refine (proj1 (proj2 (scheduleCheck_failure_propagates
                   (Sample.env (Response 200) (fun n => Nat.eqb n 2) false)
                   0%nat 60000 "w1" Sample.site Sample.scheduled
                   Prisma.requestError _ _ _ _ _ _))).
  - reflexivity.
  - reflexivity.
  - reflexivity.
  - reflexivity.
  - vm_compute. reflexivity.
Defined.

(** When the check goes through, the next one is armed
    [checkInterval] seconds later. *)
Lemma scheduleCheck_rearms env id site w w2 :
  websites w !! id = Some site ->
  Website.isActive site = true ->
  dbFault env (dbCalls w) = false ->
  performCheck env id (setDbCalls (1 + dbCalls w) w) = (Ok tt, w2) ->
  let r := scheduleCheck env id w in
  fst r = Ok tt
  /\ eventLoop (snd r)
     = <[nextHandle w2 :=
           {| timerCallback := RunScheduleCheck id;
              timerDelay := Website.checkInterval site * 1000 |}]>
         (eventLoop w2)
  /\ timers (snd r) = <[id := nextHandle w2]> (timers w)
  /\ nextHandle (snd r) = S (nextHandle w2)
  /\ armed id (snd r).
Proof.
  intros Hsite Hactive F0 Hok.
  pose proof (performCheck_timers env id (setDbCalls (1 + dbCalls w) w))
    as Htimers.
  rewrite Hok in Htimers. simpl in Htimers.
  cbv zeta. rewrite scheduleCheck_cases, F0, Hsite, Hactive. cbv zeta.
  rewrite Hok. simpl. rewrite Htimers.
  split; [reflexivity|]. split; [reflexivity|].
  split; [reflexivity|]. split; [reflexivity|].
  exists (nextHandle w2). eexists. split; [apply lookup_insert_eq|reflexivity].
Qed.

(** ** The invariant along a run *)

Lemma mostRecent_None_count site l :
  Prisma.mostRecent (List.filter (Incident.isOpenFor site) l) = None ->
  openCount site l = 0%nat.
Proof. intros H%mostRecent_None. unfold openCount. rewrite H. reflexivity. Qed.

(** A check that returns normally re-establishes [consistent], so every
    state reached by checks that complete has at most one open incident
    per checked site, and none while the site's last status is up. *)
Lemma performCheck_consistent env id w :
  consistent id w ->
  fst (performCheck env id w) = Ok tt ->
  consistent id (snd (performCheck env id w)).
Proof.
  intros [Hone Hzero]. rewrite performCheck_cases.
  destruct (dbFault env (dbCalls w)); [discriminate|].
  destruct (websites w !! id) as [site|] eqn:Hsite.
  2:{ intros _. split; [exact Hone|]. simpl. intros s Hs. congruence. }
  specialize (Hzero site eq_refl). cbv zeta.
  destruct (dbFault env (1 + dbCalls w)); [discriminate|].
  destruct (dbFault env (2 + dbCalls w)); [discriminate|].
  set (w3 := recorded env id site w).
  assert (Hfresh : websites w3 !! id = Some (refreshed env site w))
    by apply recorded_lookup.
  assert (Hweb : websites (snd (stateChange env id site
                                  (probeResult env site) w3)) !! id
                 = Some (refreshed env site w)).
  { rewrite keeps_stateChange by reflexivity. exact Hfresh. }
  intros Hok. split.
  2:{ intros site' Hsite' Hlast. rewrite Hweb in Hsite'.
      injection Hsite' as <-. unfold refreshed in Hlast. simpl in Hlast.
      revert Hok Hlast.
      destruct (status (probeResult env site)) eqn:Hst;
        [intros Hok _; revert Hok | simpl; congruence].
      destruct (decide (Website.lastStatus site = "down")) as [Hdn|Hndn].
      - rewrite stateChange_back_up by assumption. cbv zeta.
        rewrite Hfresh.
        destruct (dbFault env (dbCalls w3)); [discriminate|].
        change (incidents w3) with (incidents w).
        destruct (Prisma.mostRecent _) as [inc|] eqn:Hinc.
        + destruct (dbFault env (1 + dbCalls w3)); [discriminate|].
          destruct (dbFault env (2 + dbCalls w3)); [discriminate|].
          intros _. rewrite keeps_notifyUp by reflexivity.
          apply findFirst_open in Hinc as [Hin Hopen].
          pose proof (openCount_resolve_lt id
                        (now w3)
                        ((now w3 - Incident.startedAt inc) / 1000)
                        (incidents w) inc Hin Hopen) as Hlt.
          change (openCount id
                    (map (Prisma.resolveRow (Incident.id inc) (now w3)
                            ((now w3 - Incident.startedAt inc) / 1000))
                       (incidents w)) = 0%nat).
          lia.
        + intros _. simpl. apply mostRecent_None_count, Hinc.
      - rewrite stateChange_quiet; [intros _; simpl; auto | |];
          intros [? ?]; congruence. }
  revert Hok.
  destruct (status (probeResult env site)) eqn:Hst.
  - destruct (decide (Website.lastStatus site = "down")) as [Hdn|Hndn].
    + rewrite stateChange_back_up by assumption. cbv zeta.
      rewrite Hfresh.
      destruct (dbFault env (dbCalls w3)); [discriminate|].
      change (incidents w3) with (incidents w).
      destruct (Prisma.mostRecent _) as [inc|] eqn:Hinc; [|intros _; exact Hone].
      destruct (dbFault env (1 + dbCalls w3)); [discriminate|].
      destruct (dbFault env (2 + dbCalls w3)); [discriminate|].
      intros _. rewrite keeps_notifyUp by reflexivity.
      etransitivity; [apply openCount_resolve_le | exact Hone].
    + rewrite stateChange_quiet; [intros _; exact Hone | |];
        intros [? ?]; congruence.
  - destruct (decide (Website.lastStatus site = "up")) as [Hup|Hnup].
    + rewrite stateChange_went_down by assumption. cbv zeta.
      rewrite Hfresh.
      destruct (dbFault env (dbCalls w3)); [discriminate|].
      destruct (dbFault env (1 + dbCalls w3)); [discriminate|].
      intros _. rewrite keeps_notifyDown by reflexivity.
      change (incidents _) with
        (incidents w ++ [Prisma.newIncident (nextIncidentId w3) id true
                           (now w3)]).
      rewrite openCount_app, openCount_new, Hzero by congruence.
      case_bool_decide; simpl; lia.
    + rewrite stateChange_quiet; [intros _; exact Hone | |];
        intros [? ?]; congruence.
Qed.

(** ** The clock *)

Lemma performCheck_clock env id w :
  now w <= now (snd (performCheck env id w)).
Proof.
  rewrite performCheck_cases.
  destruct (dbFault env (dbCalls w)); [simpl; lia|].
  destruct (websites w !! id) as [site|]; [|simpl; lia].
  pose proof (elapsed_nonneg env site). cbv zeta.
  destruct (dbFault env (1 + dbCalls w)); [simpl; lia|].
  destruct (dbFault env (2 + dbCalls w)); [simpl; lia|].
  rewrite (keeps_stateChange now) by reflexivity. simpl. lia.
Qed.

(** No incident starts in the future, and checks keep it that way. *)
Lemma performCheck_past env id w :
  (forall j, In j (incidents w) -> Incident.startedAt j <= now w) ->
  let w' := snd (performCheck env id w) in
  forall j, In j (incidents w') -> Incident.startedAt j <= now w'.
Proof.
  intros Hpast w'. pose proof (performCheck_clock env id w) as Hclock.
  fold w' in Hclock.
  destruct (performCheck_incidents env id w)
    as [Heq | [(site & Hsite & Hprev & Hst & Hnow & Heq)
              | (site & inc & Hsite & Hprev & Hst & Hinc & Hnow & Heq)]];
    fold w' in Heq; cbv zeta in Heq; rewrite Heq; intros j Hj.
  - specialize (Hpast j Hj). lia.
  - fold w' in Hnow. apply in_app_or in Hj as [Hj | [<- | []]].
    + specialize (Hpast j Hj). lia.
    + simpl. lia.
  - apply in_map_iff in Hj as (i & <- & Hi). specialize (Hpast i Hi).
    unfold Prisma.resolveRow. case_bool_decide; simpl; lia.
Qed.

(** ** The scenarios of the specification *)

(** Scenario A: the site was up and the probe returns HTTP 500.  A down
    Check is recorded, an incident is opened, and the built-in down
    template goes out with its placeholders filled in (scenario C). *)
Example scenario_A :
  let r := performCheck (Sample.env (Response 500) Sample.noFault false)
             "w1" (Sample.world Sample.site [] 1000) in
  fst r = Ok tt
  /\ checks (snd r)
     = [Check.mk "w1" down (Some 500) 120 (Some "HTTP 500") 1120]
  /\ incidents (snd r) = [Incident.mk 0 "w1" 1120 None None true false]
  /\ sent (snd r)
     = [("628123@s.whatsapp.net",
         "🔴 *Homepage* is DOWN
URL: https://hanif.app
Error: HTTP 500
Time: 2/11/2026, 07.00.00")].
Proof. repeat split. Qed.

(** Scenario B: the next probe succeeds while the incident has been open
    for 125 seconds. *)
Example scenario_B :
  let r := performCheck (Sample.env (Response 200) Sample.noFault false)
             "w1"
             (Sample.world Sample.siteDown [Sample.openIncident 0 1000]
                126500) in
  fst r = Ok tt
  /\ incidents (snd r)
     = [Incident.mk 0 "w1" 1000 (Some 126620) (Some 125) true true]
  /\ sent (snd r)
     = [("628123@s.whatsapp.net",
         "🟢 *Homepage* is back UP
URL: https://hanif.app
Downtime: 2m 5s
Time: 2/11/2026, 07.00.00")].
Proof. repeat split. Qed.

(** The same recovery for a site without a recipient: the incident is
    resolved, nothing is sent, and the only trace of the notification is
    its log line. *)
Example scenario_no_target :
  let r := performCheck (Sample.env (Response 200) Sample.noFault true)
             "w1"
             (Sample.world Sample.siteNoTarget [Sample.openIncident 0 1000]
                126500) in
  fst r = Ok tt
  /\ incidents (snd r)
     = [Incident.mk 0 "w1" 1000 (Some 126620) (Some 125) true true]
  /\ sent (snd r) = []
  /\ console (snd r)
     = ["[Monitor] Homepage is back UP"; "[Notify] Sent to personal:"].
Proof. repeat split. Qed.

(** A request still in flight after 15 s is recorded as a timeout. *)
Example scenario_timeout :
  let env := {| hostReply := fun _ => Response 200;
                hostLatency := fun _ => 20000%N;
                dbFault := Sample.noFault;
                sendFault := fun _ _ => false;
                toLocaleString := fun _ => "now" |} in
  checks (snd (performCheck env "w1" (Sample.world Sample.siteDown [] 0)))
  = [Check.mk "w1" down None 15000 (Some "Timeout (15s)") 15000].
Proof. reflexivity. Qed.

Example formatDuration_examples :
  Utils.formatDuration 0 = "0s"
  /\ Utils.formatDuration 59 = "59s"
  /\ Utils.formatDuration 60 = "1m"
  /\ Utils.formatDuration 125 = "2m 5s"
  /\ Utils.formatDuration 3600 = "1h"
  /\ Utils.formatDuration 3660 = "1h 1m"
  /\ Utils.formatDuration 86399 = "23h 59m".
Proof. repeat split. Qed.

Example renderTemplate_examples :
  let vars := <["name" := "Homepage"]> (∅ : gmap string string) in
  renderTemplate "{name} is {state}" vars = "Homepage is "
  /\ renderTemplate "{name" vars = "{name"
  /\ renderTemplate "{}{ name }{na-me}" vars = "{}{ name }{na-me}"
  /\ renderTemplate "{{name}}" vars = "{Homepage}"
  /\ renderTemplate "{toString}" vars
     = "function toString() { [native code] }".
Proof. repeat split. Qed.

End Claims.

(** * Further properties *)

Section Further.
Import Regex Template Notify Monitor.

(** ** What one check records *)

Lemma performCheck_missing env id w :
  websites w !! id = None ->
  performCheck env id w
  = (if dbFault env (dbCalls w) then Throw Prisma.requestError else Ok tt,
     setDbCalls (1 + dbCalls w) w).
Proof.
  intros H. rewrite performCheck_cases, H.
  destruct (dbFault env (dbCalls w)); reflexivity.
Qed.

(** The Check table, the site table and the clock after one check. *)
Lemma performCheck_tables env id site w :
  websites w !! id = Some site ->
  let w' := snd (performCheck env id w) in
  let r := probeResult env site in
  let t := now w + elapsed env site in
  let c := Prisma.newCheck id (status r) (statusCode r) (responseTime r)
             (errorMessage r) t in
  (checks w' = checks w /\ websites w' = websites w
   /\ (now w' = now w \/ now w' = t)
   /\ exists e, fst (performCheck env id w) = Throw e)
  \/ (checks w' = checks w ++ [c] /\ websites w' = websites w /\ now w' = t
      /\ exists e, fst (performCheck env id w) = Throw e)
  \/ (checks w' = checks w ++ [c]
      /\ websites w' = <[id := refreshed env site w]> (websites w)
      /\ now w' = t).
Proof.
  intros Hsite. cbv zeta. rewrite performCheck_cases, Hsite. cbv zeta.
  destruct (dbFault env (dbCalls w)); [left; simpl; eauto 10|].
  destruct (dbFault env (1 + dbCalls w)); [left; simpl; eauto 10|].
  destruct (dbFault env (2 + dbCalls w)); [right; left; simpl; eauto 10|].
  right; right.
  rewrite (keeps_stateChange checks), (keeps_stateChange websites),
    (keeps_stateChange now) by reflexivity.
  repeat split.
Qed.

Lemma performCheck_Ok_tables env id site w :
  websites w !! id = Some site ->
  fst (performCheck env id w) = Ok tt ->
  let w' := snd (performCheck env id w) in
  let r := probeResult env site in
  let t := now w + elapsed env site in
  checks w'
  = checks w ++ [Prisma.newCheck id (status r) (statusCode r)
                   (responseTime r) (errorMessage r) t]
  /\ websites w' = <[id := refreshed env site w]> (websites w)
  /\ now w' = t.
Proof.
  intros Hsite Hok.
  destruct (performCheck_tables env id site w Hsite)
    as [(_ & _ & _ & e & He) | [(_ & _ & _ & e & He) | H]];
    [congruence | congruence | exact H].
Qed.

Lemma performCheck_other_row env id other w :
  other <> id ->
  websites (snd (performCheck env id w)) !! other = websites w !! other.
Proof.
  intros Hne. destruct (websites w !! id) as [site|] eqn:Hsite.
  - destruct (performCheck_tables env id site w Hsite)
      as [(_ & -> & _) | [(_ & -> & _) | (_ & -> & _)]]; try reflexivity.
    apply lookup_insert_ne. congruence.
  - rewrite (performCheck_missing env id w Hsite). reflexivity.
Qed.

(** A check of one site leaves the incident state of another site
    consistent. *)
Lemma performCheck_consistent_other env id site w :
  site <> id -> consistent site w ->
  consistent site (snd (performCheck env id w)).
Proof.
  intros Hne [Hone Hzero]. unfold consistent.
  rewrite (performCheck_other_row env id site w Hne).
  assert (Hle : (openCount site (incidents (snd (performCheck env id w)))
                 <= openCount site (incidents w))%nat).
  { destruct (performCheck_incidents env id w)
      as [Heq | [(s & _ & _ & _ & _ & Heq)
                | (s & inc & _ & _ & _ & _ & _ & Heq)]];
      cbv zeta in Heq; rewrite Heq.
    - lia.
    - rewrite openCount_app, openCount_new.
      rewrite bool_decide_eq_false_2 by congruence. lia.
    - apply openCount_resolve_le. }
  split; [lia|]. intros s Hs Hlast. specialize (Hzero s Hs Hlast). lia.
Qed.

(** X1. Along any run of checks, over any sites, in which every check
    returns normally, the incident state stays consistent with the sites'
    last status: each site has at most one open incident, and none unless
    it was last seen down. *)
Theorem completed_checks_stay_consistent steps w :
  (forall site, consistent site w) ->
  completes steps w = true ->
  forall site,
    consistent site (runSites steps w)
    /\ (openCount site (incidents (runSites steps w)) <= 1)%nat.
Proof.
  revert w. induction steps as [|[env id] rest IH]; intros w Hall Hrun site.
  - simpl. split; [apply Hall | apply Hall].
  - simpl in *.
    destruct (performCheck env id w) as [[[]|e] w'] eqn:Hstep;
      [|discriminate].
    apply IH; [|exact Hrun].
    intros s. destruct (decide (s = id)) as [->|Hne].
    + pose proof (performCheck_consistent env id w (Hall id)) as H.
      rewrite Hstep in H. apply H. reflexivity.
    + pose proof (performCheck_consistent_other env id s w Hne (Hall s)) as H.
      rewrite Hstep in H. exact H.
Qed.

Lemma completed_checks_stay_consistent_witness :
  (openCount "w1"
     (incidents
        (runSites
           [(Sample.env (Response 500) Sample.noFault false, "w1");
            (Sample.env (Response 503) Sample.noFault false, "w1");
            (Sample.env (Response 200) Sample.noFault false, "w1");
            (Sample.env (Response 500) Sample.noFault true, "w1")]
           (Sample.world Sample.site [] 1000))) <= 1)%nat.
Proof.
  refine (proj2 (completed_checks_stay_consistent _ _ _ _ "w1")).
  - intros site. split; [vm_compute; lia|]. intros _ _ _. reflexivity.
  - vm_compute. reflexivity.
Defined.

Lemma ordered_snoc (l : list Check.t) c t dt :
  StronglySorted (fun a b => Check.checkedAt a <= Check.checkedAt b) l ->
  Forall (fun c => Check.checkedAt c <= t) l ->
  0 <= dt ->
  Check.checkedAt c = t + dt ->
  StronglySorted (fun a b => Check.checkedAt a <= Check.checkedAt b)
    (l ++ [c])
  /\ Forall (fun c => Check.checkedAt c <= t + dt) (l ++ [c]).
Proof.
  intros Hsorted Hpast Hdt Hc. split.
  - apply StronglySorted_app_2; [|exact Hsorted|repeat constructor].
    intros a b Ha Hb. apply list_elem_of_singleton in Hb as ->.
    rewrite Forall_forall in Hpast. specialize (Hpast a Ha). simpl in *. lia.
  - apply Forall_app. split.
    + eapply Forall_impl; [exact Hpast|]. simpl. intros; lia.
    + repeat constructor. lia.
Qed.

(** X2. Checking never rewrites or removes a Check row and never
    records a timestamp that is earlier than one already there: along any
    run, whichever persistence calls fail, the old table is a prefix of the
    new one and the table stays in timestamp order. *)
Theorem checks_append_only_in_order steps w :
  checksInOrder w ->
  checksInOrder (runSites steps w)
  /\ exists added, checks (runSites steps w) = checks w ++ added.
Proof.
  revert w. induction steps as [|[env id] rest IH]; intros w Hord.
  - simpl. split; [exact Hord|]. exists []. symmetry. apply app_nil_r.
  - simpl.
    assert (Hstep : checksInOrder (snd (performCheck env id w))
                    /\ exists a, checks (snd (performCheck env id w))
                                 = checks w ++ a).
    { destruct Hord as [Hsorted Hpast].
      pose proof (performCheck_clock env id w) as Hclock.
      destruct (websites w !! id) as [site|] eqn:Hsite.
      - pose proof (elapsed_nonneg env site) as Hel.
        destruct (performCheck_tables env id site w Hsite)
          as [(Hc & _ & _ & _) | [(Hc & _ & Hn & _) | (Hc & _ & Hn)]];
          cbv zeta in Hc; unfold checksInOrder; rewrite Hc.
        + split; [split|exists []; symmetry; apply app_nil_r].
          * exact Hsorted.
          * eapply Forall_impl; [exact Hpast|]. simpl. intros; lia.
        + cbv zeta in Hn. rewrite Hn.
          split; [|eauto].
          apply ordered_snoc; [exact Hsorted | exact Hpast | exact Hel | reflexivity].
        + cbv zeta in Hn. rewrite Hn.
          split; [|eauto].
          apply ordered_snoc; [exact Hsorted | exact Hpast | exact Hel | reflexivity].
      - rewrite (performCheck_missing env id w Hsite). simpl.
        split; [split; assumption|].
        exists []. symmetry. apply app_nil_r. }
    destruct Hstep as (Hord' & a & Ha).
    destruct (IH _ Hord') as (Hfinal & b & Hb).
    split; [exact Hfinal|].
    exists (a ++ b). rewrite Hb, Ha, app_assoc. reflexivity.
Qed.

(** Two rows are in the table; then a check that goes through, one whose
    write of the Check row fails, and one whose status update fails. *)
Lemma checks_append_only_in_order_witness :
  let old := [Check.mk "w1" up (Some 200) 80 None 400;
              Check.mk "w2" down (Some 500) 95 (Some "HTTP 500") 700] in
  let w := setChecks (fun _ => old) (Sample.world Sample.site [] 1000) in
  let w' := runSites
              [(Sample.env (Response 500) Sample.noFault false, "w1");
               (Sample.env (Response 200) (fun n => Nat.eqb n 7) false, "w1");
               (Sample.env (Response 200) (fun n => Nat.eqb n 10) false,
                "w1")] w in
  checksInOrder w'
  /\ (exists added, checks w' = old ++ added)
  /\ length (checks w') = 4%nat.
Proof.
  cbv zeta.
  destruct (checks_append_only_in_order
              [(Sample.env (Response 500) Sample.noFault false, "w1");
               (Sample.env (Response 200) (fun n => Nat.eqb n 7) false, "w1");
               (Sample.env (Response 200) (fun n => Nat.eqb n 10) false,
                "w1")]
              (setChecks
                 (fun _ => [Check.mk "w1" up (Some 200) 80 None 400;
                            Check.mk "w2" down (Some 500) 95
                              (Some "HTTP 500") 700])
                 (Sample.world Sample.site [] 1000))) as [H1 H2].
  - split; simpl.
    + repeat constructor; simpl; lia.
    + repeat constructor; simpl; lia.
  - split; [exact H1|]. split; [exact H2|]. vm_compute. reflexivity.
Defined.

Lemma refreshed_sameConfig env site w : sameConfig (refreshed env site w) site.
Proof. repeat split. Qed.

(** X3. A check writes nothing but the status fields of the site it
    checks: whichever persistence calls fail, the rows of the other sites,
    the global settings and the checked site's own configuration (name,
    URL, interval, active flag, templates, recipient) are as before, and
    no site appears or disappears. *)
Theorem performCheck_leaves_config env id w :
  let w' := snd (performCheck env id w) in
  (forall other, other <> id -> websites w' !! other = websites w !! other)
  /\ settings w' = settings w
  /\ (websites w !! id = None -> websites w' = websites w)
  /\ (forall site, websites w !! id = Some site ->
        exists site', websites w' !! id = Some site' /\ sameConfig site' site).
Proof.
  cbv zeta. split; [|split; [|split]].
  - intros other Hne. apply performCheck_other_row, Hne.
  - apply keeps_performCheck; reflexivity.
  - intros Hnone. rewrite (performCheck_missing env id w Hnone). reflexivity.
  - intros site Hsite.
    destruct (performCheck_tables env id site w Hsite)
      as [(_ & -> & _) | [(_ & -> & _) | (_ & -> & _)]].
    + exists site. split; [exact Hsite | repeat split].
    + exists site. split; [exact Hsite | repeat split].
    + exists (refreshed env site w).
      split; [apply lookup_insert_eq | apply refreshed_sameConfig].
Qed.

Lemma performCheck_leaves_config_witness :
  exists site',
    websites (snd (performCheck
                     (Sample.env (Response 500) Sample.noFault false) "w1"
                     (Sample.world Sample.site [] 1000))) !! "w1"
    = Some site'
    /\ sameConfig site' Sample.site.
Proof.
  refine (proj2 (proj2 (proj2 (performCheck_leaves_config
            (Sample.env (Response 500) Sample.noFault false) "w1"
            (Sample.world Sample.site [] 1000)))) Sample.site _).
  reflexivity.
Defined.

(** X4. After a check that returns normally, the site's status fields
    mirror the Check row it appended: the last status is the row's status
    and the last latency its response time, and the last-checked time is
    set. *)
Theorem performCheck_status_mirrors_check env id site w :
  websites w !! id = Some site ->
  fst (performCheck env id w) = Ok tt ->
  let w' := snd (performCheck env id w) in
  exists c site',
    checks w' = checks w ++ [c]
    /\ Check.websiteId c = id
    /\ websites w' !! id = Some site'
    /\ Website.lastStatus site' = statusString (Check.status c)
    /\ Website.lastResponseMs site' = Some (Check.responseTime c)
    /\ Website.lastCheckedAt site' <> None.
Proof.
  intros Hsite Hok.
  destruct (performCheck_Ok_tables env id site w Hsite Hok)
    as (Hc & Hw & Hn).
  cbv zeta in *. eexists. exists (refreshed env site w).
  split; [exact Hc|]. rewrite Hw, lookup_insert_eq.
  repeat split. discriminate.
Qed.

Lemma performCheck_status_mirrors_check_witness :
  exists c site',
    checks (snd (performCheck
                   (Sample.env (Response 500) Sample.noFault false) "w1"
                   (Sample.world Sample.site [] 1000))) = [] ++ [c]
    /\ websites (snd (performCheck
                        (Sample.env (Response 500) Sample.noFault false)
                        "w1" (Sample.world Sample.site [] 1000))) !! "w1"
       = Some site'
    /\ Website.lastStatus site' = statusString (Check.status c)
    /\ Website.lastResponseMs site' = Some (Check.responseTime c).
Proof.
  destruct (performCheck_status_mirrors_check
              (Sample.env (Response 500) Sample.noFault false) "w1"
              Sample.site (Sample.world Sample.site [] 1000))
    as (c & site' & H1 & _ & H2 & H3 & H4 & _).
  - reflexivity.
  - reflexivity.
  - exists c, site'. auto.
Defined.

(** X6. The probe never throws, whatever the request ends in, and its
    result is coherent: an up result has a status code below 400 and no
    error message, a down result always has an error message, and a
    result without a status code is down.  The clock has advanced by the
    response time. *)
Theorem probe_result_coherent env website w :
  exists r,
    probe env website w = (Ok r, probed env website w)
    /\ now (probed env website w) = now w + responseTime r
    /\ 0 <= responseTime r
    /\ (status r = up ->
        errorMessage r = None
        /\ exists code, statusCode r = Some code /\ code < 400)
    /\ (status r = down -> exists message, errorMessage r = Some message)
    /\ (statusCode r = None -> status r = down).
Proof.
  exists (probeResult env website). rewrite probe_run.
  pose proof (elapsed_nonneg env website) as Hel.
  unfold probed. cbn [now setNow].
  unfold probeResult, elapsed in *.
  destruct (settle env (Website.url website)) as [[res|err] dt]; simpl in *.
  - split; [reflexivity|]. split; [reflexivity|]. split; [exact Hel|].
    destruct (Z.ltb_spec res 400); repeat split; try discriminate; eauto.
  - split; [reflexivity|]. split; [reflexivity|]. split; [exact Hel|].
    repeat split; try discriminate; eauto.
Qed.

(** ** Incident ids *)

Lemma resolveRow_id id t d i :
  Incident.id (Prisma.resolveRow id t d i) = Incident.id i.
Proof. unfold Prisma.resolveRow. case_bool_decide; reflexivity. Qed.

Lemma resolveRow_ids id t d l :
  map Incident.id (map (Prisma.resolveRow id t d) l) = map Incident.id l.
Proof.
  rewrite map_map. apply map_ext. intros i. apply resolveRow_id.
Qed.

(** The id counter moves exactly when an incident is created. *)
Lemma performCheck_nextId env id w :
  let w' := snd (performCheck env id w) in
  (nextIncidentId w' = nextIncidentId w
   /\ map Incident.id (incidents w') = map Incident.id (incidents w))
  \/ (nextIncidentId w' = S (nextIncidentId w)
      /\ exists t, incidents w'
                   = incidents w
                     ++ [Prisma.newIncident (nextIncidentId w) id true t]).
Proof.
  cbv zeta. rewrite performCheck_cases.
  destruct (dbFault env (dbCalls w)); [left; split; reflexivity|].
  destruct (websites w !! id) as [site|]; [|left; split; reflexivity].
  cbv zeta.
  destruct (dbFault env (1 + dbCalls w)); [left; split; reflexivity|].
  destruct (dbFault env (2 + dbCalls w)); [left; split; reflexivity|].
  set (w3 := recorded env id site w).
  assert (Hfresh : websites w3 !! id = Some (refreshed env site w))
    by apply recorded_lookup.
  destruct (decide (Website.lastStatus site = "up")) as [Hup|Hnup];
    [|destruct (decide (Website.lastStatus site = "down")) as [Hdn|Hndn]];
    destruct (status (probeResult env site)) eqn:Hst;
    try (left; rewrite stateChange_quiet;
         [split; reflexivity | |]; rewrite ?Hst; intros [? ?]; congruence).
  - rewrite stateChange_went_down by assumption. cbv zeta. rewrite Hfresh.
    destruct (dbFault env (dbCalls w3)); [left; split; reflexivity|].
    right.
    destruct (dbFault env (1 + dbCalls w3)); [split; [reflexivity|eauto]|].
    rewrite (keeps_notifyDown nextIncidentId), (keeps_notifyDown incidents)
      by reflexivity.
    split; [reflexivity|eauto].
  - rewrite stateChange_back_up by assumption. cbv zeta. rewrite Hfresh.
    destruct (dbFault env (dbCalls w3)); [left; split; reflexivity|].
    destruct (Prisma.mostRecent _) as [inc|]; [|left; split; reflexivity].
    destruct (dbFault env (1 + dbCalls w3)); [left; split; reflexivity|].
    left.
    destruct (dbFault env (2 + dbCalls w3)).
    + split; [reflexivity|]. simpl. apply resolveRow_ids.
    + rewrite (keeps_notifyUp nextIncidentId), (keeps_notifyUp incidents)
        by reflexivity.
      split; [reflexivity|]. simpl. apply resolveRow_ids.
Qed.

Lemma same_id_same_row (l : list Incident.t) i j :
  NoDup (map Incident.id l) -> In i l -> In j l ->
  Incident.id i = Incident.id j -> i = j.
Proof.
  induction l as [|a l IH]; simpl; [tauto|].
  intros Hnd [->|Hi] [->|Hj] Hid; try reflexivity.
  - apply NoDup_cons in Hnd as [Hnot _]. exfalso. apply Hnot.
    rewrite Hid. apply list_elem_of_In, in_map, Hj.
  - apply NoDup_cons in Hnd as [Hnot _]. exfalso. apply Hnot.
    rewrite <- Hid. apply list_elem_of_In, in_map, Hi.
  - apply NoDup_cons in Hnd as [_ Hnd]. auto.
Qed.

(** With distinct ids, resolving one open incident of a site lowers the
    site's count of open incidents by exactly one. *)
Lemma openCount_resolve_exact site t d l inc :
  NoDup (map Incident.id l) -> In inc l ->
  Incident.isOpenFor site inc = true ->
  S (openCount site (map (Prisma.resolveRow (Incident.id inc) t d) l))
  = openCount site l.
Proof.
  intros Hnd Hin Hopen. induction l as [|a l IH]; [destruct Hin|].
  simpl. rewrite !openCount_cons.
  apply NoDup_cons in Hnd as [Hnot Hnd].
  destruct Hin as [->|Hin].
  - assert (Hrest : map (Prisma.resolveRow (Incident.id inc) t d) l = l).
    { transitivity (map (fun x => x) l); [|apply map_id].
      apply map_ext_in. intros j Hj.
      unfold Prisma.resolveRow. rewrite bool_decide_eq_false_2; [reflexivity|].
      intros Hid. apply Hnot. rewrite <- Hid.
      apply list_elem_of_In, in_map, Hj. }
    rewrite Hrest.
    destruct (resolveRow_cases site (Incident.id inc) t d inc)
      as [[_ ->]|[Hne _]]; [|congruence].
    rewrite Hopen. reflexivity.
  - specialize (IH Hnd Hin).
    destruct (resolveRow_cases site (Incident.id inc) t d a)
      as [[Hid _]|[_ ->]].
    + exfalso. apply Hnot. rewrite Hid.
      apply list_elem_of_In, in_map, Hin.
    + destruct (Incident.isOpenFor site a); simpl; lia.
Qed.

(** X5. Incident ids stay distinct, and with distinct ids a check changes
    at most one incident: every incident that is already resolved, or that
    belongs to another site, stays in the table as it is, and the number
    of open incidents of the checked site drops by at most one. *)
Theorem performCheck_keeps_history env id w :
  idsFresh w ->
  let w' := snd (performCheck env id w) in
  idsFresh w'
  /\ (forall i, In i (incidents w) ->
        Incident.resolvedAt i <> None \/ Incident.websiteId i <> id ->
        In i (incidents w'))
  /\ (openCount id (incidents w) <= S (openCount id (incidents w')))%nat.
Proof.
  intros [Hlt Hnd] w'. split; [|split].
  - destruct (performCheck_nextId env id w) as [[Hn Hids] | [Hn [t Hinc]]];
      fold w' in Hn; unfold idsFresh.
    + fold w' in Hids. rewrite Hn, Hids. split; [|exact Hnd].
      rewrite Forall_forall in *. intros i Hi.
      assert (Hin : In (Incident.id i) (map Incident.id (incidents w)))
        by (rewrite <- Hids; apply in_map, list_elem_of_In, Hi).
      apply in_map_iff in Hin as (j & Hj & Hjin). rewrite <- Hj.
      apply Hlt, list_elem_of_In, Hjin.
    + fold w' in Hinc. rewrite Hn, Hinc. split.
      * apply Forall_app. split.
        -- eapply Forall_impl; [exact Hlt|]. simpl. intros; lia.
        -- constructor; [simpl; lia | constructor].
      * rewrite map_app. simpl. apply NoDup_app. split; [exact Hnd|].
        split; [|repeat constructor; apply not_elem_of_nil].
        intros n Hn1 Hn2. apply list_elem_of_singleton in Hn2 as ->.
        apply list_elem_of_In, in_map_iff in Hn1 as (j & Hj & Hjin).
        rewrite Forall_forall in Hlt.
        specialize (Hlt j (proj2 (list_elem_of_In _ _) Hjin)). lia.
  - intros i Hi Hkeep.
    destruct (performCheck_incidents env id w)
      as [Heq | [(s & _ & _ & _ & _ & Heq)
                | (s & inc & _ & _ & _ & Hinc & _ & Heq)]];
      fold w' in Heq; cbv zeta in Heq; rewrite Heq.
    + exact Hi.
    + apply in_or_app. left. exact Hi.
    + apply findFirst_open in Hinc as [Hin Hopen].
      apply in_map_iff. exists i. split; [|exact Hi].
      unfold Prisma.resolveRow.
      rewrite bool_decide_eq_false_2; [reflexivity|].
      intros Hid. assert (i = inc) by (eapply same_id_same_row; eauto).
      subst i. unfold Incident.isOpenFor in Hopen.
      apply andb_prop in Hopen as [H1 H2].
      apply bool_decide_eq_true in H1, H2. destruct Hkeep; congruence.
  - destruct (performCheck_incidents env id w)
      as [Heq | [(s & _ & _ & _ & _ & Heq)
                | (s & inc & _ & _ & _ & Hinc & _ & Heq)]];
      fold w' in Heq; cbv zeta in Heq; rewrite Heq.
    + lia.
    + rewrite openCount_app. lia.
    + apply findFirst_open in Hinc as [Hin Hopen].
      match goal with
      | |- context [map (Prisma.resolveRow _ ?t ?d) _] =>
          pose proof (openCount_resolve_exact id t d (incidents w) inc
                        Hnd Hin Hopen)
      end.
      lia.
Qed.

Lemma performCheck_keeps_history_witness :
  idsFresh
    (snd (performCheck (Sample.env (Response 200) Sample.noFault false)
            "w1"
            (Sample.world Sample.siteDown [Sample.openIncident 0 1000]
               126500))).
Proof.
  refine (proj1 (performCheck_keeps_history
                   (Sample.env (Response 200) Sample.noFault false) "w1"
                   (Sample.world Sample.siteDown [Sample.openIncident 0 1000]
                      126500) _)).
  split.
  - repeat constructor.
  - repeat constructor. apply not_elem_of_nil.
Defined.

(** ** One tick of a site's timer chain *)

(** X7. A tick for a site that has been deleted or deactivated probes
    nothing and arms nothing: no Check is written, no table and no clock
    changes, the armed timeouts are as before, and the site's entry is
    removed from the timer map.  The site's chain ends there. *)
Theorem scheduleCheck_stops_chain env id w :
  websites w !! id = None
  \/ (exists site, websites w !! id = Some site
                   /\ Website.isActive site = false) ->
  let r := scheduleCheck env id w in
  checks (snd r) = checks w
  /\ incidents (snd r) = incidents w
  /\ websites (snd r) = websites w
  /\ sent (snd r) = sent w
  /\ now (snd r) = now w
  /\ eventLoop (snd r) = eventLoop w
  /\ (dbFault env (dbCalls w) = false ->
      fst r = Ok tt /\ timers (snd r) = delete id (timers w)).
Proof.
  intros Hgone. cbv zeta. rewrite scheduleCheck_cases.
  destruct (dbFault env (dbCalls w)); [repeat split; discriminate|].
  destruct Hgone as [-> | (site & -> & ->)]; repeat split.
Qed.

Lemma scheduleCheck_stops_chain_witness :
  let w := setWebsites (delete "w1") Sample.scheduled in
  let r := scheduleCheck (Sample.env (Response 200) Sample.noFault false)
             "w1" w in
  checks (snd r) = checks w /\ eventLoop (snd r) = eventLoop w.
Proof.
  destruct (scheduleCheck_stops_chain
              (Sample.env (Response 200) Sample.noFault false) "w1"
              (setWebsites (delete "w1") Sample.scheduled))
    as (H1 & _ & _ & _ & _ & H2 & _).
  - left. reflexivity.
  - split; assumption.
Defined.

(** After a check of an existing site that returns normally the probe
    has run. *)
Lemma performCheck_Ok_loop env id site w :
  websites w !! id = Some site ->
  fst (performCheck env id w) = Ok tt ->
  eventLoop (snd (performCheck env id w)) = probedLoop env site w
  /\ nextHandle (snd (performCheck env id w)) = S (nextHandle w).
Proof.
  intros Hsite. rewrite performCheck_cases, Hsite. cbv zeta.
  destruct (dbFault env (dbCalls w)); [discriminate|].
  destruct (dbFault env (1 + dbCalls w)); [discriminate|].
  destruct (dbFault env (2 + dbCalls w)); [discriminate|].
  intros _.
  rewrite (keeps_stateChange eventLoop), (keeps_stateChange nextHandle)
    by reflexivity.
  split; reflexivity.
Qed.

(** X8. A tick for an active site whose check returns normally replaces
    the timeout that fired by exactly one new timeout of the scheduler for
    the same site, due [checkInterval] seconds later (the interval read at
    the start of the tick), and records its handle under the site's id.
    Besides, the 15 s timer of the probe stays armed when the request was
    rejected before it fired, and only then. *)
Theorem fireTimer_rearms env handle delay id site w w2 :
  eventLoop w !! handle
  = Some {| timerCallback := RunScheduleCheck id; timerDelay := delay |} ->
  (forall h t, eventLoop w !! h = Some t -> (h < nextHandle w)%nat) ->
  websites w !! id = Some site ->
  Website.isActive site = true ->
  dbFault env (dbCalls w) = false ->
  performCheck env id
    (setDbCalls (1 + dbCalls w) (setEventLoop (delete handle) w))
  = (Ok tt, w2) ->
  let w' := worldOf (Monitor.fireTimer env handle w) in
  let next := {| timerCallback := RunScheduleCheck id;
                 timerDelay := Website.checkInterval site * 1000 |} in
  let abort := {| timerCallback := RunAbort; timerDelay := 15000 |} in
  Monitor.fireTimer env handle w = Continues w'
  /\ eventLoop w'
     = <[S (nextHandle w) := next]>
         (if abortLeft env site
          then <[nextHandle w := abort]> (delete handle (eventLoop w))
          else delete handle (eventLoop w))
  /\ size (eventLoop w')
     = (if abortLeft env site
        then S (size (eventLoop w)) else size (eventLoop w))
  /\ timers w' = <[id := S (nextHandle w)]> (timers w)
  /\ nextHandle w' = S (S (nextHandle w)).
Proof.
  intros Hh Hfresh Hsite Hactive F0 Hok. cbv zeta.
  set (w0 := setEventLoop (delete handle) w).
  set (w1 := setDbCalls (1 + dbCalls w) w0).
  destruct (performCheck_Ok_loop env id site w1) as [Hloop2 Hnext2].
  { exact Hsite. }
  { fold w0 w1 in Hok. rewrite Hok. reflexivity. }
  fold w0 w1 in Hok. rewrite Hok in Hloop2, Hnext2.
  cbn [snd] in Hloop2, Hnext2.
  change (nextHandle w1) with (nextHandle w) in Hnext2.
  destruct (scheduleCheck_rearms env id site w0 w2)
    as (Hr & Hloop & Htimers & Hnext & _); try assumption.
  cbv zeta in Hr, Hloop, Htimers, Hnext.
  assert (Hfire : Monitor.fireTimer env handle w
                  = Continues (snd (scheduleCheck env id w0))).
  { unfold Monitor.fireTimer. rewrite Hh. cbn [timerCallback]. fold w0.
    destruct (scheduleCheck env id w0) as [[[]|e] w3]; [reflexivity|].
    discriminate Hr. }
  rewrite Hfire. cbn [worldOf].
  assert (Hgone : delete handle (eventLoop w) !! nextHandle w = None).
  { apply lookup_delete_None. right.
    destruct (eventLoop w !! nextHandle w) as [t|] eqn:Ht; [|reflexivity].
    apply Hfresh in Ht. lia. }
  assert (Hgone' : delete handle (eventLoop w) !! S (nextHandle w) = None).
  { apply lookup_delete_None. right.
    destruct (eventLoop w !! S (nextHandle w)) as [t|] eqn:Ht; [|reflexivity].
    apply Hfresh in Ht. lia. }
  assert (Hprobed : eventLoop w2
                    = if abortLeft env site
                      then <[nextHandle w :=
                               {| timerCallback := RunAbort;
                                  timerDelay := 15000 |}]>
                             (delete handle (eventLoop w))
                      else delete handle (eventLoop w)).
  { rewrite Hloop2. unfold probedLoop.
    change (nextHandle w1) with (nextHandle w).
    change (eventLoop w1) with (delete handle (eventLoop w)).
    destruct (abortLeft env site); [reflexivity|].
    apply delete_id. exact Hgone. }
  split; [reflexivity|].
  split; [rewrite Hloop, Hnext2, Hprobed; reflexivity|].
  split.
  { rewrite Hloop, Hnext2, Hprobed.
    pose proof (map_size_delete_Some handle (eventLoop w)
                  (ex_intro _ _ Hh)) as Hsize.
    assert (Hpos : size (eventLoop w) <> 0%nat).
    { intros Hz. apply map_size_empty_iff in Hz.
      rewrite Hz, lookup_empty in Hh. discriminate. }
    destruct (abortLeft env site).
    - rewrite map_size_insert_None.
      + rewrite map_size_insert_None by exact Hgone. lia.
      + rewrite lookup_insert_ne by lia. exact Hgone'.
    - rewrite map_size_insert_None by exact Hgone'. lia. }
  split; [rewrite Htimers, Hnext2; reflexivity|].
  rewrite Hnext, Hnext2. reflexivity.
Qed.

Lemma fireTimer_rearms_witness :
  let env := Sample.env (NetworkError "TypeError" "fetch failed")
               Sample.noFault false in
  let w' := worldOf (Monitor.fireTimer env 0%nat Sample.scheduled) in
  Monitor.fireTimer env 0%nat Sample.scheduled = Continues w'
  /\ size (eventLoop w') = 3%nat.
Proof.
  destruct (fireTimer_rearms
              (Sample.env (NetworkError "TypeError" "fetch failed")
                 Sample.noFault false)
              0%nat 60000 "w1" Sample.site Sample.scheduled
              (snd (performCheck
                      (Sample.env (NetworkError "TypeError" "fetch failed")
                         Sample.noFault false) "w1"
                      (setDbCalls 1
                         (setEventLoop (delete 0%nat) Sample.scheduled)))))
    as (H1 & _ & H2 & _).
  - reflexivity.
  - intros h t Ht. simpl in Ht.
    apply lookup_insert_Some in Ht as [[<- _]|[_ Ht]]; [simpl; lia|].
    apply lookup_singleton_Some in Ht as [<- _]. simpl. lia.
  - reflexivity.
  - reflexivity.
  - reflexivity.
  - vm_compute. reflexivity.
  - cbv zeta. split; [exact H1|]. rewrite H2. reflexivity.
Defined.

(** ** Delivery *)

(** X9. With a recipient configured, the socket connected and the send
    going through, [sendNotification] sends exactly one message and logs
    it: to the target as it is for a site of kind group, and otherwise to
    the digits of the target followed by [@s.whatsapp.net]. *)
Theorem sendNotification_delivers env website message w :
  Website.notifyTarget website <> EmptyString ->
  connected w = true ->
  sendFault env (recipient website) message = false ->
  sendNotification env website message w
  = (Ok tt,
     setConsole (fun c => c ++ [sentLine website])
       (setSent (fun l => l ++ [(recipient website, message)]) w))
  /\ (Website.notifyType website = "group" ->
      recipient website = Website.notifyTarget website)
  /\ (Website.notifyType website <> "group" ->
      recipient website
      = WhatsApp.digitsOnly (Website.notifyTarget website)
          +:+ "@s.whatsapp.net").
Proof.
  intros Ht Hc Hf. rewrite sendNotification_cases.
  apply truthy_Some_nonempty in Ht. rewrite Ht, Hc, Hf.
  split; [reflexivity|]. unfold recipient. split; intros Hk.
  - rewrite bool_decide_eq_true_2 by exact Hk. reflexivity.
  - rewrite bool_decide_eq_false_2 by exact Hk. reflexivity.
Qed.

Lemma sendNotification_delivers_witness :
  sent (snd (sendNotification
               (Sample.env (Response 500) Sample.noFault false) Sample.site
               "text" (Sample.world Sample.site [] 0)))
  = [("628123@s.whatsapp.net", "text")].
Proof.
  destruct (sendNotification_delivers
              (Sample.env (Response 500) Sample.noFault false) Sample.site
              "text" (Sample.world Sample.site [] 0)) as (H & _).
  - discriminate.
  - reflexivity.
  - reflexivity.
  - rewrite H. reflexivity.
Defined.

(** X10. While the socket is not connected, a notification for a site with
    a recipient is dropped without an error: nothing is sent, the send
    function logs that it cannot send, and the notifier goes on to log
    the message as sent. *)
Theorem sendNotification_not_connected env website message w :
  Website.notifyTarget website <> EmptyString ->
  connected w = false ->
  sendNotification env website message w
  = (Ok tt,
     setConsole (fun c => c ++ [WhatsApp.notConnected; sentLine website]) w).
Proof.
  intros Ht Hc. rewrite sendNotification_cases.
  apply truthy_Some_nonempty in Ht. rewrite Ht, Hc.
  unfold setConsole. simpl. rewrite <- app_assoc. reflexivity.
Qed.

Lemma sendNotification_not_connected_witness :
  let w := mkWorld ∅ [] [] ∅ 0 0 0 ∅ ∅ 0 false [] [] in
  sent (snd (sendNotification
               (Sample.env (Response 500) Sample.noFault false) Sample.site
               "text" w)) = [].
Proof.
  cbv zeta. rewrite sendNotification_not_connected.
  - reflexivity.
  - discriminate.
  - reflexivity.
Defined.

(** X11. For a site that has its own template, a notification makes no
    persistence call and cannot fail: [notifyDown] and [notifyUp] return
    normally and leave the call counter where it was. *)
Theorem notify_with_own_template env website w :
  (Js.truthy (Website.downTemplate website) = true ->
   forall error code,
     let r := notifyDown env website error code w in
     fst r = Ok tt /\ dbCalls (snd r) = dbCalls w)
  /\ (Js.truthy (Website.upTemplate website) = true ->
      forall seconds,
        let r := notifyUp env website seconds w in
        fst r = Ok tt /\ dbCalls (snd r) = dbCalls w).
Proof.
  split; intros Ht; [intros error code | intros seconds]; cbv zeta.
  - rewrite notifyDown_run, resolveTemplate_cases, Ht.
    split; [apply sendNotification_Ok|].
    apply keeps_sendNotification; reflexivity.
  - rewrite notifyUp_run, resolveTemplate_cases, Ht.
    split; [apply sendNotification_Ok|].
    apply keeps_sendNotification; reflexivity.
Qed.

Lemma notify_with_own_template_witness :
  let website :=
    Website.mk "Homepage" "https://hanif.app" 60 true "up" None None
      (Some "{name} down") None "personal" "628123" in
  fst (notifyDown (Sample.env (Response 500) (fun _ => true) true) website
         "HTTP 500" (Some 500) (Sample.world Sample.site [] 0)) = Ok tt.
Proof.
  cbv zeta.
  refine (proj1 (proj1 (notify_with_own_template
            (Sample.env (Response 500) (fun _ => true) true)
            (Website.mk "Homepage" "https://hanif.app" 60 true "up" None
               None (Some "{name} down") None "personal" "628123")
            (Sample.world Sample.site [] 0)) _ "HTTP 500" (Some 500))).
  reflexivity.
Defined.

Lemma digitsOnly_app a b :
  WhatsApp.digitsOnly (a +:+ b)
  = WhatsApp.digitsOnly a +:+ WhatsApp.digitsOnly b.
Proof.
  induction a as [|c t IH]; [reflexivity|].
  change (String c t +:+ b) with (String c (t +:+ b)). simpl.
  destruct (WhatsApp.isDigit c); rewrite IH; reflexivity.
Qed.

(** X12. Cleaning a phone number keeps its digits, in order, and nothing
    else: the result consists of digits only, a string of digits is left
    as it is (so cleaning twice is cleaning once), and cleaning commutes
    with concatenation. *)
Theorem digitsOnly_spec (s : string) :
  allDigits (WhatsApp.digitsOnly s) = true
  /\ WhatsApp.digitsOnly (WhatsApp.digitsOnly s) = WhatsApp.digitsOnly s
  /\ (allDigits s = true -> WhatsApp.digitsOnly s = s)
  /\ (forall t, WhatsApp.digitsOnly (s +:+ t)
                = WhatsApp.digitsOnly s +:+ WhatsApp.digitsOnly t).
Proof.
  assert (Hfix : forall u, allDigits u = true -> WhatsApp.digitsOnly u = u).
  { induction u as [|c t IH]; simpl; [reflexivity|].
    intros [Hc Ht]%andb_prop. rewrite Hc, (IH Ht). reflexivity. }
  assert (Hall : allDigits (WhatsApp.digitsOnly s) = true).
  { induction s as [|c t IH]; simpl; [reflexivity|].
    destruct (WhatsApp.isDigit c) eqn:Hc; simpl; [rewrite Hc|]; exact IH. }
  split; [exact Hall|]. split; [apply Hfix, Hall|].
  split; [apply Hfix|]. intros t. apply digitsOnly_app.
Qed.

Lemma digitsOnly_spec_witness :
  WhatsApp.digitsOnly "6287872753959" = "6287872753959".
Proof.
  refine (proj1 (proj2 (proj2 (digitsOnly_spec "6287872753959"))) _).
  reflexivity.
Defined.

(** ** Templates and durations *)

Lemma noClosingBrace_app a b :
  noClosingBrace (a +:+ String "}" b) = false.
Proof.
  induction a as [|c t IH]; [reflexivity|].
  change (String c t +:+ String "}" b) with (String c (t +:+ String "}" b)).
  simpl. rewrite IH. apply andb_false_r.
Qed.

(** X13. A template without an opening brace, or without a closing brace,
    is returned as it is, whatever the variable map holds. *)
Theorem renderTemplate_plain template vars :
  noBrace template = true \/ noClosingBrace template = true ->
  renderTemplate template vars = template.
Proof.
  intros [H|H].
  - rewrite <- (append_empty_r template) at 1.
    rewrite renderTemplate_text by exact H.
    rewrite renderTemplate_empty. apply append_empty_r.
  - induction template as [|c t IH]; [reflexivity|].
    simpl in H. apply andb_prop in H as [_ Ht].
    rewrite renderTemplate_literal; [rewrite (IH Ht); reflexivity|].
    destruct (matchPlaceholder (String c t)) as [[key rest]|] eqn:Hm;
      [|reflexivity].
    apply matchPlaceholder_elim in Hm as [Hs _].
    injection Hs as _ ->. rewrite noClosingBrace_app in Ht. discriminate.
Qed.

Lemma renderTemplate_plain_witness :
  renderTemplate "site {name is down" (<["name" := "x"]> ∅)
  = "site {name is down".
Proof.
  apply renderTemplate_plain. right. reflexivity.
Defined.

Lemma render_default_down website error code time :
  renderTemplate DEFAULT_DOWN_TEMPLATE (downVars website error code time)
  = "🔴 *" +:+ Website.name website +:+ "* is DOWN
URL: " +:+ Website.url website +:+ "
Error: " +:+ error +:+ "
Time: " +:+ time.
Proof.
  change DEFAULT_DOWN_TEMPLATE with
    ("🔴 *" +:+ String "{" ("name" +:+ String "}" ("* is DOWN
URL: " +:+ String "{" ("url" +:+ String "}" ("
Error: " +:+ String "{" ("error" +:+ String "}" ("
Time: " +:+ String "{" ("time" +:+ String "}" EmptyString)))))))).
  repeat (rewrite renderTemplate_text by reflexivity;
          rewrite renderTemplate_placeholder by reflexivity;
          erewrite substitute_own by reflexivity).
  rewrite renderTemplate_empty, append_empty_r. reflexivity.
Qed.

(** X14. The built-in templates use only variables the notifier supplies:
    for every site, error text, status code, downtime and time string they
    render to the four lines with the site's name and URL, the error or
    the humanized downtime, and the time, with no placeholder left over. *)
Theorem default_templates_render website error code seconds time :
  renderTemplate DEFAULT_DOWN_TEMPLATE (downVars website error code time)
  = "🔴 *" +:+ Website.name website +:+ "* is DOWN
URL: " +:+ Website.url website +:+ "
Error: " +:+ error +:+ "
Time: " +:+ time
  /\ renderTemplate DEFAULT_UP_TEMPLATE (upVars website seconds time)
     = "🟢 *" +:+ Website.name website +:+ "* is back UP
URL: " +:+ Website.url website +:+ "
Downtime: " +:+ Utils.formatDuration seconds +:+ "
Time: " +:+ time.
Proof. split; [apply render_default_down | apply render_default_up]. Qed.

(** X15. The pattern recognises a placeholder at the start of a text
    exactly when the text is an opening brace, one or more letters, digits
    or underscores, and a closing brace; the key is what stands between
    the braces and the match ends at the first closing brace. *)
Theorem matchPlaceholder_iff s key rest :
  matchPlaceholder s = Some (key, rest)
  <-> s = String "{" (key +:+ String "}" rest) /\ isIdentifier key = true.
Proof.
  split.
  - apply matchPlaceholder_elim.
  - intros [-> Hk]. apply matchPlaceholder_intro, Hk.
Qed.

(** X16. From one hour on a duration is shown in whole minutes: the
    seconds are dropped, so a duration and the same duration cut to the
    minute are rendered alike. *)
Theorem formatDuration_whole_minutes (n : Z) :
  3600 <= n ->
  Utils.formatDuration n = Utils.formatDuration (60 * (n / 60)).
Proof.
  intros Hn.
  assert (Hq : 60 <= n / 60) by (apply Z.div_le_lower_bound; lia).
  assert (Hh : 60 * (n / 60) / 3600 = n / 3600).
  { rewrite (Z.mul_comm 60), <- (Z.div_div _ 60 60) by lia.
    rewrite Z.div_mul by lia.
    rewrite Z.div_div by lia. reflexivity. }
  assert (Hm : (60 * (n / 60)) mod 3600 / 60 = n mod 3600 / 60).
  { change 3600 with (60 * 60).
    rewrite !Z.rem_mul_r by lia.
    rewrite (Z.mul_comm 60 (n / 60)), Z.mod_mul, Z.div_mul by lia.
    rewrite Z.add_0_l.
    rewrite (Z.mul_comm 60 ((n / 60) mod 60)), Z.div_mul by lia.
    rewrite Z.div_add by lia.
    rewrite (Z.div_small (n mod 60)) by (apply Z.mod_pos_bound; lia).
    reflexivity. }
  unfold Utils.formatDuration.
  rewrite !Z.rem_mod_nonneg by lia.
  destruct (Z.ltb_spec n 60); [lia|].
  destruct (Z.ltb_spec n 3600); [lia|].
  destruct (Z.ltb_spec (60 * (n / 60)) 60); [lia|].
  destruct (Z.ltb_spec (60 * (n / 60)) 3600); [lia|].
  cbv zeta. rewrite Hh, Hm. reflexivity.
Qed.

Lemma formatDuration_whole_minutes_witness :
  Utils.formatDuration 3725 = Utils.formatDuration 3720.
Proof.
  apply (formatDuration_whole_minutes 3725). lia.
Defined.

(** ** Retention *)

Lemma cleanupOldChecks_run env w :
  cleanupOldChecks env w =
  if dbFault env (dbCalls w)
  then (Throw Prisma.requestError, setDbCalls (1 + dbCalls w) w)
  else
    let old c := Check.checkedAt c <? now w - retentionMs in
    let count := length (List.filter old (checks w)) in
    let w1 := setChecks (List.filter (fun c => negb (old c)))
                (setDbCalls (1 + dbCalls w) w) in
    (Ok tt,
     if (0 <? count)%nat
     then setConsole (fun c => c ++ [cleanedUpLine count]) w1
     else w1).
Proof.
  unfold cleanupOldChecks, bind, dateNow, gets, Prisma.check_deleteMany,
    bind, Prisma.call, gets, modify.
  destruct (dbFault env (dbCalls w)); [reflexivity|]. simpl.
  destruct (0 <? _)%nat; reflexivity.
Qed.

Lemma filter_length_split {A} (f : A -> bool) (l : list A) :
  (length (List.filter f l)
   + length (List.filter (fun x => negb (f x)) l))%nat = length l.
Proof.
  induction l as [|a l IH]; [reflexivity|].
  simpl. destruct (f a); simpl; lia.
Qed.

Lemma filter_all {A} (f : A -> bool) (l : list A) :
  (forall x, In x l -> f x = true) -> List.filter f l = l.
Proof.
  induction l as [|a l IH]; [reflexivity|].
  intros H. simpl. rewrite (H a) by (left; reflexivity).
  rewrite IH; [reflexivity|]. intros x Hx. apply H. right. exact Hx.
Qed.

Lemma cleanupOldChecks_fields env w :
  let w' := snd (cleanupOldChecks env w) in
  let old c := Check.checkedAt c <? now w - retentionMs in
  let count := length (List.filter old (checks w)) in
  now w' = now w /\ websites w' = websites w /\ incidents w' = incidents w
  /\ settings w' = settings w
  /\ (dbFault env (dbCalls w) = true ->
      checks w' = checks w /\ console w' = console w)
  /\ (dbFault env (dbCalls w) = false ->
      fst (cleanupOldChecks env w) = Ok tt
      /\ checks w' = List.filter (fun c => negb (old c)) (checks w)
      /\ console w' = if (0 <? count)%nat
                      then console w ++ [cleanedUpLine count]
                      else console w).
Proof.
  cbv zeta. rewrite cleanupOldChecks_run.
  destruct (dbFault env (dbCalls w));
    [repeat split; discriminate|].
  cbv zeta. destruct (0 <? _)%nat; repeat split; discriminate.
Qed.

(** X17. The retention job deletes exactly the Check rows that are older
    than 90 days and keeps all the others in their order; it logs the
    number of rows it deleted, and nothing when there were none; run again
    at once it deletes nothing more.  No other table is touched. *)
Theorem cleanupOldChecks_spec env w :
  dbFault env (dbCalls w) = false ->
  let r := cleanupOldChecks env w in
  let cutoff := now w - retentionMs in
  let deleted := (length (checks w) - length (checks (snd r)))%nat in
  fst r = Ok tt
  /\ checks (snd r)
     = List.filter (fun c => negb (Check.checkedAt c <? cutoff)) (checks w)
  /\ (forall c, In c (checks (snd r))
                <-> In c (checks w) /\ cutoff <= Check.checkedAt c)
  /\ console (snd r)
     = (if (0 <? deleted)%nat
        then console w ++ [cleanedUpLine deleted]
        else console w)
  /\ (forall env', checks (snd (cleanupOldChecks env' (snd r)))
                   = checks (snd r))
  /\ websites (snd r) = websites w
  /\ incidents (snd r) = incidents w
  /\ settings (snd r) = settings w.
Proof.
  intros F0. cbv zeta.
  destruct (cleanupOldChecks_fields env w)
    as (Hnow & Hweb & Hinc & Hset & _ & H).
  destruct (H F0) as (Hok & Hchecks & Hconsole). clear H.
  cbv zeta in *.
  pose proof (filter_length_split
                (fun c => Check.checkedAt c <? now w - retentionMs)
                (checks w)) as Hsplit.
  cbv beta in Hsplit. rewrite <- Hchecks in Hsplit.
  assert (Hcount : length
                     (List.filter
                        (fun c => Check.checkedAt c <? now w - retentionMs)
                        (checks w))
                   = (length (checks w)
                      - length (checks (snd (cleanupOldChecks env w))))%nat)
    by lia.
  rewrite Hcount in Hconsole.
  assert (Hin : forall c, In c (checks (snd (cleanupOldChecks env w)))
                          <-> In c (checks w)
                              /\ now w - retentionMs <= Check.checkedAt c).
  { intros c. rewrite Hchecks, filter_In.
    destruct (Z.ltb_spec (Check.checkedAt c) (now w - retentionMs));
      simpl; split; intros [? ?]; split; try assumption; try lia;
      try discriminate; reflexivity. }
  split; [exact Hok|]. split; [exact Hchecks|]. split; [exact Hin|].
  split; [exact Hconsole|]. split; [|auto].
  intros env'.
  destruct (cleanupOldChecks_fields env' (snd (cleanupOldChecks env w)))
    as (_ & _ & _ & _ & Hfault & Hnofault).
  cbv zeta in *.
  destruct (dbFault env' _); [apply Hfault; reflexivity|].
  destruct (Hnofault eq_refl) as (_ & -> & _).
  apply filter_all. intros c Hc. apply Hin in Hc as [_ Hc].
  rewrite Hnow. apply negb_true_iff, Z.ltb_ge. exact Hc.
Qed.

Lemma cleanupOldChecks_spec_witness :
  let w := setChecks
             (fun _ => [Check.mk "w1" up (Some 200) 80 None 1000;
                        Check.mk "w1" up (Some 200) 90 None 864000000])
             (Sample.world Sample.site [] (91 * 24 * 60 * 60 * 1000)) in
  checks (snd (cleanupOldChecks
                 (Sample.env (Response 200) Sample.noFault false) w))
  = [Check.mk "w1" up (Some 200) 90 None 864000000].
Proof.
  cbv zeta.
  rewrite (proj1 (proj2 (cleanupOldChecks_spec
             (Sample.env (Response 200) Sample.noFault false)
             (setChecks
                (fun _ => [Check.mk "w1" up (Some 200) 80 None 1000;
                           Check.mk "w1" up (Some 200) 90 None 864000000])
                (Sample.world Sample.site [] (91 * 24 * 60 * 60 * 1000)))
             eq_refl))).
  reflexivity.
Defined.

(** ** Stopping and starting *)

Lemma clearTimeouts_lookup handles (loop : gmap nat Timer) h :
  Scheduler.clearTimeouts handles loop !! h
  = if decide (h ∈ handles) then None else loop !! h.
Proof.
  unfold Scheduler.clearTimeouts. revert loop.
  induction handles as [|a l IH]; intros loop; cbn [fold_left].
  - destruct (decide (h ∈ [])) as [H|_]; [|reflexivity].
    apply elem_of_nil in H. destruct H.
  - rewrite IH.
    destruct (decide (h ∈ l)) as [Hin|Hnin].
    + rewrite decide_True by (apply elem_of_cons; right; exact Hin).
      reflexivity.
    + destruct (decide (a = h)) as [->|Hne].
      * rewrite decide_True by (apply elem_of_cons; left; reflexivity).
        apply lookup_delete_eq.
      * rewrite decide_False
          by (intros [?|?]%elem_of_cons; congruence).
        apply lookup_delete_ne. exact Hne.
Qed.

Lemma registered_handle (w : World) key h :
  timers w !! key = Some h -> h ∈ map snd (map_to_list (timers w)).
Proof.
  intros H. apply elem_of_map_to_list in H.
  apply list_elem_of_In. apply list_elem_of_In in H.
  apply (in_map snd) in H. exact H.
Qed.

Lemma stopMonitor_world (s : Scheduler.t) :
  Scheduler.world (Scheduler.stopMonitor s)
  = setConsole (fun c => c ++ [Scheduler.stoppedLine])
      (setTimers (fun _ => ∅)
         (setEventLoop
            (Scheduler.clearTimeouts
               (map snd (map_to_list (timers (Scheduler.world s)))))
            (Scheduler.world s))).
Proof.
  unfold Scheduler.stopMonitor.
  destruct (Scheduler.cleanupTimer s); reflexivity.
Qed.

Lemma stopMonitor_loop (s : Scheduler.t) h :
  eventLoop (Scheduler.world (Scheduler.stopMonitor s)) !! h
  = if decide (h ∈ map snd (map_to_list (timers (Scheduler.world s))))
    then None else eventLoop (Scheduler.world s) !! h.
Proof. rewrite stopMonitor_world. simpl. apply clearTimeouts_lookup. Qed.

Lemma stopMonitor_disarms (s : Scheduler.t) :
  wellTimers (Scheduler.world s) ->
  eventLoop (Scheduler.world (Scheduler.stopMonitor s)) = ∅.
Proof.
  intros [Hreg _]. apply map_eq. intros h.
  rewrite lookup_empty, stopMonitor_loop.
  destruct (decide (h ∈ map snd (map_to_list (timers (Scheduler.world s)))))
    as [Hin|Hnin]; [reflexivity|].
  destruct (eventLoop (Scheduler.world s) !! h) as [t|] eqn:Ht;
    [|reflexivity].
  exfalso. apply Hnin.
  destruct (Hreg h t Ht) as (_ & id & _ & _ & [Hk|Hk]);
    eapply registered_handle; exact Hk.
Qed.

(** X18. [stopMonitor] cancels every timeout whose handle is in the timer
    map and no other, empties the map, clears the cleanup interval and
    logs that it stopped; it leaves the tables alone.  From a state in
    which every armed timeout is registered, nothing is left armed. *)
Theorem stopMonitor_spec (s : Scheduler.t) :
  let w := Scheduler.world s in
  let s' := Scheduler.stopMonitor s in
  let w' := Scheduler.world s' in
  timers w' = ∅
  /\ Scheduler.cleanupTimer s' = None
  /\ (forall key h, timers w !! key = Some h -> eventLoop w' !! h = None)
  /\ (forall h, (forall key, timers w !! key <> Some h) ->
        eventLoop w' !! h = eventLoop w !! h)
  /\ Scheduler.intervals s'
     = match Scheduler.cleanupTimer s with
       | Some h => delete h (Scheduler.intervals s)
       | None => Scheduler.intervals s
       end
  /\ console w' = console w ++ [Scheduler.stoppedLine]
  /\ websites w' = websites w /\ checks w' = checks w
  /\ incidents w' = incidents w
  /\ (wellTimers w -> eventLoop w' = ∅).
Proof.
  cbv zeta. split; [rewrite stopMonitor_world; reflexivity|].
  split; [unfold Scheduler.stopMonitor;
          destruct (Scheduler.cleanupTimer s); reflexivity|].
  split.
  { intros key h Hk. rewrite stopMonitor_loop.
    rewrite decide_True by (eapply registered_handle; exact Hk).
    reflexivity. }
  split.
  { intros h Hno. rewrite stopMonitor_loop.
    rewrite decide_False; [reflexivity|].
    intros Hin.
    apply list_elem_of_In, in_map_iff in Hin as ([key h'] & Heq & Hin).
    simpl in Heq. subst h'.
    apply list_elem_of_In, elem_of_map_to_list in Hin.
    exact (Hno key Hin). }
  split; [unfold Scheduler.stopMonitor;
          destruct (Scheduler.cleanupTimer s); reflexivity|].
  rewrite stopMonitor_world. repeat (split; [reflexivity|]).
  rewrite <- stopMonitor_world. apply stopMonitor_disarms.
Qed.

Lemma stopMonitor_spec_witness :
  eventLoop (Scheduler.world
               (Scheduler.stopMonitor
                  (Scheduler.mk Sample.scheduled (Some 7%nat)
                     {[7%nat := Scheduler.cleanupPeriodMs]})))
    !! 0%nat = None.
Proof.
  refine (proj1 (proj2 (proj2 (stopMonitor_spec
            (Scheduler.mk Sample.scheduled (Some 7%nat)
               {[7%nat := Scheduler.cleanupPeriodMs]})))) "w1" 0%nat _).
  reflexivity.
Defined.

(** *** The timer map and the armed timeouts *)

Lemma init_key_inj a b : "init-" +:+ a = "init-" +:+ b -> a = b.
Proof. intros H. injection H as H. exact H. Qed.

Lemma init_key_prefix a b : noInitPrefix a = true -> a <> "init-" +:+ b.
Proof.
  intros H ->. unfold noInitPrefix in H. cbn in H.
  destruct b; discriminate H.
Qed.

Lemma wellTimers_idle (w : World) : eventLoop w = ∅ -> wellTimers w.
Proof.
  intros He. unfold wellTimers. rewrite He.
  split; intros *; rewrite lookup_empty; discriminate.
Qed.

Lemma wellTimers_checksRegistered (w : World) :
  wellTimers w -> checksRegistered w.
Proof.
  intros [Hreg Hone]. split; [|split].
  - intros h t Ht. apply (Hreg h t Ht).
  - intros h t id Ht Hc.
    destruct (Hreg h t Ht) as (_ & id' & Hc' & Hno & Hk).
    rewrite Hc in Hc'. injection Hc' as <-. split; assumption.
  - intros h h' t t' id Ht Ht' Hc Hc'.
    apply (Hone h h' t t' Ht Ht'). congruence.
Qed.

(** A world whose timeouts of the scheduler were all armed in [w]
    already, under the same timer map. *)
Lemma checksRegistered_sub (w w' : World) :
  (forall h t, eventLoop w' !! h = Some t -> (h < nextHandle w')%nat) ->
  (forall h t id,
     eventLoop w' !! h = Some t -> timerCallback t = RunScheduleCheck id ->
     eventLoop w !! h = Some t) ->
  timers w' = timers w ->
  checksRegistered w -> checksRegistered w'.
Proof.
  intros Hlt Hsub Ht (_ & Hreg & Hone). split; [exact Hlt|split].
  - intros h t id Hh Hc. rewrite Ht.
    apply (Hreg h t id); [|exact Hc]. eapply Hsub; eauto.
  - intros h h' t t' id Hh Hh' Hc Hc'.
    apply (Hone h h' t t' id); try assumption; eapply Hsub; eauto.
Qed.

Lemma checksRegistered_performCheck env id w :
  checksRegistered w -> checksRegistered (snd (performCheck env id w)).
Proof.
  intros Hw. apply (checksRegistered_sub w); [| | |exact Hw].
  - destruct Hw as (Hlt & _).
    destruct (performCheck_loop env id w) as [[-> ->]|(site & _ & -> & ->)];
      [exact Hlt|].
    intros h t. unfold probedLoop. destruct (abortLeft env site); intros H.
    + apply lookup_insert_Some in H as [[<- _]|[_ H]]; [lia|].
      apply Hlt in H. lia.
    + apply lookup_delete_Some in H as [_ H]. apply Hlt in H. lia.
  - intros h t id'. apply performCheck_arms_no_check.
  - apply performCheck_timers.
Qed.

(** Arming a timeout of the scheduler for a site that has none,
    registered under [key], which is the site's id or [init-<id>]. *)
Lemma checksRegistered_arm (w : World) site key delay :
  checksRegistered w ->
  noInitPrefix site = true ->
  key = site \/ key = "init-" +:+ site ->
  (forall h t, eventLoop w !! h = Some t ->
               timerCallback t <> RunScheduleCheck site) ->
  checksRegistered
    (setTimers <[key := nextHandle w]>
       (setNextHandle (S (nextHandle w))
          (setEventLoop
             <[nextHandle w := {| timerCallback := RunScheduleCheck site;
                                  timerDelay := delay |}]>
             w))).
Proof.
  intros (Hlt & Hreg & Hone) Hsite Hkey Hfree. split; [|split]; simpl.
  - intros h t Ht. apply lookup_insert_Some in Ht as [[<- _]|[_ Ht]]; [lia|].
    apply Hlt in Ht. lia.
  - intros h t id Ht Hc.
    apply lookup_insert_Some in Ht as [[<- <-]|[Hne Ht]].
    + simpl in Hc. injection Hc as <-. split; [exact Hsite|].
      destruct Hkey as [->| ->]; [left|right]; apply lookup_insert_eq.
    + destruct (Hreg h t id Ht Hc) as [Hno Hk]. split; [exact Hno|].
      assert (Hdiff : id <> site).
      { intros ->. exact (Hfree h t Ht Hc). }
      assert (K1 : key <> id).
      { destruct Hkey as [->| ->]; [congruence|].
        intros Heq. symmetry in Heq. revert Heq.
        apply init_key_prefix, Hno. }
      assert (K2 : key <> "init-" +:+ id).
      { destruct Hkey as [->| ->].
        - apply init_key_prefix, Hsite.
        - intros Heq%init_key_inj. congruence. }
      rewrite !lookup_insert_ne by assumption. exact Hk.
  - intros h h' t t' id Ht Ht' Hc Hc'.
    apply lookup_insert_Some in Ht as [[<- <-]|[Hne Ht]];
      apply lookup_insert_Some in Ht' as [[<- <-]|[Hne' Ht']].
    + reflexivity.
    + simpl in Hc. injection Hc as <-. destruct (Hfree h' t' Ht' Hc').
    + simpl in Hc'. injection Hc' as <-. destruct (Hfree h t Ht Hc).
    + eapply Hone; eauto.
Qed.

(** Forgetting the entry of a site that has no timeout armed. *)
Lemma checksRegistered_forget (w : World) site :
  checksRegistered w ->
  noInitPrefix site = true ->
  (forall h t, eventLoop w !! h = Some t ->
               timerCallback t <> RunScheduleCheck site) ->
  checksRegistered (setTimers (delete site) w).
Proof.
  intros (Hlt & Hreg & Hone) Hsite Hfree.
  split; [exact Hlt|split; [|exact Hone]]. simpl.
  intros h t id Ht Hc. destruct (Hreg h t id Ht Hc) as [Hno Hk].
  split; [exact Hno|].
  assert (Hdiff : id <> site).
  { intros ->. exact (Hfree h t Ht Hc). }
  rewrite !lookup_delete_ne; [exact Hk| |].
  - apply init_key_prefix, Hsite.
  - congruence.
Qed.

(** Once its timeout has fired, a site has none armed. *)
Lemma checksRegistered_fired (w : World) h t id :
  checksRegistered w -> eventLoop w !! h = Some t ->
  timerCallback t = RunScheduleCheck id ->
  checksRegistered (setEventLoop (delete h) w)
  /\ noInitPrefix id = true
  /\ (forall h' t', delete h (eventLoop w) !! h' = Some t' ->
        timerCallback t' <> RunScheduleCheck id).
Proof.
  intros Hw Ht Hc. split; [|split].
  - apply (checksRegistered_sub w); [| |reflexivity|exact Hw].
    + intros h' t' H. cbn [eventLoop setEventLoop] in H.
      apply lookup_delete_Some in H as [_ H].
      destruct Hw as (Hlt & _). exact (Hlt h' t' H).
    + intros h' t' id' H _. cbn [eventLoop setEventLoop] in H.
      apply lookup_delete_Some in H as [_ H]. exact H.
  - destruct Hw as (_ & Hreg & _). apply (Hreg h t id Ht Hc).
  - intros h' t' H Hc'. apply lookup_delete_Some in H as [Hne H].
    destruct Hw as (_ & _ & Hone). apply Hne.
    exact (Hone h h' t t' id Ht H Hc Hc').
Qed.

Lemma fireTimer_checksRegistered env handle w :
  checksRegistered w ->
  checksRegistered (worldOf (Monitor.fireTimer env handle w)).
Proof.
  intros Hw. unfold Monitor.fireTimer.
  destruct (eventLoop w !! handle) as [t|] eqn:Ht; [|exact Hw].
  cbv zeta.
  destruct (timerCallback t) as [id|] eqn:Hc.
  2:{ simpl. apply (checksRegistered_sub w); [| |reflexivity|exact Hw].
      - intros h' t' H. cbn [eventLoop setEventLoop] in H.
      apply lookup_delete_Some in H as [_ H].
        destruct Hw as (Hlt & _). exact (Hlt h' t' H).
      - intros h' t' id' H _. cbn [eventLoop setEventLoop] in H.
      apply lookup_delete_Some in H as [_ H].
        exact H. }
  destruct (checksRegistered_fired w handle t id Hw Ht Hc)
    as (Hw0 & Hsite & Hfree).
  set (w0 := setEventLoop (delete handle) w) in *.
  rewrite scheduleCheck_cases.
  destruct (dbFault env (dbCalls w0)).
  { simpl. apply (checksRegistered_sub w0); try reflexivity; try exact Hw0.
    - destruct Hw0 as (Hlt & _). exact Hlt.
    - intros h' t' id' H _. exact H. }
  cbv zeta.
  set (w1 := setDbCalls (1 + dbCalls w0) w0).
  assert (Hw1 : checksRegistered w1).
  { apply (checksRegistered_sub w0); try reflexivity; try exact Hw0.
    - destruct Hw0 as (Hlt & _). exact Hlt.
    - intros h' t' id' H _. exact H. }
  assert (Hforget : checksRegistered (setTimers (delete id) w1)).
  { apply checksRegistered_forget; [exact Hw1|exact Hsite|exact Hfree]. }
  destruct (websites w0 !! id) as [site|]; [|exact Hforget].
  destruct (Website.isActive site); [|exact Hforget].
  pose proof (checksRegistered_performCheck env id w1 Hw1) as Hw2.
  pose proof (performCheck_arms_no_check env id w1) as Hno.
  destruct (performCheck env id w1) as [[[]|e] w2];
    cbn [snd] in Hw2, Hno; cbn [worldOf]; [|exact Hw2].
  apply checksRegistered_arm; [exact Hw2|exact Hsite|left; reflexivity|].
  intros h' t' H' Hc'. apply (Hfree h' t'); [|exact Hc'].
  exact (Hno h' t' id H' Hc').
Qed.

(** [stopMonitor] clears every timeout of the scheduler; timers of
    probes stay armed. *)
Lemma stopMonitor_checks (s : Scheduler.t) h t :
  checksRegistered (Scheduler.world s) ->
  eventLoop (Scheduler.world (Scheduler.stopMonitor s)) !! h = Some t ->
  timerCallback t = RunAbort /\ eventLoop (Scheduler.world s) !! h = Some t.
Proof.
  intros (_ & Hreg & _). rewrite stopMonitor_loop.
  destruct (decide (h ∈ map snd (map_to_list (timers (Scheduler.world s)))))
    as [Hin|Hnin]; [discriminate|].
  intros Ht. split; [|exact Ht].
  destruct (timerCallback t) as [id|] eqn:Hc; [|reflexivity].
  exfalso. apply Hnin.
  destruct (Hreg h t id Ht Hc) as (_ & [Hk|Hk]);
    eapply registered_handle; exact Hk.
Qed.

Lemma stopMonitor_next (s : Scheduler.t) :
  nextHandle (Scheduler.world (Scheduler.stopMonitor s))
  = nextHandle (Scheduler.world s).
Proof. rewrite stopMonitor_world. reflexivity. Qed.

Lemma stopMonitor_timers (s : Scheduler.t) :
  timers (Scheduler.world (Scheduler.stopMonitor s)) = ∅.
Proof. rewrite stopMonitor_world. reflexivity. Qed.

Lemma stopMonitor_cleanup (s : Scheduler.t) :
  Scheduler.cleanupTimer (Scheduler.stopMonitor s) = None.
Proof.
  unfold Scheduler.stopMonitor. destruct (Scheduler.cleanupTimer s);
    reflexivity.
Qed.

Lemma stopMonitor_intervals (s : Scheduler.t) :
  Scheduler.intervals s
  = match Scheduler.cleanupTimer s with
    | Some h => {[h := Scheduler.cleanupPeriodMs]}
    | None => ∅
    end ->
  Scheduler.intervals (Scheduler.stopMonitor s) = ∅.
Proof.
  intros Hint. unfold Scheduler.stopMonitor.
  destruct (Scheduler.cleanupTimer s); simpl; rewrite Hint;
    [apply delete_singleton_eq|reflexivity].
Qed.

Lemma stopMonitor_tidy (s : Scheduler.t) :
  tidy s -> tidy (Scheduler.stopMonitor s).
Proof.
  intros [Hw Hint]. split.
  - destruct Hw as (Hlt & Hreg & Hone). split; [|split].
    + intros h t Ht. rewrite stopMonitor_next.
      apply (stopMonitor_checks s h t (conj Hlt (conj Hreg Hone))) in Ht
        as [_ Ht].
      exact (Hlt h t Ht).
    + intros h t id Ht Hc.
      apply (stopMonitor_checks s h t (conj Hlt (conj Hreg Hone))) in Ht
        as [Ha _].
      congruence.
    + intros h h' t t' id Ht _ Hc _.
      apply (stopMonitor_checks s h t (conj Hlt (conj Hreg Hone))) in Ht
        as [Ha _].
      congruence.
  - rewrite stopMonitor_cleanup. apply stopMonitor_intervals, Hint.
Qed.

Lemma stopMonitor_wellScheduled (s : Scheduler.t) :
  wellScheduled s ->
  eventLoop (Scheduler.world (Scheduler.stopMonitor s)) = ∅
  /\ timers (Scheduler.world (Scheduler.stopMonitor s)) = ∅
  /\ Scheduler.cleanupTimer (Scheduler.stopMonitor s) = None
  /\ Scheduler.intervals (Scheduler.stopMonitor s) = ∅
  /\ wellScheduled (Scheduler.stopMonitor s).
Proof.
  intros [Hw Hint].
  pose proof (stopMonitor_disarms s Hw) as Hloop.
  pose proof (stopMonitor_cleanup s) as Hc.
  pose proof (stopMonitor_intervals s Hint) as Hi.
  split; [exact Hloop|].
  split; [apply stopMonitor_timers|].
  split; [exact Hc|]. split; [exact Hi|].
  split; [apply wellTimers_idle, Hloop|]. rewrite Hc. exact Hi.
Qed.

End Further.

(** ** Starting the monitor *)

Section Starting.
Import Monitor.

Lemma findMany_active_run env w :
  Prisma.website_findMany_active env w
  = (if dbFault env (dbCalls w)
     then Throw Prisma.requestError else Ok (activeSites w),
     setDbCalls (S (dbCalls w)) w).
Proof.
  unfold Prisma.website_findMany_active, bind, Prisma.call, gets.
  destruct (dbFault env (dbCalls w)); reflexivity.
Qed.

Lemma activeSites_In w id site :
  In (id, site) (activeSites w)
  <-> websites w !! id = Some site /\ Website.isActive site = true.
Proof.
  unfold activeSites. rewrite filter_In, <- list_elem_of_In.
  rewrite elem_of_map_to_list. reflexivity.
Qed.

Lemma NoDup_fst_filter {A B : Type} (f : A * B -> bool) (l : list (A * B)) :
  NoDup (map fst l) -> NoDup (map fst (List.filter f l)).
Proof.
  induction l as [|p l IH]; simpl; intros Hnd; [constructor|].
  inversion Hnd as [|? ? Hnotin Hnd']; subst.
  destruct (f p); [|exact (IH Hnd')].
  simpl. constructor; [|exact (IH Hnd')].
  intros Hin. apply Hnotin.
  apply list_elem_of_In, in_map_iff in Hin as (q & Hq & Hin).
  apply list_elem_of_In, in_map_iff. exists q. split; [exact Hq|].
  apply filter_In in Hin as [Hin _]. exact Hin.
Qed.

Lemma activeSites_NoDup w : NoDup (map fst (activeSites w)).
Proof. apply NoDup_fst_filter, (NoDup_fst_map_to_list (websites w)). Qed.

Lemma armInitial_cons d i id site rest w :
  Scheduler.armInitial d i ((id, site) :: rest) w
  = Scheduler.armInitial d (S i) rest
      (setTimers <["init-" +:+ id := nextHandle w]>
         (setNextHandle (S (nextHandle w))
            (setEventLoop
               <[nextHandle w :=
                   {| timerCallback := RunScheduleCheck id;
                      timerDelay := Scheduler.initialDelay d i |}]> w))).
Proof. reflexivity. Qed.

(** The loop of [startMonitor] over sites with distinct ids that have no
    timeout yet: it arms one timeout per site, in order, and registers it
    under [init-<id>]. *)
Lemma armInitial_run d l :
  forall i w,
  checksRegistered w ->
  NoDup (map fst l) ->
  (forall p, In p l -> noInitPrefix (fst p) = true) ->
  (forall h t p, eventLoop w !! h = Some t -> In p l ->
                 timerCallback t <> RunScheduleCheck (fst p)) ->
  exists w',
    Scheduler.armInitial d i l w = (Ok tt, w')
    /\ checksRegistered w'
    /\ nextHandle w' = (nextHandle w + length l)%nat
    /\ websites w' = websites w /\ checks w' = checks w
    /\ incidents w' = incidents w /\ console w' = console w
    /\ sent w' = sent w /\ dbCalls w' = dbCalls w
    /\ (forall h t, eventLoop w' !! h = Some t <->
          eventLoop w !! h = Some t
          \/ exists k p, l !! k = Some p /\ h = (nextHandle w + k)%nat
               /\ t = {| timerCallback := RunScheduleCheck (fst p);
                         timerDelay := Scheduler.initialDelay d (i + k) |})
    /\ (forall k p, l !! k = Some p ->
          timers w' !! ("init-" +:+ fst p) = Some (nextHandle w + k)%nat)
    /\ (forall key, (forall p, In p l -> key <> "init-" +:+ fst p) ->
          timers w' !! key = timers w !! key).
Proof.
  induction l as [|[id site] rest IH]; intros i w Hw Hnd Hids Hfree.
  - exists w. simpl. repeat (split; [first [reflexivity | exact Hw | lia]|]).
    split; [|split].
    + intros h t. split; [intros H; left; exact H|].
      intros [H|(k & p & Hk & _)]; [exact H|].
      rewrite lookup_nil in Hk. discriminate.
    + intros k p Hk. rewrite lookup_nil in Hk. discriminate.
    + reflexivity.
  - rewrite armInitial_cons.
    set (n := nextHandle w).
    set (w1 := setTimers _ _).
    inversion Hnd as [|? ? Hnotin Hnd']; subst.
    assert (Hw1 : checksRegistered w1).
    { apply checksRegistered_arm; [exact Hw| |right; reflexivity|].
      - apply (Hids (id, site)). left. reflexivity.
      - intros h t Ht. apply (Hfree h t (id, site) Ht). left. reflexivity. }
    assert (Hloop1 : forall h t, eventLoop w1 !! h = Some t <->
              (h = n /\ t = {| timerCallback := RunScheduleCheck id;
                               timerDelay := Scheduler.initialDelay d i |})
              \/ (h <> n /\ eventLoop w !! h = Some t)).
    { intros h t. subst w1. simpl.
      destruct (decide (n = h)) as [<-|Hne].
      - rewrite lookup_insert_eq. split.
        + intros H. injection H as <-. left. split; reflexivity.
        + intros [[_ ->]|[Hc _]]; [reflexivity|congruence].
      - rewrite lookup_insert_ne by exact Hne. split.
        + intros H. right. split; [congruence|exact H].
        + intros [[Hc _]|[_ H]]; [congruence|exact H]. }
    destruct (IH (S i) w1 Hw1 Hnd') as
      (w' & Hrun & Hw' & Hnext & Hweb & Hchk & Hinc & Hcon & Hsent & Hdb
         & Hloop & Hreg & Hother).
    { intros p Hp. apply Hids. right. exact Hp. }
    { intros h t p Ht Hp Hc. apply Hloop1 in Ht as [[_ ->]|[_ Ht]].
      - simpl in Hc. injection Hc as Hc. apply Hnotin, list_elem_of_In.
        simpl. rewrite Hc. apply in_map. exact Hp.
      - apply (Hfree h t p Ht); [right; exact Hp|exact Hc]. }
    exists w'. split; [exact Hrun|]. split; [exact Hw'|].
    split; [rewrite Hnext; simpl; lia|].
    split; [rewrite Hweb; reflexivity|].
    split; [rewrite Hchk; reflexivity|].
    split; [rewrite Hinc; reflexivity|].
    split; [rewrite Hcon; reflexivity|].
    split; [rewrite Hsent; reflexivity|].
    split; [rewrite Hdb; reflexivity|].
    split; [|split].
    + intros h t. rewrite Hloop, Hloop1. split.
      * intros [[[-> ->]|[_ H]]|(k & p & Hk & -> & ->)].
        -- right. exists 0%nat, (id, site).
           split; [reflexivity|]. split; [lia|].
           rewrite Nat.add_0_r. reflexivity.
        -- left. exact H.
        -- right. exists (S k), p. split; [exact Hk|].
           change (nextHandle w1) with (S n). split; [lia|].
           rewrite Nat.add_succ_r. reflexivity.
      * intros [H|(k & p & Hk & -> & ->)].
        -- left. right. split; [|exact H].
           destruct Hw as [Hlt _]. pose proof (Hlt h t H) as Hlt'.
           fold n in Hlt'. lia.
        -- destruct k as [|k].
           ++ left. left. simpl in Hk. injection Hk as <-.
              rewrite !Nat.add_0_r. split; reflexivity.
           ++ right. exists k, p. split; [exact Hk|].
              change (nextHandle w1) with (S n). split; [lia|].
              rewrite Nat.add_succ_r. reflexivity.
    + intros k p Hk. destruct k as [|k].
      * simpl in Hk. injection Hk as <-. rewrite Hother.
        -- subst w1. simpl. rewrite lookup_insert_eq. f_equal. lia.
        -- intros q Hq Heq%init_key_inj. apply Hnotin, list_elem_of_In.
           simpl in Heq. rewrite Heq. apply in_map. exact Hq.
      * rewrite (Hreg k p Hk). change (nextHandle w1) with (S n).
        f_equal. lia.
    + intros key Hkey. rewrite Hother.
      * subst w1. simpl. rewrite lookup_insert_ne; [reflexivity|].
        intros Heq. apply (Hkey (id, site)); [left; reflexivity|].
        symmetry. exact Heq.
      * intros p Hp. apply Hkey. right. exact Hp.
Qed.

(** [startMonitor] from a tidy state, case by case. *)
Lemma startMonitor_cases env (s : Scheduler.t) :
  tidy s -> plainIds (Scheduler.world s) ->
  let w0 := Scheduler.world (Scheduler.stopMonitor s) in
  let w1 := setDbCalls (S (dbCalls (Scheduler.world s))) w0 in
  let sites := activeSites (Scheduler.world s) in
  let d := Scheduler.delayBetween sites in
  if dbFault env (dbCalls (Scheduler.world s))
  then Scheduler.startMonitor env s
       = (Throw Prisma.requestError, Scheduler.mk w1 None ∅)
  else if decide (sites = [])
  then Scheduler.startMonitor env s
       = (Ok tt,
          Scheduler.mk
            (setConsole (fun c => c ++ [Scheduler.noActiveLine]) w1) None ∅)
  else exists w',
    Scheduler.startMonitor env s
    = (Ok tt,
       Scheduler.mk
         (setNextHandle (S (nextHandle w'))
            (setConsole
               (fun c => c ++ [Scheduler.startedLine (length sites)
                                 (Scheduler.minInterval sites)]) w'))
         (Some (nextHandle w'))
         {[nextHandle w' := Scheduler.cleanupPeriodMs]})
    /\ checksRegistered w'
    /\ nextHandle w' = (nextHandle w0 + length sites)%nat
    /\ websites w' = websites w0 /\ checks w' = checks w0
    /\ incidents w' = incidents w0 /\ console w' = console w0
    /\ sent w' = sent w0
    /\ (forall h t, eventLoop w' !! h = Some t <->
          eventLoop w0 !! h = Some t
          \/ exists k p, sites !! k = Some p /\ h = (nextHandle w0 + k)%nat
               /\ t = {| timerCallback := RunScheduleCheck (fst p);
                         timerDelay := Scheduler.initialDelay d k |})
    /\ (forall k p, sites !! k = Some p ->
          timers w' !! ("init-" +:+ fst p) = Some (nextHandle w0 + k)%nat).
Proof.
  intros Hs Hids. cbv zeta.
  pose proof (stopMonitor_tidy s Hs) as [Hw0 _].
  pose proof (stopMonitor_cleanup s) as Hc.
  pose proof (stopMonitor_intervals s (proj2 Hs)) as Hi.
  assert (Hsame : websites (Scheduler.world (Scheduler.stopMonitor s))
                  = websites (Scheduler.world s))
    by (rewrite stopMonitor_world; reflexivity).
  assert (Hdb : dbCalls (Scheduler.world (Scheduler.stopMonitor s))
                = dbCalls (Scheduler.world s))
    by (rewrite stopMonitor_world; reflexivity).
  assert (Hsites : activeSites (Scheduler.world (Scheduler.stopMonitor s))
                   = activeSites (Scheduler.world s))
    by (unfold activeSites; rewrite Hsame; reflexivity).
  unfold Scheduler.startMonitor. rewrite findMany_active_run.
  rewrite Hdb, Hsites.
  set (w0 := Scheduler.world (Scheduler.stopMonitor s)) in *.
  set (sites := activeSites (Scheduler.world s)) in *.
  destruct (dbFault env (dbCalls (Scheduler.world s))).
  { unfold Scheduler.withWorld. rewrite Hc, Hi. reflexivity. }
  destruct (decide (sites = [])) as [Hnil|Hcons].
  { rewrite Hnil. simpl. unfold Scheduler.withWorld.
    rewrite Hc, Hi. reflexivity. }
  assert (Hlen : (length sites =? 0)%nat = false).
  { apply Nat.eqb_neq. destruct sites; [congruence|simpl; lia]. }
  rewrite Hlen. cbv zeta.
  set (d := Scheduler.delayBetween sites).
  set (w1 := setDbCalls (S (dbCalls (Scheduler.world s))) w0).
  destruct (armInitial_run d sites 0%nat w1) as
    (w' & Hrun & Hw' & Hnext & Hweb & Hchk & Hinc & Hcon & Hsent & _
       & Hev & Hreg & _).
  { apply (checksRegistered_sub w0); try reflexivity; try exact Hw0.
    - destruct Hw0 as (Hlt & _). exact Hlt.
    - intros h t id H _. exact H. }
  { apply activeSites_NoDup. }
  { intros [id site] Hin. apply activeSites_In in Hin as [Hin _].
    exact (Hids id site Hin). }
  { intros h t p Ht _ Hcb. change (eventLoop w1) with (eventLoop w0) in Ht.
    apply (stopMonitor_checks s h t (proj1 Hs)) in Ht as [Ha _].
    congruence. }
  exists w'. rewrite Hrun. rewrite Hi.
  split; [rewrite insert_empty; reflexivity|].
  split; [exact Hw'|]. split; [exact Hnext|].
  split; [exact Hweb|]. split; [exact Hchk|]. split; [exact Hinc|].
  split; [exact Hcon|]. split; [exact Hsent|].
  split; [exact Hev|exact Hreg].
Qed.



(** X20. When the read of the sites fails, [startMonitor] throws after it
    has stopped the monitor: no timeout and no interval is left armed,
    the timer map is empty, and the tables are as before. *)
Theorem startMonitor_read_fails env (s : Scheduler.t) :
  wellScheduled s ->
  dbFault env (dbCalls (Scheduler.world s)) = true ->
  let w := Scheduler.world s in
  let r := Scheduler.startMonitor env s in
  let s' := snd r in
  let w' := Scheduler.world s' in
  fst r = Throw Prisma.requestError
  /\ eventLoop w' = ∅ /\ timers w' = ∅
  /\ Scheduler.cleanupTimer s' = None /\ Scheduler.intervals s' = ∅
  /\ console w' = console w ++ [Scheduler.stoppedLine]
  /\ websites w' = websites w /\ checks w' = checks w
  /\ incidents w' = incidents w /\ sent w' = sent w.
Proof.
  intros Hs Hfault. cbv zeta.
  destruct (stopMonitor_wellScheduled s Hs) as (Hloop & Htim & Hc & Hi & _).
  assert (Hdb : dbCalls (Scheduler.world (Scheduler.stopMonitor s))
                = dbCalls (Scheduler.world s))
    by (rewrite stopMonitor_world; reflexivity).
  unfold Scheduler.startMonitor. rewrite findMany_active_run, Hdb, Hfault.
  unfold Scheduler.withWorld. simpl.
  split; [reflexivity|].
  split; [exact Hloop|]. split; [exact Htim|].
  split; [exact Hc|]. split; [exact Hi|].
  rewrite stopMonitor_world. repeat split.
Qed.

(** *** Runs of the scheduler *)

Lemma startMonitor_keeps_tidy env (s : Scheduler.t) :
  tidy s -> plainIds (Scheduler.world s) ->
  tidy (snd (Scheduler.startMonitor env s))
  /\ websites (Scheduler.world (snd (Scheduler.startMonitor env s)))
     = websites (Scheduler.world s).
Proof.
  intros Hs Hids.
  pose proof (startMonitor_cases env s Hs Hids) as Hcases.
  cbv zeta in Hcases.
  pose proof (stopMonitor_tidy s Hs) as [Hw0 _].
  assert (Hsame : websites (Scheduler.world (Scheduler.stopMonitor s))
                  = websites (Scheduler.world s))
    by (rewrite stopMonitor_world; reflexivity).
  assert (Hidle : forall f g,
            tidy (Scheduler.mk
                    (setConsole f
                       (setDbCalls g
                          (Scheduler.world (Scheduler.stopMonitor s))))
                    None ∅)).
  { intros f g. split; [|reflexivity]. simpl.
    apply (checksRegistered_sub
             (Scheduler.world (Scheduler.stopMonitor s)));
      try reflexivity; try exact Hw0.
    - destruct Hw0 as (Hlt & _). exact Hlt.
    - intros h t id H _. exact H. }
  destruct (dbFault env (dbCalls (Scheduler.world s))).
  { rewrite Hcases. simpl. split; [|exact Hsame].
    apply (Hidle (fun c => c)). }
  destruct (decide (activeSites (Scheduler.world s) = [])).
  { rewrite Hcases. simpl. split; [|exact Hsame]. apply Hidle. }
  destruct Hcases as (w' & Heq & Hw' & _ & Hweb & _).
  rewrite Heq. simpl. split; [|rewrite Hweb; exact Hsame].
  split; [|reflexivity]. simpl.
  apply (checksRegistered_sub w'); try reflexivity; try exact Hw'.
  - intros h t Ht. simpl in Ht. destruct Hw' as (Hlt & _).
    apply Hlt in Ht. simpl. lia.
  - intros h t id H _. exact H.
Qed.

Lemma performCheck_sites env id w id' :
  is_Some (websites (snd (performCheck env id w)) !! id') ->
  is_Some (websites w !! id').
Proof.
  destruct (websites w !! id) as [site|] eqn:Hsite.
  - destruct (performCheck_tables env id site w Hsite)
      as [(_ & -> & _)|[(_ & -> & _)|(_ & -> & _)]]; try (intros H; exact H).
    intros H. apply lookup_insert_is_Some in H as [<-|[_ H]]; [|exact H].
    rewrite Hsite. eexists. reflexivity.
  - rewrite performCheck_missing by exact Hsite. intros H. exact H.
Qed.

Lemma fireTimer_sites env handle w id' :
  is_Some (websites (worldOf (Monitor.fireTimer env handle w)) !! id') ->
  is_Some (websites w !! id').
Proof.
  unfold Monitor.fireTimer.
  destruct (eventLoop w !! handle) as [t|]; [|intros H; exact H].
  cbv zeta. destruct (timerCallback t) as [id|]; [|intros H; exact H].
  set (w0 := setEventLoop (delete handle) w).
  change (websites w) with (websites w0).
  rewrite scheduleCheck_cases.
  destruct (dbFault env (dbCalls w0)); [intros H; exact H|].
  cbv zeta.
  destruct (websites w0 !! id) as [site|]; [|intros H; exact H].
  destruct (Website.isActive site); [|intros H; exact H].
  pose proof (performCheck_sites env id
                (setDbCalls (1 + dbCalls w0) w0) id') as Hp.
  destruct (performCheck env id _) as [[[]|e] w2];
    intros H; apply Hp; exact H.
Qed.

Lemma runEvent_keeps_tidy e (s : Scheduler.t) :
  tidy s -> plainIds (Scheduler.world s) ->
  tidy (Scheduler.stateOf (runEvent e s))
  /\ plainIds (Scheduler.world (Scheduler.stateOf (runEvent e s))).
Proof.
  intros Hs Hids. destruct e as [env| |env handle]; simpl.
  - destruct (startMonitor_keeps_tidy env s Hs Hids) as [H1 H2].
    split; [exact H1|]. unfold plainIds. rewrite H2. exact Hids.
  - split; [apply stopMonitor_tidy; exact Hs|].
    unfold plainIds. rewrite stopMonitor_world. exact Hids.
  - unfold Scheduler.fireTimer.
    pose proof (fireTimer_checksRegistered env handle (Scheduler.world s)
                  (proj1 Hs)) as Hw.
    pose proof (fireTimer_sites env handle (Scheduler.world s)) as Hsites.
    destruct (Monitor.fireTimer env handle (Scheduler.world s)) as [w'|r w'];
      simpl in *.
    + split; [split; [exact Hw|exact (proj2 Hs)]|].
      intros id site Hsite.
      destruct (Hsites id) as [site' Hsite']; [eexists; exact Hsite|].
      exact (Hids id site' Hsite').
    + split; [split; [exact Hw|exact (proj2 Hs)]|].
      intros id site Hsite.
      destruct (Hsites id) as [site' Hsite']; [eexists; exact Hsite|].
      exact (Hids id site' Hsite').
Qed.

(** X21. Whatever sequence of starts, stops and timer callbacks has run
    from a tidy state, each to its end, and whether or not the process
    has ended on a failed tick: no site has two timeouts of the scheduler
    armed, every one of them is in the timer map, under the site's id or
    under [init-<id>], and at most the one cleanup interval is armed.  A
    [stopMonitor] then clears every timeout of the scheduler and the
    interval; what stays armed are timers of probes whose request was
    rejected, which were armed before. *)
Theorem runEvents_one_chain_per_site events (s : Scheduler.t) :
  tidy s -> plainIds (Scheduler.world s) ->
  let s' := Scheduler.stateOf (runEvents events s) in
  let w' := Scheduler.world s' in
  let stopped := Scheduler.stopMonitor s' in
  (forall h h' t t' id,
     eventLoop w' !! h = Some t -> eventLoop w' !! h' = Some t' ->
     timerCallback t = RunScheduleCheck id ->
     timerCallback t' = RunScheduleCheck id -> h = h')
  /\ (forall h t id,
        eventLoop w' !! h = Some t ->
        timerCallback t = RunScheduleCheck id ->
        timers w' !! id = Some h \/ timers w' !! ("init-" +:+ id) = Some h)
  /\ Scheduler.intervals s'
     = match Scheduler.cleanupTimer s' with
       | Some h => {[h := Scheduler.cleanupPeriodMs]}
       | None => ∅
       end
  /\ (forall h t,
        eventLoop (Scheduler.world stopped) !! h = Some t ->
        timerCallback t = RunAbort /\ eventLoop w' !! h = Some t)
  /\ Scheduler.intervals stopped = ∅.
Proof.
  intros Hs Hids. cbv zeta.
  assert (Hinv : tidy (Scheduler.stateOf (runEvents events s))).
  { revert s Hs Hids.
    induction events as [|e events IH]; intros s Hs Hids; [exact Hs|].
    simpl.
    destruct (runEvent_keeps_tidy e s Hs Hids) as [H1 H2].
    destruct (runEvent e s) as [s1|r s1]; simpl in H1, H2.
    - exact (IH _ H1 H2).
    - exact H1. }
  pose proof (stopMonitor_checks (Scheduler.stateOf (runEvents events s)))
    as Hstop.
  pose proof (stopMonitor_intervals _ (proj2 Hinv)) as Hi.
  destruct Hinv as [(Hlt & Hreg & Hone) Hint].
  split; [exact Hone|].
  split.
  { intros h t id Ht Hc. apply (Hreg h t id Ht Hc). }
  split; [exact Hint|].
  split; [|exact Hi].
  intros h t Ht. apply (Hstop h t); [|exact Ht].
  split; [exact Hlt|split; [exact Hreg|exact Hone]].
Qed.

End Starting.

(** Sample runs of the scheduler. *)

Lemma idle_wellScheduled (w : World) :
  eventLoop w = ∅ -> wellScheduled (Scheduler.mk w None ∅).
Proof.
  intros He. split; [apply wellTimers_idle; exact He|reflexivity].
Qed.

Lemma idle_tidy (w : World) :
  eventLoop w = ∅ -> tidy (Scheduler.mk w None ∅).
Proof.
  intros He. split; [|reflexivity].
  apply wellTimers_checksRegistered, wellTimers_idle, He.
Qed.

Lemma sample_plainIds site incidents now :
  plainIds (Sample.world site incidents now).
Proof.
  intros id s H. simpl in H.
  apply lookup_singleton_Some in H as [<- _]. reflexivity.
Qed.



Lemma startMonitor_read_fails_witness :
  fst (Scheduler.startMonitor
         (Sample.env (Response 200) (fun _ => true) false)
         (Scheduler.mk (Sample.world Sample.site [] 1000) None ∅))
  = Throw Prisma.requestError.
Proof.
  refine (proj1 (startMonitor_read_fails
            (Sample.env (Response 200) (fun _ => true) false)
            (Scheduler.mk (Sample.world Sample.site [] 1000) None ∅)
            _ _)).
  - apply idle_wellScheduled. reflexivity.
  - reflexivity.
Defined.

(** A start, a tick whose request is rejected, a tick that goes through,
    a restart and one more tick: after a stop only the timer of the
    rejected request is armed. *)
Lemma runEvents_one_chain_per_site_witness :
  let ok := Sample.env (Response 200) Sample.noFault false in
  let refused := Sample.env (NetworkError "TypeError" "fetch failed")
                   Sample.noFault false in
  let events := [Start ok; Tick refused 0%nat; Tick ok 3%nat; Start ok;
                 Tick ok 6%nat] in
  let s' := Scheduler.stateOf
              (runEvents events
                 (Scheduler.mk (Sample.world Sample.site [] 1000) None ∅)) in
  Scheduler.intervals (Scheduler.stopMonitor s') = ∅
  /\ size (eventLoop (Scheduler.world s')) = 2%nat
  /\ nextHandle (Scheduler.world s') = 10%nat
  /\ eventLoop (Scheduler.world (Scheduler.stopMonitor s'))
     = {[2%nat := {| timerCallback := RunAbort; timerDelay := 15000 |}]}.
Proof.
  cbv zeta. split; [|split; [|split]].
  - refine (proj2 (proj2 (proj2 (proj2 (runEvents_one_chain_per_site
              [Start (Sample.env (Response 200) Sample.noFault false);
               Tick (Sample.env (NetworkError "TypeError" "fetch failed")
                       Sample.noFault false) 0%nat;
               Tick (Sample.env (Response 200) Sample.noFault false) 3%nat;
               Start (Sample.env (Response 200) Sample.noFault false);
               Tick (Sample.env (Response 200) Sample.noFault false) 6%nat]
              (Scheduler.mk (Sample.world Sample.site [] 1000) None ∅)
              _ _))))).
    + apply idle_tidy. reflexivity.
    + apply sample_plainIds.
  - vm_compute. reflexivity.
  - vm_compute. reflexivity.
  - vm_compute. reflexivity.
Defined.
